(** * Solar-Analysis: the calculation layer

    A shallow embedding of [src/lib/utils/data-processing.ts] and
    [src/lib/utils/advanced-calculations.ts], and the properties of their
    specification; then of the pure parts of [src/lib/utils/helpers.ts],
    the filter options of [src/lib/data/constants.ts] and the options the
    filter panel builds, with the properties the code itself shows.

    Conventions of the embedding.
    - A JavaScript [number] is the rational it denotes ([Q], compared with
      [==]); integer-valued fields ([hour], [month], ...) are [Z].  NaN and
      the infinities are outside the model.
    - Arithmetic is given twice.  The definitions at top level take [+],
      [-], [*] and [/] exactly; the properties stated on them are those
      rounding does not bear on: what is tested, counted, selected and
      ordered, and the bounds rounding to nearest keeps.  The definitions
      of module [Double] round every operation to the nearest binary64
      number, ties to even ([round64]), as the engine does; the properties
      that depend on how sums and products are taken are stated on them.
      The storage and peak-shaving simulations are given in [Double] only.
    - An optional field ([gridImport?: number]) is an [option]; the idiom
      [x || 0] is [orZero].
    - [Array.prototype.forEach] over accumulators declared by [let] is a
      [fold_left] over a record of the accumulators.
    - A [Map] is an association list in insertion order, the order of
      [Map.prototype.values].  A plain object used as a dictionary
      ([JsObject]) is an association list of its own properties: reading a
      name it does not own falls through to [Object.prototype], and its
      keys are enumerated with the array indices first, in ascending
      order, and the other keys after them in creation order.
    - Strings are compared byte by byte, which is the order of [<] on
      strings of ASCII characters.  The CSV code looks only for the double
      quote, the comma and the backslash; every other character is alike
      to it.
    - A [TypeError] (property access on [undefined], a call of what is no
      function) is [None]. *)

From Stdlib Require Import QArith Qminmax Qabs ZArith List String Bool.
From Stdlib Require Import Lia Lqa Permutation.
From Stdlib Require Import Ascii DecimalString DecimalZ Sorted Qround.
From Stdlib Require Import Qpower.
From Stdlib Require Decimal Floats.
Import ListNotations.

Open Scope Q_scope.

(** ** Numbers *)

Module Num.

(** [x || 0] on an optional number. *)
Definition orZero (x : option Q) : Q :=
  match x with
  | Some v => v
  | None => 0
  end.

(** [x < y] and [x > y] as the tests of a conditional. *)
Definition Qltb (x y : Q) : bool :=
  match x ?= y with
  | Lt => true
  | _ => false
  end.

Definition Qgtb (x y : Q) : bool := Qltb y x.

(** [x === y] on numbers. *)
Definition Qeqb (x y : Q) : bool := Qeq_bool x y.

(** [Math.min(a, b, c)]. *)
Definition Qmin3 (a b c : Q) : Q := Qmin (Qmin a b) c.

End Num.
Import Num.

(** ** The record model ([src/lib/types]) *)

Record SolarDataPoint := mkPoint {
  timestamp : string;
  date : string;
  time : string;
  hour : Z;
  day : Z;
  month : Z;
  monthName : string;
  year : Z;
  dayOfWeek : Z;
  dayName : string;
  isWeekend : bool;
  quarter : Z;
  weekOfYear : Z;
  solarProduction : Q;
  energyDemand : Q;
  netEnergy : option Q;
  gridImport : option Q;
  excessExport : option Q
}.

(** [{ ...dataPoint, netEnergy, gridImport, excessExport }] *)
Definition withDerived (p : SolarDataPoint) (n g e : Q) : SolarDataPoint :=
  mkPoint (timestamp p) (date p) (time p) (hour p) (day p) (month p)
          (monthName p) (year p) (dayOfWeek p) (dayName p) (isWeekend p)
          (quarter p) (weekOfYear p) (solarProduction p) (energyDemand p)
          (Some n) (Some g) (Some e).

(** [calculateDerivedMetrics], data-processing.ts lines 6-17. *)
Definition calculateDerivedMetrics (dataPoint : SolarDataPoint) : SolarDataPoint :=
  let netEnergy := solarProduction dataPoint - energyDemand dataPoint in
  let gridImport := if Qltb netEnergy 0 then Qabs netEnergy else 0 in
  let excessExport := if Qgtb netEnergy 0 then netEnergy else 0 in
  withDerived dataPoint netEnergy gridImport excessExport.

(** The measured part of a record is what derivation leaves alone. *)
Definition sameMeasured (p q : SolarDataPoint) : Prop :=
  timestamp p = timestamp q /\ date p = date q /\ time p = time q /\
  hour p = hour q /\ day p = day q /\ month p = month q /\
  monthName p = monthName q /\ year p = year q /\
  dayOfWeek p = dayOfWeek q /\ dayName p = dayName q /\
  isWeekend p = isWeekend q /\ quarter p = quarter q /\
  weekOfYear p = weekOfYear q /\
  solarProduction p = solarProduction q /\ energyDemand p = energyDemand q.

(** A record carries derived fields: both are present (up to [|| 0]) and
    have the values derivation gives them. *)
Definition Derived (p : SolarDataPoint) : Prop :=
  orZero (gridImport p) == Qmax 0 (energyDemand p - solarProduction p) /\
  orZero (excessExport p) == Qmax 0 (solarProduction p - energyDemand p).

(** A small sample record, used to build concrete inputs. *)
Definition samplePoint (d : string) (h : Z) (s e : Q) : SolarDataPoint :=
  mkPoint (d ++ "T00:00:00") d "00:00" h 1 1 "January" 2025 3 "Wednesday"
          false 1 1 s e None None None.

Definition rawPoint (d : string) (h : Z) (s e : Q) (g x : option Q)
  : SolarDataPoint :=
  mkPoint (d ++ "T00:00:00") d "00:00" h 1 1 "January" 2025 3 "Wednesday"
          false 1 1 s e None g x.


(** ** JavaScript containers *)

(** A [Map<K, V>]: entries in insertion order; [set] on a key that is
    present replaces the value in place and keeps the position. *)
Module JsMap.
Section WithKey.
Context {K V : Type}.
Variable eqb : K -> K -> bool.

Definition t := list (K * V).

Fixpoint get (m : t) (k : K) : option V :=
  match m with
  | [] => None
  | (k', v) :: m' => if eqb k k' then Some v else get m' k
  end.

Definition has (m : t) (k : K) : bool :=
  match get m k with
  | Some _ => true
  | None => false
  end.

Fixpoint set (m : t) (k : K) (v : V) : t :=
  match m with
  | [] => [(k, v)]
  | (k', v') :: m' =>
      if eqb k k' then (k', v) :: m' else (k', v') :: set m' k v
  end.

Definition keys (m : t) : list K := map fst m.
Definition values (m : t) : list V := map snd m.
End WithKey.
End JsMap.

(** A [Set<string>] built by [new Set(array)]: distinct members in order of
    first insertion. *)
Module JsSet.
Definition t := list string.

Definition has (s : t) (x : string) : bool := existsb (String.eqb x) s.

Definition add (s : t) (x : string) : t :=
  if has s x then s else s ++ [x].

Definition ofList (l : list string) : t := fold_left add l [].

Definition size (s : t) : Z := Z.of_nat (List.length s).
End JsSet.

(** [Array.prototype.sort(cmp)]: a stable sort; [cmp a b] is the number the
    comparator returns, negative when [a] goes first. *)
Module JsArray.
Section Sort.
Context {A : Type}.
Variable cmp : A -> A -> Q.

Fixpoint insert (x : A) (l : list A) : list A :=
  match l with
  | [] => [x]
  | y :: l' =>
      if Qltb (cmp y x) 0 then y :: insert x l' else x :: y :: l'
  end.

Definition sort (l : list A) : list A := fold_right insert [] l.
End Sort.

(** [Math.max(...xs)] of a non-empty array ([-Infinity], which the model
    has no number for, when the array is empty). *)
Definition maxOf (xs : list Q) : option Q :=
  match xs with
  | [] => None
  | x :: xs' => Some (fold_left Qmax xs' x)
  end.

(** [array.includes(x)] on integers. *)
Definition includes (l : list Z) (x : Z) : bool := existsb (Z.eqb x) l.
End JsArray.

(** The mathematical sum and count the properties are stated with. *)
Definition Qsum (l : list Q) : Q := fold_right Qplus 0 l.

Definition sumOf {A : Type} (f : A -> Q) (l : list A) : Q := Qsum (map f l).

(** The greatest element of [x :: l]. *)
Definition QmaxList (x : Q) (l : list Q) : Q := fold_right Qmax x l.

(** ** Binary64 arithmetic *)

(** A finite double is the rational it denotes.  An operation on doubles
    gives the double nearest to the exact result, ties going to the even
    mantissa; results beyond the largest double are outside the model. *)

(** The exponent [e] of a positive rational: [2 ^ e <= a < 2 ^ (e + 1)]. *)
Definition exponent (a : Q) : Z :=
  let e := (Z.log2 (Qnum a) - Z.log2 (Zpos (Qden a)))%Z in
  if Qle_bool (2 ^ e) a then e else (e - 1)%Z.

(** The nearest integer, ties to even. *)
Definition nearestEven (x : Q) : Z :=
  let f := Qfloor x in
  match Qcompare (x - inject_Z f) (1 # 2) with
  | Lt => f
  | Gt => (f + 1)%Z
  | Eq => if Z.even f then f else (f + 1)%Z
  end.

(** The exponent of the unit in the last place of the doubles around [a]:
    52 below the exponent of [a], and never below that of the subnormal
    doubles. *)
Definition ulpExponent (a : Q) : Z := (Z.max (exponent a) (-1022) - 52)%Z.

Definition roundPositive (a : Q) : Q :=
  inject_Z (nearestEven (a / 2 ^ ulpExponent a)) * 2 ^ ulpExponent a.

Definition round64 (x : Q) : Q :=
  match Qcompare x 0 with
  | Eq => 0
  | Gt => roundPositive x
  | Lt => - roundPositive (- x)
  end.

(** [x + y], [x - y], [x * y] and [x / y] on doubles. *)
Definition add64 (x y : Q) : Q := round64 (x + y).
Definition sub64 (x y : Q) : Q := round64 (x - y).
Definition mul64 (x y : Q) : Q := round64 (x * y).
Definition div64 (x y : Q) : Q := round64 (x / y).

(** The rationals that are doubles. *)
Definition Binary64 (x : Q) : Prop := round64 x == x.

(** A sum taken from 0, left to right, as a loop or [reduce] takes it. *)
Definition sum64 (l : list Q) : Q := fold_left add64 l 0.

(** The double a decimal literal denotes. *)
Definition literal (q : Q) : Q := round64 q.

(** The rational a primitive binary64 number of Rocq denotes, by which the
    rounding above is compared with the machine's. *)
Definition ofFloat (f : PrimFloat.float) : option Q :=
  match FloatOps.Prim2SF f with
  | SpecFloat.S754_zero _ => Some 0
  | SpecFloat.S754_finite s m e =>
      Some ((if s then - inject_Z (Zpos m) else inject_Z (Zpos m)) * 2 ^ e)
  | _ => None
  end.

Definition agrees (f : PrimFloat.float) (q : Q) : bool :=
  match ofFloat f with
  | Some x => Qeq_bool x q
  | None => false
  end.

(** ** Aggregates ([src/lib/types]) *)

Module Daily.
Record t := mk {
  date : string;
  solarProduction : Q;
  energyDemand : Q;
  netEnergy : Q;
  gridImport : Q;
  excessExport : Q
}.
End Daily.

Module Hourly.
Record t := mk {
  hour : Z;
  solarProduction : Q;
  energyDemand : Q;
  netEnergy : Q;
  gridImport : Q;
  excessExport : Q
}.
End Hourly.

Module Summary.
Record t := mk {
  totalSolarProduction : Q;
  totalEnergyDemand : Q;
  totalGridImport : Q;
  totalExcessExport : Q;
  averageDailySolarProduction : Q;
  averageDailyEnergyDemand : Q;
  peakSolarProduction : Q;
  peakEnergyDemand : Q;
  selfConsumptionPercentage : Q;
  gridDependencyPercentage : Q
}.
End Summary.

(** ** [aggregateByDay], data-processing.ts lines 65-97 *)

Section AggregateByDay.

(** [new Date(s).getTime()]: the host's date parser, taken as given. *)
Variable getTime : string -> Z.

(** The body of the first [forEach]: create the day's entry when the date
    is new, then add the record to it. *)
Definition dayStep (dailyMap : JsMap.t (K := string) (V := Daily.t))
           (point : SolarDataPoint) : JsMap.t :=
  let date := date point in
  let dailyMap :=
    if negb (JsMap.has String.eqb dailyMap date)
    then JsMap.set String.eqb dailyMap date (Daily.mk date 0 0 0 0 0)
    else dailyMap in
  match JsMap.get String.eqb dailyMap date with
  | Some daily =>
      JsMap.set String.eqb dailyMap date
        (Daily.mk (Daily.date daily)
           (Daily.solarProduction daily + solarProduction point)
           (Daily.energyDemand daily + energyDemand point)
           (Daily.netEnergy daily)
           (Daily.gridImport daily + orZero (gridImport point))
           (Daily.excessExport daily + orZero (excessExport point)))
  | None => dailyMap
  end.

(** The body of the second [forEach]. *)
Definition setNetEnergy (day : Daily.t) : Daily.t :=
  Daily.mk (Daily.date day) (Daily.solarProduction day)
           (Daily.energyDemand day)
           (Daily.solarProduction day - Daily.energyDemand day)
           (Daily.gridImport day) (Daily.excessExport day).

Definition byDate (a b : Daily.t) : Q :=
  inject_Z (getTime (Daily.date a) - getTime (Daily.date b)).

Definition aggregateByDay (data : list SolarDataPoint) : list Daily.t :=
  let dailyMap := fold_left dayStep data [] in
  let result := map setNetEnergy (JsMap.values dailyMap) in
  JsArray.sort byDate result.

End AggregateByDay.

(** ** [aggregateByHour], data-processing.ts lines 155-199 *)

Definition hours24 : list Z := map Z.of_nat (seq 0 24).

Definition HourState : Type :=
  (JsMap.t (K := Z) (V := Hourly.t) * JsMap.t (K := Z) (V := Z))%type.

(** The initialisation loop [for (let hour = 0; hour < 24; hour++)]. *)
Definition hourInit : HourState :=
  fold_left
    (fun (st : HourState) hour =>
       (JsMap.set Z.eqb (fst st) hour (Hourly.mk hour 0 0 0 0 0),
        JsMap.set Z.eqb (snd st) hour 0%Z))
    hours24 ([], []).

(** The body of the summing [forEach].  [hourlyMap.get(hour)!] is
    [undefined] for an hour outside the map, and the first assignment to
    one of its properties then throws. *)
Definition hourStep (st : option HourState) (point : SolarDataPoint)
  : option HourState :=
  match st with
  | None => None
  | Some (hourlyMap, hourCounts) =>
      let hour := hour point in
      match JsMap.get Z.eqb hourlyMap hour, JsMap.get Z.eqb hourCounts hour with
      | Some hourData, Some c =>
          let count := (c + 1)%Z in
          Some (JsMap.set Z.eqb hourlyMap hour
                  (Hourly.mk (Hourly.hour hourData)
                     (Hourly.solarProduction hourData + solarProduction point)
                     (Hourly.energyDemand hourData + energyDemand point)
                     (Hourly.netEnergy hourData)
                     (Hourly.gridImport hourData + orZero (gridImport point))
                     (Hourly.excessExport hourData
                      + orZero (excessExport point))),
                JsMap.set Z.eqb hourCounts hour count)
      | _, _ => None
      end
  end.

(** The body of the averaging [forEach];
    [hourCounts.get(hourData.hour) || 1]. *)
Definition hourAverage (hourCounts : JsMap.t (K := Z) (V := Z))
           (hourData : Hourly.t) : Hourly.t :=
  let count :=
    match JsMap.get Z.eqb hourCounts (Hourly.hour hourData) with
    | Some c => if (c =? 0)%Z then 1%Z else c
    | None => 1%Z
    end in
  let solarProduction := Hourly.solarProduction hourData / inject_Z count in
  let energyDemand := Hourly.energyDemand hourData / inject_Z count in
  Hourly.mk (Hourly.hour hourData) solarProduction energyDemand
            (solarProduction - energyDemand)
            (Hourly.gridImport hourData / inject_Z count)
            (Hourly.excessExport hourData / inject_Z count).

Definition aggregateByHour (data : list SolarDataPoint)
  : option (list Hourly.t) :=
  match fold_left hourStep data (Some hourInit) with
  | None => None
  | Some (hourlyMap, hourCounts) =>
      Some (map (hourAverage hourCounts) (JsMap.values hourlyMap))
  end.

(** ** [calculateSummary], data-processing.ts lines 204-246 *)

Module SummaryAcc.
Record t := mk {
  totalSolarProduction : Q;
  totalEnergyDemand : Q;
  totalGridImport : Q;
  totalExcessExport : Q;
  peakSolarProduction : Q;
  peakEnergyDemand : Q
}.
End SummaryAcc.

Definition summaryStep (acc : SummaryAcc.t) (point : SolarDataPoint)
  : SummaryAcc.t :=
  SummaryAcc.mk
    (SummaryAcc.totalSolarProduction acc + solarProduction point)
    (SummaryAcc.totalEnergyDemand acc + energyDemand point)
    (SummaryAcc.totalGridImport acc + orZero (gridImport point))
    (SummaryAcc.totalExcessExport acc + orZero (excessExport point))
    (Qmax (SummaryAcc.peakSolarProduction acc) (solarProduction point))
    (Qmax (SummaryAcc.peakEnergyDemand acc) (energyDemand point)).

(** [uniqueDates.size || 1] *)
Definition dayCount (data : list SolarDataPoint) : Z :=
  let uniqueDates := JsSet.ofList (map date data) in
  if (JsSet.size uniqueDates =? 0)%Z then 1%Z else JsSet.size uniqueDates.

Definition calculateSummary (data : list SolarDataPoint) : Summary.t :=
  let acc := fold_left summaryStep data (SummaryAcc.mk 0 0 0 0 0 0) in
  let totalSolarProduction := SummaryAcc.totalSolarProduction acc in
  let totalEnergyDemand := SummaryAcc.totalEnergyDemand acc in
  let totalGridImport := SummaryAcc.totalGridImport acc in
  let totalExcessExport := SummaryAcc.totalExcessExport acc in
  let dayCount := dayCount data in
  let selfConsumptionPercentage :=
    if Qgtb totalSolarProduction 0
    then ((totalSolarProduction - totalExcessExport) / totalSolarProduction)
         * 100
    else 0 in
  let gridDependencyPercentage :=
    if Qgtb totalEnergyDemand 0
    then (totalGridImport / totalEnergyDemand) * 100
    else 0 in
  Summary.mk totalSolarProduction totalEnergyDemand totalGridImport
             totalExcessExport
             (totalSolarProduction / inject_Z dayCount)
             (totalEnergyDemand / inject_Z dayCount)
             (SummaryAcc.peakSolarProduction acc)
             (SummaryAcc.peakEnergyDemand acc)
             selfConsumptionPercentage gridDependencyPercentage.

(** ** [filterData], data-processing.ts lines 331-356 *)

Module Filters.
Record t := mk {
  startDate : option string;
  endDate : option string;
  months : option (list Z);
  hours : option (list Z);
  weekdaysOnly : option bool;
  weekendsOnly : option bool
}.

(** [{}] *)
Definition none : t := mk None None None None None None.
End Filters.

(** Truthiness of an optional string and of an optional boolean. *)
Definition truthyString (s : option string) : option string :=
  match s with
  | Some EmptyString => None
  | other => other
  end.

Definition truthyBool (b : option bool) : bool :=
  match b with
  | Some true => true
  | _ => false
  end.

(** The callback of [data.filter]: each [if (...) return false] in turn. *)
Definition filterPredicate (filters : Filters.t) (point : SolarDataPoint)
  : bool :=
  if match truthyString (Filters.startDate filters) with
     | Some s => String.ltb (date point) s
     | None => false
     end then false
  else if match truthyString (Filters.endDate filters) with
          | Some s => String.ltb s (date point)
          | None => false
          end then false
  else if match Filters.months filters with
          | Some ms => (0 <? Z.of_nat (List.length ms))%Z
                       && negb (JsArray.includes ms (month point))
          | None => false
          end then false
  else if match Filters.hours filters with
          | Some hs => (0 <? Z.of_nat (List.length hs))%Z
                       && negb (JsArray.includes hs (hour point))
          | None => false
          end then false
  else if truthyBool (Filters.weekdaysOnly filters) && isWeekend point
       then false
  else if truthyBool (Filters.weekendsOnly filters) && negb (isWeekend point)
       then false
  else true.

Definition filterData (data : list SolarDataPoint) (filters : Filters.t)
  : list SolarDataPoint :=
  filter (filterPredicate filters) data.

(** ** [calculateCostSavings], advanced-calculations.ts lines 10-61 *)

Module CostSavings.
Record t := mk {
  totalGridImportCost : Q;
  totalGridExportCredit : Q;
  totalSolarSavings : Q;
  totalCostWithoutSolar : Q;
  totalCostWithSolar : Q;
  totalSavings : Q;
  savingsPercentage : Q
}.
End CostSavings.

Module CostAcc.
Record t := mk {
  totalGridImportCost : Q;
  totalGridExportCredit : Q;
  totalSolarSavings : Q;
  totalCostWithoutSolar : Q;
  totalCostWithSolar : Q
}.
End CostAcc.

Definition defaultGridImportRate : Q := 15 # 100.
Definition defaultGridExportRate : Q := 8 # 100.

Definition costStep (gridImportRate gridExportRate : Q) (acc : CostAcc.t)
           (point : SolarDataPoint) : CostAcc.t :=
  let costWithoutSolar := energyDemand point * gridImportRate in
  let gridImportCost := orZero (gridImport point) * gridImportRate in
  let gridExportCredit := orZero (excessExport point) * gridExportRate in
  let selfConsumedSolar :=
    solarProduction point - orZero (excessExport point) in
  let solarSavings := selfConsumedSolar * gridImportRate in
  let costWithSolar := gridImportCost - gridExportCredit in
  CostAcc.mk
    (CostAcc.totalGridImportCost acc + gridImportCost)
    (CostAcc.totalGridExportCredit acc + gridExportCredit)
    (CostAcc.totalSolarSavings acc + solarSavings)
    (CostAcc.totalCostWithoutSolar acc + costWithoutSolar)
    (CostAcc.totalCostWithSolar acc + costWithSolar).

Definition calculateCostSavings (data : list SolarDataPoint)
           (gridImportRate gridExportRate : Q) : CostSavings.t :=
  let acc :=
    fold_left (costStep gridImportRate gridExportRate) data
              (CostAcc.mk 0 0 0 0 0) in
  let totalSavings :=
    CostAcc.totalCostWithoutSolar acc - CostAcc.totalCostWithSolar acc in
  let savingsPercentage :=
    if Qgtb (CostAcc.totalCostWithoutSolar acc) 0
    then (totalSavings / CostAcc.totalCostWithoutSolar acc) * 100
    else 0 in
  CostSavings.mk
    (CostAcc.totalGridImportCost acc) (CostAcc.totalGridExportCredit acc)
    (CostAcc.totalSolarSavings acc) (CostAcc.totalCostWithoutSolar acc)
    (CostAcc.totalCostWithSolar acc) totalSavings savingsPercentage.

(** ** [calculateSelfSufficiency], advanced-calculations.ts lines 117-184 *)

Module SelfSufficiency.
Record t := mk {
  totalSelfConsumed : Q;
  selfSufficiencyPercentage : Q;
  selfConsumptionPercentage : Q;
  gridDependencyPercentage : Q;
  selfSufficientHours : Z;
  excessProductionHours : Z;
  gridDependentHours : Z;
  noProductionHours : Z;
  hoursCounted : Z
}.
End SelfSufficiency.

Module SufficiencyAcc.
Record t := mk {
  totalSolarProduction : Q;
  totalEnergyDemand : Q;
  totalGridImport : Q;
  totalExcessExport : Q;
  totalSelfConsumed : Q;
  selfSufficientHours : Z;
  excessProductionHours : Z;
  gridDependentHours : Z;
  noProductionHours : Z
}.
End SufficiencyAcc.

(** The body of the [forEach]: the running totals, then the [if]/[else if]
    chain that increments at most one of the four hour counters. *)
Definition sufficiencyStep (acc : SufficiencyAcc.t) (point : SolarDataPoint)
  : SufficiencyAcc.t :=
  let totalSolarProduction :=
    SufficiencyAcc.totalSolarProduction acc + solarProduction point in
  let totalEnergyDemand :=
    SufficiencyAcc.totalEnergyDemand acc + energyDemand point in
  let totalGridImport :=
    SufficiencyAcc.totalGridImport acc + orZero (gridImport point) in
  let totalExcessExport :=
    SufficiencyAcc.totalExcessExport acc + orZero (excessExport point) in
  let selfConsumed := solarProduction point - orZero (excessExport point) in
  let totalSelfConsumed :=
    SufficiencyAcc.totalSelfConsumed acc + selfConsumed in
  let selfSufficientHours := SufficiencyAcc.selfSufficientHours acc in
  let excessProductionHours := SufficiencyAcc.excessProductionHours acc in
  let gridDependentHours := SufficiencyAcc.gridDependentHours acc in
  let noProductionHours := SufficiencyAcc.noProductionHours acc in
  let totals :=
    SufficiencyAcc.mk totalSolarProduction totalEnergyDemand totalGridImport
                      totalExcessExport totalSelfConsumed in
  if Qeqb (solarProduction point) 0 then
    totals selfSufficientHours excessProductionHours gridDependentHours
           (noProductionHours + 1)%Z
  else if Qeqb (orZero (gridImport point)) 0
          && Qeqb (orZero (excessExport point)) 0 then
    totals (selfSufficientHours + 1)%Z excessProductionHours
           gridDependentHours noProductionHours
  else if Qgtb (orZero (excessExport point)) 0 then
    totals selfSufficientHours (excessProductionHours + 1)%Z
           gridDependentHours noProductionHours
  else if Qgtb (orZero (gridImport point)) 0 then
    totals selfSufficientHours excessProductionHours
           (gridDependentHours + 1)%Z noProductionHours
  else
    totals selfSufficientHours excessProductionHours gridDependentHours
           noProductionHours.

Definition calculateSelfSufficiency (data : list SolarDataPoint)
  : SelfSufficiency.t :=
  let acc :=
    fold_left sufficiencyStep data
              (SufficiencyAcc.mk 0 0 0 0 0 0%Z 0%Z 0%Z 0%Z) in
  let totalEnergyDemand := SufficiencyAcc.totalEnergyDemand acc in
  let totalSolarProduction := SufficiencyAcc.totalSolarProduction acc in
  let totalSelfConsumed := SufficiencyAcc.totalSelfConsumed acc in
  SelfSufficiency.mk
    totalSelfConsumed
    (if Qgtb totalEnergyDemand 0
     then (totalSelfConsumed / totalEnergyDemand) * 100 else 0)
    (if Qgtb totalSolarProduction 0
     then (totalSelfConsumed / totalSolarProduction) * 100 else 0)
    (if Qgtb totalEnergyDemand 0
     then (SufficiencyAcc.totalGridImport acc / totalEnergyDemand) * 100
     else 0)
    (SufficiencyAcc.selfSufficientHours acc)
    (SufficiencyAcc.excessProductionHours acc)
    (SufficiencyAcc.gridDependentHours acc)
    (SufficiencyAcc.noProductionHours acc)
    (Z.of_nat (List.length data)).

(** ** The records of the two simulations

    The results and the loop variables of [calculateStoragePotential] and
    [calculatePeakShaving]; the two functions are in module [Double]. *)

(** [(a, b) => a.hour - b.hour] *)
Definition byHour (a b : SolarDataPoint) : Q := inject_Z (hour a - hour b).

Module StoragePotential.
Record t := mk {
  totalExcessEnergy : Q;
  totalDeficitEnergy : Q;
  potentialAdditionalSelfConsumption : Q;
  optimalStorageCapacity : Q;
  currentSelfSufficiency : Q;
  potentialSelfSufficiency : Q;
  selfSufficiencyImprovement : Q;
  storageUtilizationRate : Q
}.
End StoragePotential.

Module DayStorage.
Record t := mk {
  dailyExcess : Q;
  dailyDeficit : Q;
  dailyStorageLevel : Q;
  dailyAdditionalSelfConsumption : Q;
  maxStorageNeeded : Q
}.

Definition init : t := mk 0 0 0 0 0.
End DayStorage.

Module StorageAcc.
Record t := mk {
  totalExcessEnergy : Q;
  totalDeficitEnergy : Q;
  potentialAdditionalSelfConsumption : Q;
  optimalStorageCapacity : Q
}.
End StorageAcc.

Module PeakShaving.
Record t := mk {
  totalPeakDemand : Q;
  totalPeakDemandAfterShaving : Q;
  totalPeakReduction : Q;
  peakReductionPercentage : Q;
  recommendedStorageCapacity : Q;
  daysAnalyzed : Z
}.
End PeakShaving.

Module PeakAcc.
Record t := mk {
  totalPeakDemand : Q;
  totalPeakDemandAfterShaving : Q;
  totalPeakReduction : Q
}.
End PeakAcc.

Module DayPeak.
Record t := mk {
  peakDemand : Q;
  peakDemandAfterShaving : Q
}.
End DayPeak.

Definition defaultStorageCapacity : Q := 5.
Definition defaultMaxDischargeRate : Q := 2.

(** [modifiedPoint.gridImport = ...] on the copy [{ ...point }]. *)
Definition withGridImport (p : SolarDataPoint) (g : Q) : SolarDataPoint :=
  mkPoint (timestamp p) (date p) (time p) (hour p) (day p) (month p)
          (monthName p) (year p) (dayOfWeek p) (dayName p) (isWeekend p)
          (quarter p) (weekOfYear p) (solarProduction p) (energyDemand p)
          (netEnergy p) (Some g) (excessExport p).

(** ** [aggregateByMonth], data-processing.ts lines 102-150 *)

Module Monthly.
Record t := mk {
  year : Z;
  month : Z;
  monthName : string;
  solarProduction : Q;
  energyDemand : Q;
  netEnergy : Q;
  gridImport : Q;
  excessExport : Q;
  selfConsumptionPercentage : Q;
  gridDependencyPercentage : Q
}.
End Monthly.

(** The text a template literal gives an integer-valued number (for
    magnitudes below 1e21, where JavaScript prints every digit). *)
Definition numberToString (n : Z) : string :=
  NilZero.string_of_int (Z.to_int n).

(** [`${point.year}-${point.month}`] *)
Definition monthKey (point : SolarDataPoint) : string :=
  numberToString (year point) ++ "-" ++ numberToString (month point).

(** The body of the first [forEach]. *)
Definition monthStep (monthlyMap : JsMap.t (K := string) (V := Monthly.t))
           (point : SolarDataPoint) : JsMap.t :=
  let key := monthKey point in
  let monthlyMap :=
    if negb (JsMap.has String.eqb monthlyMap key)
    then JsMap.set String.eqb monthlyMap key
           (Monthly.mk (year point) (month point) (monthName point)
                       0 0 0 0 0 0 0)
    else monthlyMap in
  match JsMap.get String.eqb monthlyMap key with
  | Some monthly =>
      JsMap.set String.eqb monthlyMap key
        (Monthly.mk (Monthly.year monthly) (Monthly.month monthly)
           (Monthly.monthName monthly)
           (Monthly.solarProduction monthly + solarProduction point)
           (Monthly.energyDemand monthly + energyDemand point)
           (Monthly.netEnergy monthly)
           (Monthly.gridImport monthly + orZero (gridImport point))
           (Monthly.excessExport monthly + orZero (excessExport point))
           (Monthly.selfConsumptionPercentage monthly)
           (Monthly.gridDependencyPercentage monthly))
  | None => monthlyMap
  end.

(** The body of the second [forEach]: net energy and the two percentages
    from the month's totals. *)
Definition monthDerive (month : Monthly.t) : Monthly.t :=
  Monthly.mk (Monthly.year month) (Monthly.month month)
    (Monthly.monthName month)
    (Monthly.solarProduction month) (Monthly.energyDemand month)
    (Monthly.solarProduction month - Monthly.energyDemand month)
    (Monthly.gridImport month) (Monthly.excessExport month)
    (if Qgtb (Monthly.solarProduction month) 0
     then ((Monthly.solarProduction month - Monthly.excessExport month)
           / Monthly.solarProduction month) * 100
     else 0)
    (if Qgtb (Monthly.energyDemand month) 0
     then (Monthly.gridImport month / Monthly.energyDemand month) * 100
     else 0).

(** The comparator of the final [sort]. *)
Definition byYearMonth (a b : Monthly.t) : Q :=
  if negb (Monthly.year a =? Monthly.year b)%Z
  then inject_Z (Monthly.year a - Monthly.year b)
  else inject_Z (Monthly.month a - Monthly.month b).

Definition aggregateByMonth (data : list SolarDataPoint) : list Monthly.t :=
  let monthlyMap := fold_left monthStep data [] in
  let result := map monthDerive (JsMap.values monthlyMap) in
  JsArray.sort byYearMonth result.

(** ** [calculateEmissionsReduction], advanced-calculations.ts lines 69-110 *)

Module Emissions.
Record t := mk {
  emissionsWithoutSolar : Q;
  emissionsWithSolar : Q;
  emissionsReduction : Q;
  reductionPercentage : Q;
  emissionsReductionTons : Q;
  equivalentTreesPlanted : Z
}.
End Emissions.

Module EmissionsAcc.
Record t := mk {
  totalSelfConsumedSolar : Q;
  totalGridImport : Q;
  totalEnergyDemand : Q
}.
End EmissionsAcc.

Definition defaultGridEmissionFactor : Q := 5 # 10.

(** [Math.round]: the nearest integer, a half going up. *)
Definition mathRound (x : Q) : Z := Qfloor (x + (1 # 2)).

Definition emissionsStep (acc : EmissionsAcc.t) (point : SolarDataPoint)
  : EmissionsAcc.t :=
  let selfConsumedSolar :=
    solarProduction point - orZero (excessExport point) in
  EmissionsAcc.mk
    (EmissionsAcc.totalSelfConsumedSolar acc + selfConsumedSolar)
    (EmissionsAcc.totalGridImport acc + orZero (gridImport point))
    (EmissionsAcc.totalEnergyDemand acc + energyDemand point).

Definition calculateEmissionsReduction (data : list SolarDataPoint)
           (gridEmissionFactor : Q) : Emissions.t :=
  let acc := fold_left emissionsStep data (EmissionsAcc.mk 0 0 0) in
  let emissionsWithoutSolar :=
    EmissionsAcc.totalEnergyDemand acc * gridEmissionFactor in
  let emissionsWithSolar :=
    EmissionsAcc.totalGridImport acc * gridEmissionFactor in
  let emissionsReduction := emissionsWithoutSolar - emissionsWithSolar in
  let reductionPercentage :=
    if Qgtb emissionsWithoutSolar 0
    then (emissionsReduction / emissionsWithoutSolar) * 100
    else 0 in
  Emissions.mk emissionsWithoutSolar emissionsWithSolar emissionsReduction
               reductionPercentage
               (emissionsReduction / 1000)
               (mathRound (emissionsReduction / (217 # 10))).

(** ** Plain objects used as dictionaries *)

(** [const dailyData: Record<string, SolarDataPoint[]> = {}]: the own
    properties are an association list in creation order; reading a name
    that is no own property falls through to [Object.prototype]. *)
Module JsObject.

(** The property names of [Object.prototype]. *)
Definition prototypeNames : list string :=
  [ "constructor"; "__defineGetter__"; "__defineSetter__"; "hasOwnProperty";
    "__lookupGetter__"; "__lookupSetter__"; "isPrototypeOf";
    "propertyIsEnumerable"; "toString"; "valueOf"; "__proto__";
    "toLocaleString" ]%string.

Definition inherits (key : string) : bool :=
  existsb (String.eqb key) prototypeNames.

(** What [object[key]] evaluates to: an own value, a member of
    [Object.prototype] (a function, or the prototype itself: truthy, and
    without a [push]), or [undefined]. *)
Inductive Property (V : Type) : Type :=
| Own (v : V)
| Inherited
| Undefined.
Arguments Own {V} v.
Arguments Inherited {V}.
Arguments Undefined {V}.

Definition get {V : Type} (o : JsMap.t (K := string) (V := V))
           (key : string) : Property V :=
  match JsMap.get String.eqb o key with
  | Some v => Own v
  | None => if inherits key then Inherited else Undefined
  end.

(** An array index is the canonical decimal text of an integer from 0 to
    [2^32 - 2]: own keys that are array indices are enumerated first, in
    ascending order, the others after them in creation order. *)
Definition digit (c : ascii) : option Z :=
  let n := Z.of_nat (nat_of_ascii c) in
  if ((48 <=? n) && (n <=? 57))%Z then Some (n - 48)%Z else None.

Fixpoint decimal (value : Z) (s : string) : option Z :=
  match s with
  | EmptyString => Some value
  | String c rest =>
      match digit c with
      | Some d => decimal (10 * value + d) rest
      | None => None
      end
  end.

Definition arrayIndex (key : string) : option Z :=
  match key with
  | EmptyString => None
  | String c rest =>
      if Ascii.eqb c "0"
      then match rest with
           | EmptyString => Some 0%Z
           | String _ _ => None
           end
      else match decimal 0 key with
           | Some v => if (v <=? 4294967294)%Z then Some v else None
           | None => None
           end
  end.

Definition isIndex (key : string) : bool :=
  match arrayIndex key with
  | Some _ => true
  | None => false
  end.

Definition indexOf (key : string) : Z :=
  match arrayIndex key with
  | Some i => i
  | None => 0
  end.

Definition byIndex (a b : string) : Q := inject_Z (indexOf a - indexOf b).

(** The order in which own keys created in the order [created] are
    enumerated. *)
Definition order (created : list string) : list string :=
  JsArray.sort byIndex (filter isIndex created)
  ++ filter (fun key => negb (isIndex key)) created.

(** [Object.keys(o)] and [Object.values(o)]. *)
Definition keys {V : Type} (o : JsMap.t (K := string) (V := V))
  : list string :=
  order (JsMap.keys o).

Definition values {V : Type} (o : JsMap.t (K := string) (V := V))
  : list V :=
  flat_map (fun key => match JsMap.get String.eqb o key with
                       | Some v => [v]
                       | None => []
                       end)
           (keys o).
End JsObject.

(** ** Grouping by day, shared by the two simulations *)

(** The body of the first [forEach] of [calculateStoragePotential] and of
    [calculatePeakShaving].  A date that names a member of
    [Object.prototype] reads as truthy, so no array is created, and
    [.push] on the member throws: [None]. *)
Definition groupStep
           (dailyData : option (JsMap.t (K := string)
                                        (V := list SolarDataPoint)))
           (point : SolarDataPoint) : option JsMap.t :=
  match dailyData with
  | None => None
  | Some dailyData =>
      let dailyData :=
        match JsObject.get dailyData (date point) with
        | JsObject.Undefined =>
            JsMap.set String.eqb dailyData (date point) []
        | _ => dailyData
        end in
      match JsObject.get dailyData (date point) with
      | JsObject.Own points =>
          Some (JsMap.set String.eqb dailyData (date point)
                          (points ++ [point]))
      | _ => None
      end
  end.

Definition groupByDate (data : list SolarDataPoint)
  : option (JsMap.t (K := string) (V := list SolarDataPoint)) :=
  fold_left groupStep data (Some []).

(** ** The calculations in binary64 arithmetic *)

(** The functions below are those of the source with every [+], [-], [*]
    and [/] on numbers rounded to the nearest double.  Comparisons,
    [Math.max] and [Math.min] are exact. *)
Module Double.

(** The double [0.7]. *)
Definition c07 : Q := literal (7 # 10).

(** *** [calculateDerivedMetrics], data-processing.ts lines 6-17 *)

Definition calculateDerivedMetrics (dataPoint : SolarDataPoint)
  : SolarDataPoint :=
  let netEnergy :=
    sub64 (solarProduction dataPoint) (energyDemand dataPoint) in
  let gridImport := if Qltb netEnergy 0 then Qabs netEnergy else 0 in
  let excessExport := if Qgtb netEnergy 0 then netEnergy else 0 in
  withDerived dataPoint netEnergy gridImport excessExport.

(** *** [calculateSummary], data-processing.ts lines 204-246 *)

Definition summaryStep (acc : SummaryAcc.t) (point : SolarDataPoint)
  : SummaryAcc.t :=
  SummaryAcc.mk
    (add64 (SummaryAcc.totalSolarProduction acc) (solarProduction point))
    (add64 (SummaryAcc.totalEnergyDemand acc) (energyDemand point))
    (add64 (SummaryAcc.totalGridImport acc) (orZero (gridImport point)))
    (add64 (SummaryAcc.totalExcessExport acc) (orZero (excessExport point)))
    (Qmax (SummaryAcc.peakSolarProduction acc) (solarProduction point))
    (Qmax (SummaryAcc.peakEnergyDemand acc) (energyDemand point)).

Definition calculateSummary (data : list SolarDataPoint) : Summary.t :=
  let acc := fold_left summaryStep data (SummaryAcc.mk 0 0 0 0 0 0) in
  let totalSolarProduction := SummaryAcc.totalSolarProduction acc in
  let totalEnergyDemand := SummaryAcc.totalEnergyDemand acc in
  let totalGridImport := SummaryAcc.totalGridImport acc in
  let totalExcessExport := SummaryAcc.totalExcessExport acc in
  let dayCount := dayCount data in
  let selfConsumptionPercentage :=
    if Qgtb totalSolarProduction 0
    then mul64 (div64 (sub64 totalSolarProduction totalExcessExport)
                      totalSolarProduction) 100
    else 0 in
  let gridDependencyPercentage :=
    if Qgtb totalEnergyDemand 0
    then mul64 (div64 totalGridImport totalEnergyDemand) 100
    else 0 in
  Summary.mk totalSolarProduction totalEnergyDemand totalGridImport
             totalExcessExport
             (div64 totalSolarProduction (inject_Z dayCount))
             (div64 totalEnergyDemand (inject_Z dayCount))
             (SummaryAcc.peakSolarProduction acc)
             (SummaryAcc.peakEnergyDemand acc)
             selfConsumptionPercentage gridDependencyPercentage.

(** *** [aggregateByDay], data-processing.ts lines 65-97 *)

Section AggregateByDay.

(** [new Date(s).getTime()]: the host's date parser, taken as given; [None]
    is the [NaN] of a string that is no date. *)
Variable getTime : string -> option Z.

Definition dayStep (dailyMap : JsMap.t (K := string) (V := Daily.t))
           (point : SolarDataPoint) : JsMap.t :=
  let date := date point in
  let dailyMap :=
    if negb (JsMap.has String.eqb dailyMap date)
    then JsMap.set String.eqb dailyMap date (Daily.mk date 0 0 0 0 0)
    else dailyMap in
  match JsMap.get String.eqb dailyMap date with
  | Some daily =>
      JsMap.set String.eqb dailyMap date
        (Daily.mk (Daily.date daily)
           (add64 (Daily.solarProduction daily) (solarProduction point))
           (add64 (Daily.energyDemand daily) (energyDemand point))
           (Daily.netEnergy daily)
           (add64 (Daily.gridImport daily) (orZero (gridImport point)))
           (add64 (Daily.excessExport daily)
                  (orZero (excessExport point))))
  | None => dailyMap
  end.

Definition setNetEnergy (day : Daily.t) : Daily.t :=
  Daily.mk (Daily.date day) (Daily.solarProduction day)
           (Daily.energyDemand day)
           (sub64 (Daily.solarProduction day) (Daily.energyDemand day))
           (Daily.gridImport day) (Daily.excessExport day).

(** [(a, b) => new Date(a.date).getTime() - new Date(b.date).getTime()]:
    the difference is [NaN] when either time is, and [sort] reads a [NaN]
    from its comparator as 0.  Times are integers, and [sort] looks at the
    sign of the difference only, which rounding keeps. *)
Definition byDate (a b : Daily.t) : Q :=
  match getTime (Daily.date a), getTime (Daily.date b) with
  | Some s, Some t => inject_Z (s - t)
  | _, _ => 0
  end.

Definition aggregateByDay (data : list SolarDataPoint) : list Daily.t :=
  let dailyMap := fold_left dayStep data [] in
  let result := map setNetEnergy (JsMap.values dailyMap) in
  JsArray.sort byDate result.

End AggregateByDay.

(** *** [calculateCostSavings], advanced-calculations.ts lines 10-61 *)

Definition costStep (gridImportRate gridExportRate : Q) (acc : CostAcc.t)
           (point : SolarDataPoint) : CostAcc.t :=
  let costWithoutSolar := mul64 (energyDemand point) gridImportRate in
  let gridImportCost := mul64 (orZero (gridImport point)) gridImportRate in
  let gridExportCredit :=
    mul64 (orZero (excessExport point)) gridExportRate in
  let selfConsumedSolar :=
    sub64 (solarProduction point) (orZero (excessExport point)) in
  let solarSavings := mul64 selfConsumedSolar gridImportRate in
  let costWithSolar := sub64 gridImportCost gridExportCredit in
  CostAcc.mk
    (add64 (CostAcc.totalGridImportCost acc) gridImportCost)
    (add64 (CostAcc.totalGridExportCredit acc) gridExportCredit)
    (add64 (CostAcc.totalSolarSavings acc) solarSavings)
    (add64 (CostAcc.totalCostWithoutSolar acc) costWithoutSolar)
    (add64 (CostAcc.totalCostWithSolar acc) costWithSolar).

Definition calculateCostSavings (data : list SolarDataPoint)
           (gridImportRate gridExportRate : Q) : CostSavings.t :=
  let acc :=
    fold_left (costStep gridImportRate gridExportRate) data
              (CostAcc.mk 0 0 0 0 0) in
  let totalSavings :=
    sub64 (CostAcc.totalCostWithoutSolar acc)
          (CostAcc.totalCostWithSolar acc) in
  let savingsPercentage :=
    if Qgtb (CostAcc.totalCostWithoutSolar acc) 0
    then mul64 (div64 totalSavings (CostAcc.totalCostWithoutSolar acc)) 100
    else 0 in
  CostSavings.mk
    (CostAcc.totalGridImportCost acc) (CostAcc.totalGridExportCredit acc)
    (CostAcc.totalSolarSavings acc) (CostAcc.totalCostWithoutSolar acc)
    (CostAcc.totalCostWithSolar acc) totalSavings savingsPercentage.

(** *** [calculateStoragePotential], advanced-calculations.ts lines
    191-278 *)

(** The body of the inner [dayPoints.forEach]. *)
Definition storageStep (st : DayStorage.t) (point : SolarDataPoint)
  : DayStorage.t :=
  let excess := orZero (excessExport point) in
  let deficit := orZero (gridImport point) in
  let dailyExcess := add64 (DayStorage.dailyExcess st) excess in
  let dailyDeficit := add64 (DayStorage.dailyDeficit st) deficit in
  let level := DayStorage.dailyStorageLevel st in
  let additional := DayStorage.dailyAdditionalSelfConsumption st in
  let '(level', additional') :=
    if Qgtb excess 0 then (add64 level excess, additional)
    else if Qgtb deficit 0 && Qgtb level 0 then
      let energyFromStorage := Qmin level deficit in
      (sub64 level energyFromStorage, add64 additional energyFromStorage)
    else (level, additional) in
  DayStorage.mk dailyExcess dailyDeficit level' additional'
                (Qmax (DayStorage.maxStorageNeeded st) level').

(** One day: sort by hour, then walk it from an empty store. *)
Definition simulateDay (dayPoints : list SolarDataPoint) : DayStorage.t :=
  fold_left storageStep (JsArray.sort byHour dayPoints) DayStorage.init.

(** The body of [Object.values(dailyData).forEach]. *)
Definition storageDay (acc : StorageAcc.t) (dayPoints : list SolarDataPoint)
  : StorageAcc.t :=
  let st := simulateDay dayPoints in
  StorageAcc.mk
    (add64 (StorageAcc.totalExcessEnergy acc) (DayStorage.dailyExcess st))
    (add64 (StorageAcc.totalDeficitEnergy acc) (DayStorage.dailyDeficit st))
    (add64 (StorageAcc.potentialAdditionalSelfConsumption acc)
           (DayStorage.dailyAdditionalSelfConsumption st))
    (Qmax (StorageAcc.optimalStorageCapacity acc)
          (DayStorage.maxStorageNeeded st)).

Definition calculateStoragePotential (data : list SolarDataPoint)
  : option StoragePotential.t :=
  match groupByDate data with
  | None => None
  | Some dailyData =>
      let acc :=
        fold_left storageDay (JsObject.values dailyData)
                  (StorageAcc.mk 0 0 0 0) in
      let potentialAdditionalSelfConsumption :=
        StorageAcc.potentialAdditionalSelfConsumption acc in
      let totalEnergyDemand :=
        fold_left (fun sum point => add64 sum (energyDemand point)) data 0 in
      let currentSelfConsumed :=
        fold_left
          (fun sum point =>
             let selfConsumed :=
               sub64 (solarProduction point) (orZero (excessExport point)) in
             add64 sum selfConsumed)
          data 0 in
      let currentSelfSufficiency :=
        if Qgtb totalEnergyDemand 0
        then mul64 (div64 currentSelfConsumed totalEnergyDemand) 100
        else 0 in
      let potentialSelfSufficiency :=
        if Qgtb totalEnergyDemand 0
        then mul64 (div64 (add64 currentSelfConsumed
                                 potentialAdditionalSelfConsumption)
                          totalEnergyDemand) 100
        else 0 in
      Some (StoragePotential.mk
              (StorageAcc.totalExcessEnergy acc)
              (StorageAcc.totalDeficitEnergy acc)
              potentialAdditionalSelfConsumption
              (StorageAcc.optimalStorageCapacity acc)
              currentSelfSufficiency
              potentialSelfSufficiency
              (sub64 potentialSelfSufficiency currentSelfSufficiency)
              (if Qgtb (StorageAcc.totalExcessEnergy acc) 0
               then mul64 (div64 potentialAdditionalSelfConsumption
                                 (StorageAcc.totalExcessEnergy acc)) 100
               else 0))
  end.

(** *** [calculatePeakShaving], advanced-calculations.ts lines 287-362 *)

(** [(a, b) => b.energyDemand - a.energyDemand] *)
Definition byDemandDesc (a b : SolarDataPoint) : Q :=
  sub64 (energyDemand b) (energyDemand a).

(** The amount the callback of [.map] takes from the store at [point], or
    [None] when it leaves the record as it is. *)
Definition discharge (peakDemand maxDischargeRate storageLevel : Q)
           (point : SolarDataPoint) : option Q :=
  if Qgtb (energyDemand point) (mul64 peakDemand c07)
     && Qgtb storageLevel 0
  then
    let dischargeNeeded :=
      Qmin3 (sub64 (energyDemand point)
                   (sub64 (solarProduction point)
                          (orZero (excessExport point))))
            maxDischargeRate storageLevel in
    if Qgtb dischargeNeeded 0 then Some dischargeNeeded else None
  else None.

(** [[...dayPoints].map(point => ...)], the callback reading and updating
    [storageLevel] from one record to the next. *)
Fixpoint shave (peakDemand maxDischargeRate storageLevel : Q)
         (dayPoints : list SolarDataPoint) : list SolarDataPoint :=
  match dayPoints with
  | [] => []
  | point :: rest =>
      match discharge peakDemand maxDischargeRate storageLevel point with
      | Some dischargeNeeded =>
          withGridImport point
            (Qmax 0 (sub64 (orZero (gridImport point)) dischargeNeeded))
          :: shave peakDemand maxDischargeRate
                   (sub64 storageLevel dischargeNeeded) rest
      | None => point :: shave peakDemand maxDischargeRate storageLevel rest
      end
  end.

(** One day of the peak-shaving loop.  [peakDemandPoint] is [undefined] for
    an empty array and reading its [energyDemand] throws. *)
Definition shaveDay (storageCapacity maxDischargeRate : Q)
           (dayPoints : list SolarDataPoint) : option DayPeak.t :=
  let dayPoints := JsArray.sort byHour dayPoints in
  match JsArray.sort byDemandDesc dayPoints with
  | [] => None
  | peakDemandPoint :: _ =>
      let peakDemand := energyDemand peakDemandPoint in
      let storageLevel := storageCapacity in
      let modifiedDemand :=
        shave peakDemand maxDischargeRate storageLevel dayPoints in
      match JsArray.maxOf
              (map (fun p => orZero (gridImport p)) modifiedDemand) with
      | Some peakDemandAfterShaving =>
          Some (DayPeak.mk peakDemand peakDemandAfterShaving)
      | None => None
      end
  end.

(** The body of [Object.values(dailyData).forEach]. *)
Definition peakDay (storageCapacity maxDischargeRate : Q)
           (acc : option PeakAcc.t) (dayPoints : list SolarDataPoint)
  : option PeakAcc.t :=
  match acc with
  | None => None
  | Some acc =>
      match shaveDay storageCapacity maxDischargeRate dayPoints with
      | None => None
      | Some d =>
          let peakReduction :=
            sub64 (DayPeak.peakDemand d) (DayPeak.peakDemandAfterShaving d) in
          Some (PeakAcc.mk
                  (add64 (PeakAcc.totalPeakDemand acc) (DayPeak.peakDemand d))
                  (add64 (PeakAcc.totalPeakDemandAfterShaving acc)
                         (DayPeak.peakDemandAfterShaving d))
                  (add64 (PeakAcc.totalPeakReduction acc) peakReduction))
      end
  end.

Definition calculatePeakShaving (data : list SolarDataPoint)
           (storageCapacity maxDischargeRate : Q) : option PeakShaving.t :=
  match groupByDate data with
  | None => None
  | Some dailyData =>
      match fold_left (peakDay storageCapacity maxDischargeRate)
                      (JsObject.values dailyData)
                      (Some (PeakAcc.mk 0 0 0)) with
      | None => None
      | Some acc =>
          let peakReductionPercentage :=
            if Qgtb (PeakAcc.totalPeakDemand acc) 0
            then mul64 (div64 (PeakAcc.totalPeakReduction acc)
                              (PeakAcc.totalPeakDemand acc)) 100
            else 0 in
          Some (PeakShaving.mk
                  (PeakAcc.totalPeakDemand acc)
                  (PeakAcc.totalPeakDemandAfterShaving acc)
                  (PeakAcc.totalPeakReduction acc)
                  peakReductionPercentage
                  storageCapacity
                  (Z.of_nat (List.length (JsObject.keys dailyData))))
      end
  end.

End Double.

(** ** Notions the properties are stated with *)

(** The hour categories of the specification, in its priority order:
    (1) no production when [solarProduction] is zero; else (2)
    self-sufficient when [gridImport] and [excessExport] are both zero; else
    (3) excess production when [excessExport] is positive; else (4) grid
    dependent when [gridImport] is positive. *)
Inductive HourCategory : Type :=
| NoProduction
| SelfSufficient
| ExcessProduction
| GridDependent.

Definition HourCategory_eqb (a b : HourCategory) : bool :=
  match a, b with
  | NoProduction, NoProduction
  | SelfSufficient, SelfSufficient
  | ExcessProduction, ExcessProduction
  | GridDependent, GridDependent => true
  | _, _ => false
  end.

Definition specCategory (p : SolarDataPoint) : option HourCategory :=
  if Qeqb (solarProduction p) 0 then Some NoProduction
  else if Qeqb (orZero (gridImport p)) 0 && Qeqb (orZero (excessExport p)) 0
       then Some SelfSufficient
  else if Qgtb (orZero (excessExport p)) 0 then Some ExcessProduction
  else if Qgtb (orZero (gridImport p)) 0 then Some GridDependent
  else None.

(** The number of records of [data] in category [c]. *)
Definition hoursIn (c : HourCategory) (data : list SolarDataPoint) : Z :=
  Z.of_nat
    (List.length
       (filter (fun p => match specCategory p with
                         | Some c' => HourCategory_eqb c c'
                         | None => false
                         end) data)).

(** A record whose import and export are not negative, as every derived
    record's are. *)
Definition NonNegative (p : SolarDataPoint) : Prop :=
  0 <= orZero (gridImport p) /\ 0 <= orZero (excessExport p).

(** A [months] or [hours] option admits a value: an absent list and an empty
    list admit every value, another list admits its members. *)
Definition admits (l : option (list Z)) (x : Z) : Prop :=
  match l with
  | None => True
  | Some [] => True
  | Some (y :: l') => In x (y :: l')
  end.

Definition admitsb (l : option (list Z)) (x : Z) : bool :=
  match l with
  | None => true
  | Some [] => true
  | Some (y :: l') => JsArray.includes (y :: l') x
  end.

(** The options with the [months] and [hours] lists taken out. *)
Definition otherFilters (f : Filters.t) : Filters.t :=
  Filters.mk (Filters.startDate f) (Filters.endDate f) None None
             (Filters.weekdaysOnly f) (Filters.weekendsOnly f).

(** The records of [data] observed at hour [h], and on date [d]. *)
Definition atHour (h : Z) (data : list SolarDataPoint) : list SolarDataPoint :=
  filter (fun p => (hour p =? h)%Z) data.

Definition onDate (d : string) (data : list SolarDataPoint)
  : list SolarDataPoint :=
  filter (fun p => String.eqb (date p) d) data.

(** The distinct dates of [data], in order of first appearance. *)
Definition dates (data : list SolarDataPoint) : list string :=
  JsSet.ofList (map date data).

(** A day's records in the order the simulations walk them. *)
Definition dayOf (d : string) (data : list SolarDataPoint)
  : list SolarDataPoint :=
  JsArray.sort byHour (onDate d data).

(** ** Concrete inputs *)

(** The four records of the repository's tests, before and after
    derivation. *)
Definition rawData : list SolarDataPoint :=
  [ samplePoint "2025-01-01" 10 5 2;
    samplePoint "2025-01-01" 11 6 3;
    samplePoint "2025-01-01" 20 0 4;
    samplePoint "2025-01-02" 10 (45 # 10) (25 # 10) ].

Definition testData : list SolarDataPoint :=
  map calculateDerivedMetrics rawData.

(** A day whose only record has a negative demand. *)
Definition negativeDemand : list SolarDataPoint :=
  [rawPoint "2025-01-01" 10 0 (-1) None None].

(** ** Auxiliary notions of the proofs *)

(** The four summed quantities of a record and of a daily aggregate. *)
Inductive Quantity : Type :=
| Production
| Demand
| Import
| Export.

Definition ofPoint (q : Quantity) (p : SolarDataPoint) : Q :=
  match q with
  | Production => solarProduction p
  | Demand => energyDemand p
  | Import => orZero (gridImport p)
  | Export => orZero (excessExport p)
  end.

Definition ofDaily (q : Quantity) (d : Daily.t) : Q :=
  match q with
  | Production => Daily.solarProduction d
  | Demand => Daily.energyDemand d
  | Import => Daily.gridImport d
  | Export => Daily.excessExport d
  end.

Definition ofSummaryAcc (q : Quantity) (a : SummaryAcc.t) : Q :=
  match q with
  | Production => SummaryAcc.totalSolarProduction a
  | Demand => SummaryAcc.totalEnergyDemand a
  | Import => SummaryAcc.totalGridImport a
  | Export => SummaryAcc.totalExcessExport a
  end.

Definition ofHourly (q : Quantity) (e : Hourly.t) : Q :=
  match q with
  | Production => Hourly.solarProduction e
  | Demand => Hourly.energyDemand e
  | Import => Hourly.gridImport e
  | Export => Hourly.excessExport e
  end.

(** A map with one entry per key of [ks], in the order of [ks]. *)
Definition table {K V : Type} (F : K -> V) (ks : list K) : JsMap.t :=
  map (fun k => (k, F k)) ks.

(** The running sum of quantity [q] and the count at hour [h], as the loop
    builds them. *)
Definition hourSum (q : Quantity) (h : Z) (data : list SolarDataPoint) : Q :=
  fold_left (fun a p => a + ofPoint q p) (atHour h data) 0.

Definition hourCount (data : list SolarDataPoint) (h : Z) : Z :=
  Z.of_nat (List.length (atHour h data)).

Definition hourEntry (data : list SolarDataPoint) (h : Z) : Hourly.t :=
  Hourly.mk h (hourSum Production h data) (hourSum Demand h data) 0
            (hourSum Import h data) (hourSum Export h data).

(** The divisor of the averaging loop: the count, or 1 for an hour no
    record has. *)
Definition hourDivisor (data : list SolarDataPoint) (h : Z) : Z :=
  if (hourCount data h =? 0)%Z then 1%Z else hourCount data h.

(** What the loop of [calculateCostSavings] keeps constant on derived
    records: savings minus the two credited parts. *)
Definition costGap (acc : CostAcc.t) : Q :=
  CostAcc.totalCostWithoutSolar acc - CostAcc.totalCostWithSolar acc
  - (CostAcc.totalSolarSavings acc + CostAcc.totalGridExportCredit acc).

(** The counters of the accumulator, in the order of [HourCategory]. *)
Definition counter (c : HourCategory) (acc : SufficiencyAcc.t) : Z :=
  match c with
  | NoProduction => SufficiencyAcc.noProductionHours acc
  | SelfSufficient => SufficiencyAcc.selfSufficientHours acc
  | ExcessProduction => SufficiencyAcc.excessProductionHours acc
  | GridDependent => SufficiencyAcc.gridDependentHours acc
  end.

(** The options [{ months: [] }], and a collection of one record. *)
Definition emptyMonths : Filters.t :=
  Filters.mk None None (Some []) None None None.

Definition oneRecord : list SolarDataPoint :=
  [samplePoint "2025-01-01" 10 5 2].

(** A record with production, no import and a negative [excessExport]. *)
Definition negativeExport : list SolarDataPoint :=
  [rawPoint "2025-01-01" 10 5 2 None (Some (-1))].

(** ** Further notions the properties are stated with *)

(** The solar energy a record consumes on site. *)
Definition selfConsumed (p : SolarDataPoint) : Q :=
  solarProduction p - orZero (excessExport p).

(** A record whose two measured quantities are not negative. *)
Definition Measured (p : SolarDataPoint) : Prop :=
  0 <= solarProduction p /\ 0 <= energyDemand p.

(** *** Grouping loops

    The loops of [aggregateByDay] and [aggregateByMonth] have one shape:
    create the entry of a new key from the record, then add the record to
    the entry of its key. *)
Section KeyedLoop.
Context {V : Type}.
Variable key : SolarDataPoint -> string.
Variable create : SolarDataPoint -> V.
Variable add : V -> SolarDataPoint -> V.
Variable dflt : V.

Definition keyedStep (m : JsMap.t (K := string) (V := V))
           (point : SolarDataPoint) : JsMap.t :=
  let m :=
    if negb (JsMap.has String.eqb m (key point))
    then JsMap.set String.eqb m (key point) (create point)
    else m in
  match JsMap.get String.eqb m (key point) with
  | Some entry => JsMap.set String.eqb m (key point) (add entry point)
  | None => m
  end.

(** The records of [data] with key [k], the distinct keys in order of first
    appearance, and the entry the loop ends with for [k]. *)
Definition withKey (k : string) (data : list SolarDataPoint)
  : list SolarDataPoint :=
  filter (fun p => String.eqb (key p) k) data.

Definition keysOf (data : list SolarDataPoint) : list string :=
  JsSet.ofList (map key data).

Definition entryOf (data : list SolarDataPoint) (k : string) : V :=
  match withKey k data with
  | [] => dflt
  | first :: _ => fold_left add (withKey k data) (create first)
  end.
End KeyedLoop.

(** What the two loops add to an entry. *)
Definition dayCreate (point : SolarDataPoint) : Daily.t :=
  Daily.mk (date point) 0 0 0 0 0.

Definition dayAdd (daily : Daily.t) (point : SolarDataPoint) : Daily.t :=
  Daily.mk (Daily.date daily)
           (Daily.solarProduction daily + solarProduction point)
           (Daily.energyDemand daily + energyDemand point)
           (Daily.netEnergy daily)
           (Daily.gridImport daily + orZero (gridImport point))
           (Daily.excessExport daily + orZero (excessExport point)).

Definition monthCreate (point : SolarDataPoint) : Monthly.t :=
  Monthly.mk (year point) (month point) (monthName point) 0 0 0 0 0 0 0.

Definition monthAdd (monthly : Monthly.t) (point : SolarDataPoint)
  : Monthly.t :=
  Monthly.mk (Monthly.year monthly) (Monthly.month monthly)
             (Monthly.monthName monthly)
             (Monthly.solarProduction monthly + solarProduction point)
             (Monthly.energyDemand monthly + energyDemand point)
             (Monthly.netEnergy monthly)
             (Monthly.gridImport monthly + orZero (gridImport point))
             (Monthly.excessExport monthly + orZero (excessExport point))
             (Monthly.selfConsumptionPercentage monthly)
             (Monthly.gridDependencyPercentage monthly).

(** The records of one month of one year. *)
Definition inMonth (y m : Z) (data : list SolarDataPoint)
  : list SolarDataPoint :=
  filter (fun p => (year p =? y)%Z && (month p =? m)%Z) data.

(** The order of the monthly aggregates: by year, then by month. *)
Definition yearMonthLe (a b : Monthly.t) : Prop :=
  (Monthly.year a < Monthly.year b)%Z \/
  (Monthly.year a = Monthly.year b /\
   (Monthly.month a <= Monthly.month b)%Z).

Definition ofMonthly (q : Quantity) (m : Monthly.t) : Q :=
  match q with
  | Production => Monthly.solarProduction m
  | Demand => Monthly.energyDemand m
  | Import => Monthly.gridImport m
  | Export => Monthly.excessExport m
  end.

(** The part of a month key before the separating dash: the first
    character, a digit or a sign, and what follows up to the next dash. *)
Fixpoint untilDash (s : string) : string :=
  match s with
  | EmptyString => EmptyString
  | String c rest =>
      if Ascii.eqb c "-" then EmptyString else String c (untilDash rest)
  end.

Definition keyYear (s : string) : string :=
  match s with
  | EmptyString => EmptyString
  | String c rest => String c (untilDash rest)
  end.

Fixpoint dashFree (s : string) : bool :=
  match s with
  | EmptyString => true
  | String c rest => negb (Ascii.eqb c "-") && dashFree rest
  end.

(** The entries of [aggregateByDay] and of [aggregateByMonth] before the
    final sort, key by key. *)
Definition dayEntries (data : list SolarDataPoint) : list Daily.t :=
  map (fun d => setNetEnergy
                  (entryOf date dayCreate dayAdd
                           (dayCreate (samplePoint "" 0 0 0)) data d))
      (dates data).

Definition monthEntries (data : list SolarDataPoint) : list Monthly.t :=
  map (fun k => monthDerive
                  (entryOf monthKey monthCreate monthAdd
                           (monthCreate (samplePoint "" 0 0 0)) data k))
      (keysOf monthKey data).

Definition yearMonth (m : Monthly.t) : Z * Z :=
  (Monthly.year m, Monthly.month m).

(** ** Helpers, [src/lib/utils/helpers.ts] *)

(** [getSeason] and [getTimeOfDay]: the [if]s in turn. *)
Definition getSeason (month : Z) : string :=
  if ((3 <=? month) && (month <=? 5))%Z then "Spring"
  else if ((6 <=? month) && (month <=? 8))%Z then "Summer"
  else if ((9 <=? month) && (month <=? 11))%Z then "Fall"
  else "Winter".

Definition getTimeOfDay (hour : Z) : string :=
  if ((5 <=? hour) && (hour <? 12))%Z then "Morning"
  else if ((12 <=? hour) && (hour <? 17))%Z then "Afternoon"
  else if ((17 <=? hour) && (hour <? 21))%Z then "Evening"
  else "Night".

(** The three characters [parseCSV] and [downloadCSV] look for: the double
    quote, the comma and the backslash. *)
Definition quoteChar : ascii := ascii_of_nat 34.
Definition commaChar : ascii := ascii_of_nat 44.
Definition backslashChar : ascii := ascii_of_nat 92.

(** The state of the loop over one line in [parseCSV]. *)
Module Line.
Record t := mk {
  result : list string;
  inQuote : bool;
  currentValue : string
}.
End Line.

(** One turn of the loop at [char], with [previous] the character
    [line[i-1]], absent at [i = 0]. *)
Definition lineStep (previous : option ascii) (char : ascii) (st : Line.t)
  : Line.t :=
  if Ascii.eqb char quoteChar
     && match previous with
        | None => true
        | Some c => negb (Ascii.eqb c backslashChar)
        end
  then Line.mk (Line.result st) (negb (Line.inQuote st))
               (Line.currentValue st)
  else if Ascii.eqb char commaChar && negb (Line.inQuote st)
  then Line.mk (Line.result st ++ [Line.currentValue st]) (Line.inQuote st)
               EmptyString
  else Line.mk (Line.result st) (Line.inQuote st)
               (Line.currentValue st ++ String char EmptyString).

Fixpoint lineLoop (previous : option ascii) (line : string) (st : Line.t)
  : Line.t :=
  match line with
  | EmptyString => st
  | String char rest => lineLoop (Some char) rest (lineStep previous char st)
  end.

(** The callback of [lines.map] in [parseCSV]: the cells of one line. *)
Definition parseLine (line : string) : list string :=
  let st := lineLoop None line (Line.mk [] false EmptyString) in
  Line.result st ++ [Line.currentValue st].

(** [value.includes(c)] for a character [c]. *)
Fixpoint includesChar (c : ascii) (value : string) : bool :=
  match value with
  | EmptyString => false
  | String d rest => Ascii.eqb d c || includesChar c rest
  end.

(** The text [downloadCSV] writes for a string value of a row, and the
    line it writes for a row of string values: [cells.join(',')]. *)
Definition csvCell (value : string) : string :=
  if includesChar commaChar value
  then String quoteChar (value ++ String quoteChar EmptyString)
  else value.

Definition csvRow (cells : list string) : string :=
  String.concat (String commaChar EmptyString) (map csvCell cells).

(** ** Filter options, [src/lib/data/constants.ts] *)

(** [Array.from({ length }, (_, i) => f(i))] *)
Definition arrayFrom (length : nat) (f : Z -> Z) : list Z :=
  map (fun i => f (Z.of_nat i)) (seq 0 length).

Module SeasonOption.
Record t := mk { label : string; value : string; months : list Z }.
End SeasonOption.

Definition seasonOptions : list SeasonOption.t :=
  [ SeasonOption.mk "Winter" "winter" [12; 1; 2];
    SeasonOption.mk "Spring" "spring" [3; 4; 5];
    SeasonOption.mk "Summer" "summer" [6; 7; 8];
    SeasonOption.mk "Fall" "fall" [9; 10; 11] ]%Z.

Module HourRangeOption.
Record t := mk { label : string; value : string; hours : list Z }.
End HourRangeOption.

Definition hourRangeOptions : list HourRangeOption.t :=
  [ HourRangeOption.mk "All Hours" "all" (arrayFrom 24 (fun i => i));
    HourRangeOption.mk "Daytime (6am-6pm)" "daytime"
      (arrayFrom 13 (fun i => i + 6)%Z);
    HourRangeOption.mk "Nighttime (6pm-6am)" "nighttime"
      (arrayFrom 6 (fun i => i + 18)%Z ++ arrayFrom 6 (fun i => i));
    HourRangeOption.mk "Morning (5am-12pm)" "morning"
      (arrayFrom 7 (fun i => i + 5)%Z);
    HourRangeOption.mk "Afternoon (12pm-5pm)" "afternoon"
      (arrayFrom 5 (fun i => i + 12)%Z);
    HourRangeOption.mk "Evening (5pm-9pm)" "evening"
      (arrayFrom 4 (fun i => i + 17)%Z);
    HourRangeOption.mk "Night (9pm-5am)" "night"
      (arrayFrom 3 (fun i => i + 21)%Z ++ arrayFrom 5 (fun i => i)) ].

(** ** The filter panel, [src/components/filter-panel.tsx] *)

(** The state of the panel that [applyFilters] reads. *)
Module Panel.
Record t := mk {
  months : list Z;
  dayType : string;
  hourRange : string;
  startDate : string;
  endDate : string
}.

(** The initial state, and the state [resetFilters] sets. *)
Definition initial : t := mk [] "all" "all" EmptyString EmptyString.
End Panel.

(** [s || undefined] on a string. *)
Definition orUndefined (s : string) : option string :=
  match s with
  | EmptyString => None
  | _ => Some s
  end.

(** [l.length > 0 ? l : undefined] *)
Definition nonEmptyOrUndefined (l : list Z) : option (list Z) :=
  if (0 <? Z.of_nat (List.length l))%Z then Some l else None.

(** [hourRangeOptions.find(h => h.value === hourRange)?.hours || []] *)
Definition selectedHours (hourRange : string) : list Z :=
  match find (fun h => String.eqb (HourRangeOption.value h) hourRange)
             hourRangeOptions with
  | Some h => HourRangeOption.hours h
  | None => []
  end.

(** The options [applyFilters] hands to [onFilterChange]. *)
Definition applyFilters (state : Panel.t) : Filters.t :=
  let hours := selectedHours (Panel.hourRange state) in
  let weekdaysOnly := String.eqb (Panel.dayType state) "weekdays" in
  let weekendsOnly := String.eqb (Panel.dayType state) "weekends" in
  Filters.mk (orUndefined (Panel.startDate state))
             (orUndefined (Panel.endDate state))
             (nonEmptyOrUndefined (Panel.months state))
             (nonEmptyOrUndefined hours)
             (Some weekdaysOnly) (Some weekendsOnly).

(** The last character of a string. *)
Fixpoint lastChar (s : string) : option ascii :=
  match s with
  | EmptyString => None
  | String c EmptyString => Some c
  | String _ rest => lastChar rest
  end.

(** A value [parseCSV] reads back as [downloadCSV] wrote it: it holds no
    double quote and, when it holds a comma, does not end in a backslash. *)
Definition Plain (value : string) : Prop :=
  includesChar quoteChar value = false /\
  (includesChar commaChar value = true ->
   lastChar value <> Some backslashChar).

(** The character before the position that follows [s], when [previous]
    is the character before [s]. *)
Definition lastOr (previous : option ascii) (s : string) : option ascii :=
  match lastChar s with
  | Some c => Some c
  | None => previous
  end.

(** A value that ends in a backslash and holds a comma, which
    [downloadCSV] therefore quotes. *)
Definition backslashValue : string :=
  String "a" (String commaChar (String backslashChar EmptyString)).

(** A row of three string values: a date, a text with a comma, and an
    empty text. *)
Definition sampleRow : list string :=
  ["2025-01-01"; "Monday, 1 January"; EmptyString]%string.

(** ** Notions the properties of the binary64 calculations are stated
    with *)

(** A collection none of whose dates names a member of
    [Object.prototype]. *)
Definition PlainDates (data : list SolarDataPoint) : Prop :=
  Forall (fun p => JsObject.inherits (date p) = false) data.

(** The distinct dates in the order [Object.values] enumerates the days:
    first appearance, but for dates that are array indices. *)
Definition dayOrder (data : list SolarDataPoint) : list string :=
  JsObject.order (dates data).

(** A record that does not both export and import, as the record model
    has it. *)
Definition ExportOrImport (p : SolarDataPoint) : Prop :=
  ~ (0 < orZero (excessExport p) /\ 0 < orZero (gridImport p)).

(** The states a day's storage walk goes through, one after each
    record. *)
Fixpoint walk (st : DayStorage.t) (pts : list SolarDataPoint)
  : list DayStorage.t :=
  match pts with
  | [] => []
  | p :: rest =>
      Double.storageStep st p :: walk (Double.storageStep st p) rest
  end.

(** The greatest storage level a day reaches, and the energy the day
    discharges. *)
Definition dayMaxLevel (pts : list SolarDataPoint) : Q :=
  QmaxList 0 (map DayStorage.dailyStorageLevel (walk DayStorage.init pts)).

(** The multiples of [2 ^ -k], and the greatest magnitude at which every
    one of them is a double. *)
Definition OnGrid (k : Z) (x : Q) : Prop :=
  exists n : Z, x == inject_Z n * 2 ^ (- k).

Definition gridBound (k : Z) : Q := 2 ^ (53 - k).



(** A record with binary64 measurements, derived in binary64. *)
Definition doublePoint (d : string) (h : Z) (s e : Q) : SolarDataPoint :=
  Double.calculateDerivedMetrics (samplePoint d h (literal s) (literal e)).


(** The peak before shaving and the peak after of a day, as
    [Double.shaveDay] gives them. *)
Definition dayPeakDemand (cap rate : Q) (pts : list SolarDataPoint) : Q :=
  match Double.shaveDay cap rate pts with
  | Some d => DayPeak.peakDemand d
  | None => 0
  end.

Definition dayPeakAfter (cap rate : Q) (pts : list SolarDataPoint) : Q :=
  match Double.shaveDay cap rate pts with
  | Some d => DayPeak.peakDemandAfterShaving d
  | None => 0
  end.

(** Records whose demands are doubles. *)
Definition DoubleDemands (data : list SolarDataPoint) : Prop :=
  Forall (fun p => Binary64 (energyDemand p)) data.

(** One day with a peak of 90 kWh and a demand of 63 kWh, which is above
    the double [90 * 0.7]. *)
Definition thresholdDay : list SolarDataPoint :=
  [ doublePoint "2025-01-01" 10 80 90;
    doublePoint "2025-01-01" 11 0 63 ].

(** *** The daily aggregation in binary64 *)

(** What the loop of [Double.aggregateByDay] adds to an entry. *)
Definition dayAdd64 (daily : Daily.t) (point : SolarDataPoint) : Daily.t :=
  Daily.mk (Daily.date daily)
           (add64 (Daily.solarProduction daily) (solarProduction point))
           (add64 (Daily.energyDemand daily) (energyDemand point))
           (Daily.netEnergy daily)
           (add64 (Daily.gridImport daily) (orZero (gridImport point)))
           (add64 (Daily.excessExport daily) (orZero (excessExport point))).

(** The entries of [Double.aggregateByDay] before the final sort, date by
    date. *)
Definition dayEntries64 (data : list SolarDataPoint) : list Daily.t :=
  map (fun d => Double.setNetEnergy
                  (entryOf date dayCreate dayAdd64
                           (dayCreate (samplePoint "" 0 0 0)) data d))
      (dates data).

(** Records on which no addition of the totals rounds: the four
    quantities are non-negative multiples of [2 ^ -k], and their totals
    stay within 53 bits. *)
Definition DyadicRecords (k : Z) (data : list SolarDataPoint) : Prop :=
  (0 <= k <= 1074)%Z /\
  (forall q p, In p data -> OnGrid k (ofPoint q p) /\ 0 <= ofPoint q p) /\
  (forall q, sumOf (ofPoint q) data <= gridBound k).

(** The order by time of two entries whose dates both have one. *)
Definition timeLe (getTime : string -> option Z) (a b : Daily.t) : Prop :=
  match getTime (Daily.date a), getTime (Daily.date b) with
  | Some s, Some t => (s <= t)%Z
  | _, _ => False
  end.

(** A date parser for the examples: an ISO date [YYYY-MM-DD] is given the
    number its eight digits spell, which orders the dates as their times
    do, and any other string has no time. *)
Definition isoTime (s : string) : option Z :=
  match s with
  | String y1 (String y2 (String y3 (String y4 (String "-"
      (String m1 (String m2 (String "-"
        (String d1 (String d2 EmptyString))))))))) =>
      JsObject.decimal
        0 (String y1 (String y2 (String y3 (String y4
             (String m1 (String m2 (String d1 (String d2 EmptyString))))))))
  | _ => None
  end.

(** One record of 0.1 kWh on a first day, records of 0.2 and 0.3 kWh on a
    second, nothing consumed. *)
Definition splitDays : list SolarDataPoint :=
  [ doublePoint "2025-01-01" 10 (1 # 10) 0;
    doublePoint "2025-01-02" 10 (2 # 10) 0;
    doublePoint "2025-01-02" 11 (3 # 10) 0 ].

(** *** Cost savings in binary64 *)

(** A record derived in binary64. *)
Definition Derived64 (p : SolarDataPoint) : Prop :=
  orZero (gridImport p)
  == Qmax 0 (sub64 (energyDemand p) (solarProduction p)) /\
  orZero (excessExport p)
  == Qmax 0 (sub64 (solarProduction p) (energyDemand p)).

(** Records and rates on which no operation of [calculateCostSavings]
    rounds: the records are as in [DyadicRecords], the rates are
    non-negative multiples of [2 ^ -j], and the costs stay within 53
    bits. *)
Definition DyadicCosts (k j : Z) (data : list SolarDataPoint)
           (gridImportRate gridExportRate : Q) : Prop :=
  DyadicRecords k data /\
  (0 <= j)%Z /\ (k + j <= 1074)%Z /\
  (OnGrid j gridImportRate /\ 0 <= gridImportRate) /\
  (OnGrid j gridExportRate /\ 0 <= gridExportRate) /\
  (sumOf solarProduction data + sumOf energyDemand data)
  * (gridImportRate + gridExportRate) <= gridBound (k + j).

(** One record producing 0.1 kWh against a demand of 0.3 kWh. *)
Definition costRecord : list SolarDataPoint :=
  [doublePoint "2025-01-01" 10 (1 # 10) (3 # 10)].

(** Three days, the second with a date that is no date. *)
Definition unparsedDay : list SolarDataPoint :=
  [ samplePoint "2025-01-02" 10 1 1;
    samplePoint "x" 10 1 1;
    samplePoint "2025-01-01" 10 1 1 ].
(** * Part II: properties *)

(** ** Numbers *)

Lemma Qltb_true (x y : Q) : Qltb x y = true <-> x < y.
Proof.
  unfold Qltb. rewrite Qlt_alt.
  destruct (x ?= y); split; congruence.
Qed.

Lemma Qltb_false (x y : Q) : Qltb x y = false <-> y <= x.
Proof.
  split; intro H.
  - apply Qnot_lt_le. intro L. apply Qltb_true in L. congruence.
  - destruct (Qltb x y) eqn:E; [|reflexivity].
    apply Qltb_true in E. exfalso. eapply Qlt_not_le; eauto.
Qed.

Lemma Qgtb_true (x y : Q) : Qgtb x y = true <-> y < x.
Proof. apply Qltb_true. Qed.

Lemma Qgtb_false (x y : Q) : Qgtb x y = false <-> x <= y.
Proof. apply Qltb_false. Qed.

Lemma Qeqb_true (x y : Q) : Qeqb x y = true <-> x == y.
Proof. apply Qeq_bool_iff. Qed.

Lemma Qeqb_false (x y : Q) : Qeqb x y = false <-> ~ x == y.
Proof.
  unfold Qeqb. split; intro H.
  - intro E. apply Qeq_bool_iff in E. congruence.
  - destruct (Qeq_bool x y) eqn:E; [|reflexivity].
    apply Qeq_bool_iff in E. contradiction.
Qed.

Lemma Qmax_cases (x y : Q) :
  (x < y /\ Qmax x y == y) \/ (y <= x /\ Qmax x y == x).
Proof. apply Q.max_spec. Qed.

Lemma Qmin_cases (x y : Q) :
  (x < y /\ Qmin x y == x) \/ (y <= x /\ Qmin x y == y).
Proof. apply Q.min_spec. Qed.


(** Case analysis on the boolean tests and on [Qmax]/[Qmin], leaving linear
    goals over [Q]. *)
Ltac qtest x y :=
  let E := fresh "E" in
  destruct (Qltb x y) eqn:E;
  [apply Qltb_true in E | apply Qltb_false in E].

Ltac qmax x y :=
  let H := fresh "Hmax" in
  destruct (Qmax_cases x y) as [[? H] | [? H]].

Ltac qmin x y :=
  let H := fresh "Hmin" in
  destruct (Qmin_cases x y) as [[? H] | [? H]].

(** ** Record model: proofs *)

Lemma Qabs_of_neg (x : Q) : x < 0 -> Qabs x == - x.
Proof. intro H. apply Qabs_neg. lra. Qed.

Lemma derived_fields (p : SolarDataPoint) :
  let q := calculateDerivedMetrics p in
  exists n g e,
    netEnergy q = Some n /\ gridImport q = Some g /\ excessExport q = Some e /\
    n == solarProduction p - energyDemand p /\
    g == Qmax 0 (- n) /\ e == Qmax 0 n.
Proof.
  cbn zeta. unfold calculateDerivedMetrics, withDerived, Qgtb.
  cbn [netEnergy gridImport excessExport].
  set (n := solarProduction p - energyDemand p).
  eexists _, _, _. repeat split; try reflexivity.
  - qtest n 0.
    + pose proof (Qabs_of_neg _ E). qmax 0 (- n); lra.
    + qmax 0 (- n); lra.
  - qtest 0 n; qmax 0 n; lra.
Qed.

Lemma calculateDerivedMetrics_Derived (p : SolarDataPoint) :
  Derived (calculateDerivedMetrics p).
Proof.
  destruct (derived_fields p) as (n & g & e & Hn & Hg & He & En & Eg & Ee).
  cbn zeta in *. unfold Derived. rewrite Hg, He. cbn [orZero].
  replace (energyDemand (calculateDerivedMetrics p)) with (energyDemand p)
    by reflexivity.
  replace (solarProduction (calculateDerivedMetrics p))
    with (solarProduction p) by reflexivity.
  split.
  - rewrite Eg. qmax 0 (- n); qmax 0 (energyDemand p - solarProduction p); lra.
  - rewrite Ee. qmax 0 n; qmax 0 (solarProduction p - energyDemand p); lra.
Qed.

(** C1. For every record, [calculateDerivedMetrics] returns the record with
    [netEnergy = solarProduction - energyDemand],
    [gridImport = max(0, -netEnergy)] and [excessExport = max(0, netEnergy)],
    every measured field unchanged; hence at most one of [gridImport],
    [excessExport] is nonzero, and both are zero exactly when
    [solarProduction] equals [energyDemand]. *)
Theorem calculateDerivedMetrics_correct (p : SolarDataPoint) :
  let q := calculateDerivedMetrics p in
  sameMeasured q p /\
  exists n g e,
    netEnergy q = Some n /\ gridImport q = Some g /\ excessExport q = Some e /\
    n == solarProduction p - energyDemand p /\
    g == Qmax 0 (- n) /\
    e == Qmax 0 n /\
    ((~ g == 0 /\ e == 0) \/ (g == 0 /\ ~ e == 0) \/ (g == 0 /\ e == 0)) /\
    ((g == 0 /\ e == 0) <-> solarProduction p == energyDemand p).
Proof.
  cbn zeta. split.
  - unfold sameMeasured. repeat split; reflexivity.
  - destruct (derived_fields p) as (n & g & e & Hn & Hg & He & En & Eg & Ee).
    cbn zeta in *. exists n, g, e.
    repeat match goal with |- _ /\ _ => split end; try assumption.
    + destruct (Q_dec n 0) as [[L | G] | Z0].
      * left. split; qmax 0 (- n); qmax 0 n; lra.
      * right; left. split; qmax 0 (- n); qmax 0 n; lra.
      * right; right. split; qmax 0 (- n); qmax 0 n; lra.
    + qmax 0 (- n); qmax 0 n; lra.
Qed.

(** Derivation reads only the two measured quantities: deriving twice gives
    what deriving once gives. *)
Lemma calculateDerivedMetrics_idempotent (p : SolarDataPoint) :
  calculateDerivedMetrics (calculateDerivedMetrics p)
  = calculateDerivedMetrics p.
Proof. reflexivity. Qed.

(** ** Sums and accumulating loops *)

Lemma fold_left_sum {A : Type} (f : A -> Q) (l : list A) (a : Q) :
  fold_left (fun acc x => acc + f x) l a == a + sumOf f l.
Proof.
  revert a. induction l as [|x l IH]; intro a; cbn [fold_left].
  - unfold sumOf; cbn. ring.
  - rewrite IH. unfold sumOf, Qsum; cbn [map fold_right]. ring.
Qed.

Lemma sumOf_nil {A : Type} (f : A -> Q) : sumOf f [] = 0.
Proof. reflexivity. Qed.

Lemma sumOf_cons {A : Type} (f : A -> Q) (x : A) (l : list A) :
  sumOf f (x :: l) = f x + sumOf f l.
Proof. reflexivity. Qed.

Lemma sumOf_app {A : Type} (f : A -> Q) (l1 l2 : list A) :
  sumOf f (l1 ++ l2) == sumOf f l1 + sumOf f l2.
Proof.
  induction l1 as [|x l1 IH]; cbn [app].
  - rewrite sumOf_nil. ring.
  - rewrite !sumOf_cons, IH. ring.
Qed.

Lemma sumOf_perm {A : Type} (f : A -> Q) (l1 l2 : list A) :
  Permutation l1 l2 -> sumOf f l1 == sumOf f l2.
Proof.
  induction 1 as [| x l l' _ IH | x y l | l l' l'' _ IH1 _ IH2].
  - reflexivity.
  - rewrite !sumOf_cons, IH. reflexivity.
  - rewrite !sumOf_cons. ring.
  - now rewrite IH1.
Qed.

Lemma sumOf_ext {A : Type} (f g : A -> Q) (l : list A) :
  (forall x, In x l -> f x == g x) -> sumOf f l == sumOf g l.
Proof.
  induction l as [|x l IH]; intro H.
  - reflexivity.
  - assert (E1 : f x == g x) by (apply H; cbn; auto).
    assert (E2 : sumOf f l == sumOf g l)
      by (apply IH; intros; apply H; cbn; auto).
    rewrite !sumOf_cons. lra.
Qed.

Lemma sumOf_map {A B : Type} (f : B -> Q) (g : A -> B) (l : list A) :
  sumOf f (map g l) = sumOf (fun x => f (g x)) l.
Proof. unfold sumOf. now rewrite map_map. Qed.

Lemma sumOf_nonneg {A : Type} (f : A -> Q) (l : list A) :
  (forall x, In x l -> 0 <= f x) -> 0 <= sumOf f l.
Proof.
  induction l as [|x l IH]; intro H.
  - rewrite sumOf_nil. lra.
  - rewrite sumOf_cons.
    assert (0 <= f x) by (apply H; cbn; auto).
    assert (0 <= sumOf f l) by (apply IH; intros; apply H; cbn; auto).
    lra.
Qed.

Lemma sumOf_le {A : Type} (f g : A -> Q) (l : list A) :
  (forall x, In x l -> f x <= g x) -> sumOf f l <= sumOf g l.
Proof.
  induction l as [|x l IH]; intro H.
  - rewrite !sumOf_nil. lra.
  - rewrite !sumOf_cons.
    assert (f x <= g x) by (apply H; cbn; auto).
    assert (sumOf f l <= sumOf g l) by (apply IH; intros; apply H; cbn; auto).
    lra.
Qed.

(** What [Derived] says without [Qmax]. *)
Lemma Derived_balance (p : SolarDataPoint) :
  Derived p ->
  orZero (gridImport p) - orZero (excessExport p)
  == energyDemand p - solarProduction p.
Proof.
  intros [Hg He].
  qmax 0 (energyDemand p - solarProduction p);
    qmax 0 (solarProduction p - energyDemand p); lra.
Qed.

Lemma Derived_NonNegative (p : SolarDataPoint) : Derived p -> NonNegative p.
Proof.
  intros [Hg He]. unfold NonNegative.
  qmax 0 (energyDemand p - solarProduction p);
    qmax 0 (solarProduction p - energyDemand p); lra.
Qed.

(** ** The filter engine *)

Lemma includes_In (l : list Z) (x : Z) :
  JsArray.includes l x = true <-> In x l.
Proof.
  unfold JsArray.includes. rewrite existsb_exists. split.
  - intros (y & Hy & E). apply Z.eqb_eq in E. now subst.
  - intro H. exists x. split; [assumption | apply Z.eqb_refl].
Qed.

Lemma admitsb_admits (l : option (list Z)) (x : Z) :
  admitsb l x = true <-> admits l x.
Proof.
  destruct l as [[|y l]|]; cbn [admitsb admits]; try tauto.
  apply includes_In.
Qed.

(** The callback splits into the two list constraints and the rest. *)
Lemma filterPredicate_split (f : Filters.t) (p : SolarDataPoint) :
  filterPredicate f p =
    admitsb (Filters.months f) (month p)
    && admitsb (Filters.hours f) (hour p)
    && filterPredicate (otherFilters f) p.
Proof.
  unfold filterPredicate, otherFilters.
  cbn [Filters.startDate Filters.endDate Filters.months Filters.hours
       Filters.weekdaysOnly Filters.weekendsOnly].
  destruct (match truthyString (Filters.startDate f) with
            | Some s => String.ltb (date p) s
            | None => false
            end);
    [now rewrite andb_false_r|].
  destruct (match truthyString (Filters.endDate f) with
            | Some s => String.ltb s (date p)
            | None => false
            end);
    [now rewrite andb_false_r|].
  destruct (Filters.months f) as [[|m ms]|], (Filters.hours f) as [[|h hs]|];
    cbn [admitsb List.length Z.of_nat Z.ltb Z.compare andb negb];
    repeat match goal with
           | |- context [JsArray.includes ?l ?x] =>
               destruct (JsArray.includes l x)
           end;
    cbn [andb negb]; try reflexivity;
    now rewrite ?andb_true_l.
Qed.

(** The counterexample to C3 as stated: with [months: []] supplied, a record
    whose month is no member of the list is kept. *)
Lemma filterData_empty_months_counterexample :
  filterData oneRecord emptyMonths = oneRecord /\
  filterData oneRecord emptyMonths <> [] /\
  exists p ms,
    Filters.months emptyMonths = Some ms /\
    In p (filterData oneRecord emptyMonths) /\ ~ In (month p) ms.
Proof.
  split; [reflexivity|]. split; [discriminate|].
  exists (samplePoint "2025-01-01" 10 5 2), [].
  split; [reflexivity|]. split; [now left | intros []].
Qed.

(** C3 (amended). For every record collection and options, [filterData]
    keeps, in their order, exactly the records that pass every supplied
    predicate: the month is a member of a supplied non-empty [months] list,
    the hour a member of a supplied non-empty [hours] list, and the date
    range and weekday/weekend predicates hold.  An absent list and a
    supplied empty list impose no constraint. *)
Theorem filterData_months_hours
        (data : list SolarDataPoint) (filters : Filters.t) :
  filterData data filters =
    filter (fun p => admitsb (Filters.months filters) (month p)
                     && admitsb (Filters.hours filters) (hour p)
                     && filterPredicate (otherFilters filters) p) data
  /\ (forall p,
        In p (filterData data filters) <->
        In p data /\
        admits (Filters.months filters) (month p) /\
        admits (Filters.hours filters) (hour p) /\
        filterPredicate (otherFilters filters) p = true)
  /\ (forall y l x, admits (Some []) x /\ admits None x /\
                    (admits (Some (y :: l)) x <-> In x (y :: l))).
Proof.
  split; [|split].
  - unfold filterData. apply filter_ext. intro p. apply filterPredicate_split.
  - intro p. unfold filterData. rewrite filter_In, filterPredicate_split.
    rewrite !andb_true_iff, !admitsb_admits. tauto.
  - intros y l x. split; [exact I|]. split; [exact I|]. reflexivity.
Qed.

(** With no option set every record is kept, in order; with both
    [weekdaysOnly] and [weekendsOnly] set none is. *)
Lemma filterData_no_options (data : list SolarDataPoint) :
  filterData data Filters.none = data.
Proof.
  unfold filterData. induction data as [|p data IH]; cbn [filter].
  - reflexivity.
  - change (filterPredicate Filters.none p) with true. now rewrite IH.
Qed.

Lemma filterData_weekdays_and_weekends
      (data : list SolarDataPoint) (f : Filters.t) :
  Filters.weekdaysOnly f = Some true ->
  Filters.weekendsOnly f = Some true ->
  filterData data f = [].
Proof.
  intros Hd He. unfold filterData.
  induction data as [|p data IH]; cbn [filter]; [reflexivity|].
  rewrite IH, filterPredicate_split. unfold filterPredicate, otherFilters.
  cbn [Filters.startDate Filters.endDate Filters.months Filters.hours
       Filters.weekdaysOnly Filters.weekendsOnly].
  rewrite Hd, He. cbn [truthyBool].
  repeat match goal with
         | |- context [if ?b then false else _] =>
             lazymatch b with
             | context [isWeekend] => fail
             | _ => destruct b; [now rewrite !andb_false_r|]
             end
         end.
  destruct (isWeekend p); cbn; now rewrite !andb_false_r.
Qed.

(** ** Cost savings *)

Lemma costStep_gap (ri re : Q) (acc : CostAcc.t) (p : SolarDataPoint) :
  Derived p -> costGap (costStep ri re acc p) == costGap acc.
Proof.
  intro D. apply Derived_balance in D.
  unfold costGap, costStep.
  cbn [CostAcc.totalCostWithoutSolar CostAcc.totalCostWithSolar
       CostAcc.totalSolarSavings CostAcc.totalGridExportCredit].
  set (g := orZero (gridImport p)) in *.
  set (x := orZero (excessExport p)) in *.
  assert (Hg : g == x + energyDemand p - solarProduction p) by lra.
  rewrite Hg. ring.
Qed.

Lemma cost_fold_gap (ri re : Q) (l : list SolarDataPoint) :
  Forall Derived l ->
  forall acc, costGap (fold_left (costStep ri re) l acc) == costGap acc.
Proof.
  induction 1 as [|p l Hp _ IH]; intro acc; cbn [fold_left].
  - reflexivity.
  - rewrite IH. now apply costStep_gap.
Qed.

(** In exact arithmetic the savings split into the two credited parts on
    derived records, whatever the rates. *)
Lemma calculateCostSavings_split_exact
      (data : list SolarDataPoint) (gridImportRate gridExportRate : Q) :
  Forall Derived data ->
  let r := calculateCostSavings data gridImportRate gridExportRate in
  CostSavings.totalSavings r
  == CostSavings.totalSolarSavings r + CostSavings.totalGridExportCredit r.
Proof.
  intros D r.
  pose proof (cost_fold_gap gridImportRate gridExportRate data D
                            (CostAcc.mk 0 0 0 0 0)) as G.
  unfold costGap in G. subst r. unfold calculateCostSavings.
  cbn [CostSavings.totalSavings CostSavings.totalSolarSavings
       CostSavings.totalGridExportCredit].
  cbn [CostAcc.totalCostWithoutSolar CostAcc.totalCostWithSolar
       CostAcc.totalSolarSavings CostAcc.totalGridExportCredit] in G.
  lra.
Qed.

Lemma testData_Derived : Forall Derived testData.
Proof.
  unfold testData. apply Forall_forall. intros p Hp.
  apply in_map_iff in Hp. destruct Hp as (q & <- & _).
  apply calculateDerivedMetrics_Derived.
Qed.

(** The figures of the specification's example for the default rates:
    1.725 without solar, 1.765 saved. *)
Example calculateCostSavings_testData :
  let r := calculateCostSavings testData defaultGridImportRate
                                defaultGridExportRate in
  CostSavings.totalCostWithoutSolar r == 1725 # 1000 /\
  CostSavings.totalSavings r == 1765 # 1000 /\
  CostSavings.totalCostWithSolar r == - (4 # 100).
Proof. vm_compute. repeat split. Qed.

(** ** Self-sufficiency: the hour counters *)

Lemma hoursIn_cons (c : HourCategory) (p : SolarDataPoint)
      (l : list SolarDataPoint) :
  hoursIn c (p :: l) =
    ((match specCategory p with
      | Some c' => if HourCategory_eqb c c' then 1 else 0
      | None => 0
      end) + hoursIn c l)%Z.
Proof.
  unfold hoursIn. cbn [filter].
  destruct (specCategory p) as [c'|]; [|lia].
  destruct (HourCategory_eqb c c'); cbn [List.length]; lia.
Qed.

(** One turn of the loop increments the counter of the record's category
    and no other. *)
Lemma sufficiencyStep_counter (c : HourCategory) (acc : SufficiencyAcc.t)
      (p : SolarDataPoint) :
  counter c (sufficiencyStep acc p) =
    (counter c acc +
     match specCategory p with
     | Some c' => if HourCategory_eqb c c' then 1 else 0
     | None => 0
     end)%Z.
Proof.
  unfold sufficiencyStep, specCategory.
  destruct (Qeqb (solarProduction p) 0);
    [|destruct (Qeqb (orZero (gridImport p)) 0
                && Qeqb (orZero (excessExport p)) 0);
      [|destruct (Qgtb (orZero (excessExport p)) 0);
        [|destruct (Qgtb (orZero (gridImport p)) 0)]]];
    destruct c; cbn; lia.
Qed.

Lemma sufficiency_fold_counter (c : HourCategory) (l : list SolarDataPoint) :
  forall acc,
    counter c (fold_left sufficiencyStep l acc)
    = (counter c acc + hoursIn c l)%Z.
Proof.
  induction l as [|p l IH]; intro acc; cbn [fold_left].
  - unfold hoursIn; cbn. lia.
  - rewrite IH, sufficiencyStep_counter, hoursIn_cons. lia.
Qed.

(** With import and export not negative, the chain always takes a branch. *)
Lemma specCategory_total (p : SolarDataPoint) :
  NonNegative p -> exists c, specCategory p = Some c.
Proof.
  intros [Hg He]. unfold specCategory.
  destruct (Qeqb (solarProduction p) 0); [eauto|].
  destruct (Qgtb (orZero (excessExport p)) 0) eqn:Ex.
  - destruct (Qeqb (orZero (gridImport p)) 0
              && Qeqb (orZero (excessExport p)) 0); eauto.
  - apply Qgtb_false in Ex.
    destruct (Qgtb (orZero (gridImport p)) 0) eqn:Gx.
    + destruct (Qeqb (orZero (gridImport p)) 0
                && Qeqb (orZero (excessExport p)) 0); eauto.
    + apply Qgtb_false in Gx.
      assert (Eg : Qeqb (orZero (gridImport p)) 0 = true)
        by (apply Qeqb_true; lra).
      assert (Ee : Qeqb (orZero (excessExport p)) 0 = true)
        by (apply Qeqb_true; lra).
      rewrite Eg, Ee. cbn [andb]. eauto.
Qed.

Lemma hoursIn_total (l : list SolarDataPoint) :
  Forall NonNegative l ->
  (hoursIn NoProduction l + hoursIn SelfSufficient l
   + hoursIn ExcessProduction l + hoursIn GridDependent l
   = Z.of_nat (List.length l))%Z.
Proof.
  induction 1 as [|p l Hp _ IH].
  - reflexivity.
  - rewrite !hoursIn_cons. cbn [List.length].
    destruct (specCategory_total p Hp) as [c ->].
    destruct c; cbn [HourCategory_eqb]; lia.
Qed.

(** The counterexample to C5 as stated: a record with production, no import
    and a negative [excessExport] enters none of the four counters. *)
Lemma calculateSelfSufficiency_uncounted_counterexample :
  let r := calculateSelfSufficiency negativeExport in
  SelfSufficiency.hoursCounted r = 1%Z /\
  (SelfSufficiency.noProductionHours r
   + SelfSufficiency.selfSufficientHours r
   + SelfSufficiency.excessProductionHours r
   + SelfSufficiency.gridDependentHours r)%Z = 0%Z /\
  (SelfSufficiency.noProductionHours r
   + SelfSufficiency.selfSufficientHours r
   + SelfSufficiency.excessProductionHours r
   + SelfSufficiency.gridDependentHours r)%Z
  <> Z.of_nat (List.length negativeExport).
Proof.
  cbv zeta. repeat split; try (vm_compute; reflexivity).
  vm_compute. discriminate.
Qed.

(** C5 (amended). For every collection whose records have non-negative
    [gridImport] and [excessExport] (every collection of derived records is
    one), [calculateSelfSufficiency] assigns each record to exactly one of
    [noProduction], [selfSufficient], [excessProduction], [gridDependent],
    taken in that priority order, each counter is the number of records of
    its category, and the four counters add up to the record count. *)
Theorem calculateSelfSufficiency_partition (data : list SolarDataPoint) :
  Forall NonNegative data ->
  let r := calculateSelfSufficiency data in
  (forall p, In p data -> exists c, specCategory p = Some c) /\
  SelfSufficiency.noProductionHours r = hoursIn NoProduction data /\
  SelfSufficiency.selfSufficientHours r = hoursIn SelfSufficient data /\
  SelfSufficiency.excessProductionHours r = hoursIn ExcessProduction data /\
  SelfSufficiency.gridDependentHours r = hoursIn GridDependent data /\
  SelfSufficiency.hoursCounted r = Z.of_nat (List.length data) /\
  (SelfSufficiency.noProductionHours r
   + SelfSufficiency.selfSufficientHours r
   + SelfSufficiency.excessProductionHours r
   + SelfSufficiency.gridDependentHours r)%Z
  = SelfSufficiency.hoursCounted r.
Proof.
  intros N r.
  assert (C : forall c,
             counter c (fold_left sufficiencyStep data
                          (SufficiencyAcc.mk 0 0 0 0 0 0%Z 0%Z 0%Z 0%Z))
             = hoursIn c data).
  { intro c. rewrite sufficiency_fold_counter. destruct c; cbn; lia. }
  pose proof (C NoProduction) as C1. pose proof (C SelfSufficient) as C2.
  pose proof (C ExcessProduction) as C3. pose proof (C GridDependent) as C4.
  cbn [counter] in C1, C2, C3, C4.
  subst r. unfold calculateSelfSufficiency.
  cbn [SelfSufficiency.noProductionHours SelfSufficiency.selfSufficientHours
       SelfSufficiency.excessProductionHours
       SelfSufficiency.gridDependentHours SelfSufficiency.hoursCounted].
  split.
  - intros p Hp. apply specCategory_total.
    now apply (proj1 (Forall_forall _ _) N).
  - repeat split; try assumption.
    rewrite C1, C2, C3, C4. now apply hoursIn_total.
Qed.

Lemma testData_NonNegative : Forall NonNegative testData.
Proof.
  eapply Forall_impl; [|exact testData_Derived].
  intros p. apply Derived_NonNegative.
Qed.

Lemma calculateSelfSufficiency_partition_witness :
  Forall NonNegative testData /\
  let r := calculateSelfSufficiency testData in
  (forall p, In p testData -> exists c, specCategory p = Some c) /\
  SelfSufficiency.noProductionHours r = hoursIn NoProduction testData /\
  SelfSufficiency.selfSufficientHours r = hoursIn SelfSufficient testData /\
  SelfSufficiency.excessProductionHours r
  = hoursIn ExcessProduction testData /\
  SelfSufficiency.gridDependentHours r = hoursIn GridDependent testData /\
  SelfSufficiency.hoursCounted r = Z.of_nat (List.length testData) /\
  (SelfSufficiency.noProductionHours r
   + SelfSufficiency.selfSufficientHours r
   + SelfSufficiency.excessProductionHours r
   + SelfSufficiency.gridDependentHours r)%Z
  = SelfSufficiency.hoursCounted r.
Proof.
  split.
  - exact testData_NonNegative.
  - apply (calculateSelfSufficiency_partition testData).
    exact testData_NonNegative.
Defined.

(** On the records of the repository's tests the loop counts one hour
    without production, three with excess and none as grid dependent: the
    hour with no production and a deficit is taken by the first branch. *)
Example calculateSelfSufficiency_testData :
  let r := calculateSelfSufficiency testData in
  SelfSufficiency.noProductionHours r = 1%Z /\
  SelfSufficiency.excessProductionHours r = 3%Z /\
  SelfSufficiency.gridDependentHours r = 0%Z /\
  SelfSufficiency.selfSufficientHours r = 0%Z /\
  SelfSufficiency.hoursCounted r = 4%Z.
Proof. vm_compute. repeat split. Qed.

(** ** The summary calculator *)

Lemma JsSet_has_In (s : JsSet.t) (x : string) :
  JsSet.has s x = true <-> In x s.
Proof.
  unfold JsSet.has. rewrite existsb_exists. split.
  - intros (y & Hy & E). apply String.eqb_eq in E. now subst.
  - intro H. exists x. split; [assumption | apply String.eqb_refl].
Qed.

Lemma JsSet_add_spec (s : JsSet.t) (x : string) :
  NoDup s ->
  NoDup (JsSet.add s x) /\ (forall y, In y (JsSet.add s x) <-> In y s \/ y = x).
Proof.
  intro N. unfold JsSet.add. destruct (JsSet.has s x) eqn:E.
  - apply JsSet_has_In in E. split; [assumption|].
    intro y. split; [tauto|]. intros [H | ->]; assumption.
  - assert (~ In x s) as Nx.
    { intro H. apply JsSet_has_In in H. congruence. }
    split.
    + apply NoDup_app; [assumption | repeat constructor; intros [] |].
      intros y Hy [<- | []]. contradiction.
    + intro y. rewrite in_app_iff. cbn. intuition congruence.
Qed.

Lemma JsSet_ofList_spec (l : list string) :
  forall s, NoDup s ->
    NoDup (fold_left JsSet.add l s) /\
    (forall y, In y (fold_left JsSet.add l s) <-> In y s \/ In y l).
Proof.
  induction l as [|x l IH]; intros s N; cbn [fold_left].
  - split; [assumption|]. intro y. cbn. tauto.
  - destruct (JsSet_add_spec s x N) as [N' M'].
    destruct (IH _ N') as [N'' M'']. split; [assumption|].
    intro y. rewrite M'', M'. cbn. intuition congruence.
Qed.

(** [new Set(dates).size] is the number of distinct dates. *)
Lemma JsSet_size_distinct (l : list string) :
  JsSet.size (JsSet.ofList l)
  = Z.of_nat (List.length (nodup string_dec l)).
Proof.
  unfold JsSet.size, JsSet.ofList. f_equal.
  destruct (JsSet_ofList_spec l [] (NoDup_nil _)) as [N M].
  apply Permutation_length. apply NoDup_Permutation.
  - assumption.
  - apply NoDup_nodup.
  - intro y. rewrite M, nodup_In. cbn. tauto.
Qed.

Lemma dayCount_distinct (data : list SolarDataPoint) :
  dayCount data
  = Z.max 1 (Z.of_nat (List.length (nodup string_dec (map date data)))).
Proof.
  unfold dayCount. rewrite JsSet_size_distinct.
  destruct (Z.eqb_spec
              (Z.of_nat (List.length (nodup string_dec (map date data)))) 0);
    lia.
Qed.

(** C8. [calculateSummary] is total.  On the empty collection every total,
    daily average, peak and percentage is 0 and [dayCount] is 1.  On every
    collection [dayCount] is the number of distinct dates, at least 1, the
    daily averages divide by it, and each percentage is 0 when its
    denominator is 0. *)
Theorem calculateSummary_degenerate :
  calculateSummary [] = Summary.mk 0 0 0 0 0 0 0 0 0 0 /\
  dayCount [] = 1%Z /\
  forall data : list SolarDataPoint,
    let s := calculateSummary data in
    dayCount data
    = Z.max 1 (Z.of_nat (List.length (nodup string_dec (map date data)))) /\
    (1 <= dayCount data)%Z /\
    ~ inject_Z (dayCount data) == 0 /\
    Summary.averageDailySolarProduction s
    = Summary.totalSolarProduction s / inject_Z (dayCount data) /\
    Summary.averageDailyEnergyDemand s
    = Summary.totalEnergyDemand s / inject_Z (dayCount data) /\
    (Summary.totalSolarProduction s == 0 ->
     Summary.selfConsumptionPercentage s = 0) /\
    (Summary.totalEnergyDemand s == 0 ->
     Summary.gridDependencyPercentage s = 0).
Proof.
  split; [reflexivity|]. split; [reflexivity|].
  intros data s.
  pose proof (dayCount_distinct data) as D.
  assert (1 <= dayCount data)%Z as P by lia.
  repeat match goal with |- _ /\ _ => split end;
    try assumption; try reflexivity.
  - intro E. assert (inject_Z 1 <= inject_Z (dayCount data)) as L
        by (rewrite <- Zle_Qle; assumption).
    rewrite E in L. revert L. apply Qlt_not_le. reflexivity.
  - intro Z0. subst s. unfold calculateSummary in Z0 |- *.
    cbn [Summary.selfConsumptionPercentage Summary.totalSolarProduction] in *.
    set (t := SummaryAcc.totalSolarProduction _) in *.
    destruct (Qgtb t 0) eqn:G; [|reflexivity].
    apply Qgtb_true in G. lra.
  - intro Z0. subst s. unfold calculateSummary in Z0 |- *.
    cbn [Summary.gridDependencyPercentage Summary.totalEnergyDemand] in *.
    set (t := SummaryAcc.totalEnergyDemand _) in *.
    destruct (Qgtb t 0) eqn:G; [|reflexivity].
    apply Qgtb_true in G. lra.
Qed.

(** The totals and percentages of the specification's example. *)
Example calculateSummary_testData :
  let s := calculateSummary testData in
  Summary.totalSolarProduction s == 155 # 10 /\
  Summary.totalEnergyDemand s == 115 # 10 /\
  Summary.totalGridImport s == 4 /\
  Summary.totalExcessExport s == 8 /\
  Summary.selfConsumptionPercentage s == 1500 # 31 /\
  Summary.gridDependencyPercentage s == 800 # 23 /\
  Summary.averageDailySolarProduction s == 775 # 100 /\
  dayCount testData = 2%Z.
Proof. vm_compute. repeat split. Qed.

(** ** Maps, sorting and the daily aggregation *)

Section JsMapFacts.
Context {K V : Type}.
Variable eqb : K -> K -> bool.
Hypothesis eqb_refl : forall k, eqb k k = true.

Lemma JsMap_get_set_same (m : JsMap.t) (k : K) (v : V) :
  JsMap.get eqb (JsMap.set eqb m k v) k = Some v.
Proof.
  induction m as [|[k' v'] m IH]; cbn [JsMap.set JsMap.get].
  - now rewrite eqb_refl.
  - destruct (eqb k k') eqn:E; cbn [JsMap.get]; rewrite E; auto.
Qed.

Lemma JsMap_has_get (m : JsMap.t (V := V)) (k : K) :
  JsMap.has eqb m k = false -> JsMap.get eqb m k = None.
Proof. unfold JsMap.has. destruct (JsMap.get eqb m k); congruence. Qed.

Lemma JsMap_has_true (m : JsMap.t (V := V)) (k : K) :
  JsMap.has eqb m k = true -> exists v, JsMap.get eqb m k = Some v.
Proof. unfold JsMap.has. destruct (JsMap.get eqb m k); eauto; congruence. Qed.

(** Overwriting an entry changes a sum over the values by the difference of
    the two values; adding an entry adds its value. *)
Lemma JsMap_set_sum_present (f : V -> Q) (m : JsMap.t) (k : K) (v v0 : V) :
  JsMap.get eqb m k = Some v0 ->
  sumOf f (JsMap.values (JsMap.set eqb m k v))
  == sumOf f (JsMap.values m) + f v - f v0.
Proof.
  unfold JsMap.values.
  induction m as [|[k' v'] m IH]; cbn [JsMap.set JsMap.get]; intro G.
  - discriminate.
  - destruct (eqb k k'); cbn [map snd].
    + injection G as ->. rewrite !sumOf_cons. ring.
    + rewrite !sumOf_cons, (IH G). ring.
Qed.

Lemma JsMap_set_sum_absent (f : V -> Q) (m : JsMap.t) (k : K) (v : V) :
  JsMap.get eqb m k = None ->
  sumOf f (JsMap.values (JsMap.set eqb m k v))
  == sumOf f (JsMap.values m) + f v.
Proof.
  unfold JsMap.values.
  induction m as [|[k' v'] m IH]; cbn [JsMap.set JsMap.get]; intro G.
  - cbn [map snd]. rewrite sumOf_cons, !sumOf_nil. ring.
  - destruct (eqb k k'); [discriminate|]. cbn [map snd].
    rewrite !sumOf_cons, (IH G). ring.
Qed.

End JsMapFacts.

Section SortFacts.
Context {A : Type}.
Variable cmp : A -> A -> Q.

Lemma insert_perm (x : A) (l : list A) :
  Permutation (JsArray.insert cmp x l) (x :: l).
Proof.
  induction l as [|y l IH]; cbn [JsArray.insert].
  - reflexivity.
  - destruct (Qltb (cmp y x) 0); [|reflexivity].
    rewrite IH. apply perm_swap.
Qed.

Lemma sort_perm (l : list A) : Permutation (JsArray.sort cmp l) l.
Proof.
  unfold JsArray.sort. induction l as [|x l IH]; cbn [fold_right].
  - reflexivity.
  - rewrite insert_perm. now constructor.
Qed.

Lemma sort_In (l : list A) (x : A) : In x (JsArray.sort cmp l) <-> In x l.
Proof.
  split; apply Permutation_in; [|symmetry]; apply sort_perm.
Qed.

Lemma sort_length (l : list A) :
  List.length (JsArray.sort cmp l) = List.length l.
Proof. apply Permutation_length, sort_perm. Qed.

Lemma sort_nil_inv (l : list A) : JsArray.sort cmp l = [] -> l = [].
Proof.
  intro H. pose proof (sort_length l) as L. rewrite H in L.
  destruct l; [reflexivity | discriminate].
Qed.

End SortFacts.

Lemma dayStep_sum (q : Quantity) (m : JsMap.t) (p : SolarDataPoint) :
  sumOf (ofDaily q) (JsMap.values (dayStep m p))
  == sumOf (ofDaily q) (JsMap.values m) + ofPoint q p.
Proof.
  unfold dayStep.
  destruct (JsMap.has String.eqb m (date p)) eqn:H; cbn [negb].
  - destruct (JsMap_has_true _ _ _ H) as [d G]. rewrite G.
    rewrite (JsMap_set_sum_present String.eqb _ _ _ _ _ G).
    destruct q;
      cbn [ofDaily ofPoint Daily.solarProduction Daily.energyDemand
           Daily.gridImport Daily.excessExport]; ring.
  - apply JsMap_has_get in H.
    rewrite (JsMap_get_set_same String.eqb String.eqb_refl).
    rewrite (JsMap_set_sum_present String.eqb _ _ _ _ _
               (JsMap_get_set_same String.eqb String.eqb_refl _ _ _)).
    rewrite (JsMap_set_sum_absent String.eqb _ _ _ _ H).
    destruct q;
      cbn [ofDaily ofPoint Daily.solarProduction Daily.energyDemand
           Daily.gridImport Daily.excessExport]; ring.
Qed.

Lemma dayStep_fold_sum (q : Quantity) (l : list SolarDataPoint) :
  forall m,
    sumOf (ofDaily q) (JsMap.values (fold_left dayStep l m))
    == sumOf (ofDaily q) (JsMap.values m) + sumOf (ofPoint q) l.
Proof.
  induction l as [|p l IH]; intro m; cbn [fold_left].
  - rewrite sumOf_nil. ring.
  - rewrite IH, dayStep_sum, sumOf_cons. ring.
Qed.

Lemma setNetEnergy_sum (q : Quantity) (l : list Daily.t) :
  sumOf (ofDaily q) (map setNetEnergy l) = sumOf (ofDaily q) l.
Proof.
  rewrite sumOf_map. unfold sumOf. apply (f_equal Qsum). apply map_ext.
  intro d. destruct q; reflexivity.
Qed.

Lemma summaryStep_fold_sum (q : Quantity) (l : list SolarDataPoint) :
  forall acc,
    ofSummaryAcc q (fold_left summaryStep l acc)
    == ofSummaryAcc q acc + sumOf (ofPoint q) l.
Proof.
  induction l as [|p l IH]; intro acc; cbn [fold_left].
  - rewrite sumOf_nil. ring.
  - rewrite IH, sumOf_cons. unfold summaryStep.
    destruct q;
      cbn [ofSummaryAcc ofPoint SummaryAcc.totalSolarProduction
           SummaryAcc.totalEnergyDemand SummaryAcc.totalGridImport
           SummaryAcc.totalExcessExport]; ring.
Qed.

(** The day totals add up to the totals over the records. *)
Lemma aggregateByDay_sum (getTime : string -> Z) (q : Quantity)
      (data : list SolarDataPoint) :
  sumOf (ofDaily q) (aggregateByDay getTime data) == sumOf (ofPoint q) data.
Proof.
  unfold aggregateByDay.
  rewrite (sumOf_perm _ _ _ (sort_perm _ _)), setNetEnergy_sum.
  rewrite dayStep_fold_sum. cbn [JsMap.values map]. rewrite sumOf_nil. ring.
Qed.

(** In exact arithmetic the daily entries add up to the totals of the
    summary, for every collection and whatever the date parser gives. *)
Lemma aggregateByDay_totals_exact
        (getTime : string -> Z) (data : list SolarDataPoint) :
  let days := aggregateByDay getTime data in
  let s := calculateSummary data in
  sumOf Daily.solarProduction days == Summary.totalSolarProduction s /\
  sumOf Daily.energyDemand days == Summary.totalEnergyDemand s /\
  sumOf Daily.gridImport days == Summary.totalGridImport s /\
  sumOf Daily.excessExport days == Summary.totalExcessExport s.
Proof.
  intros days s. subst days s. unfold calculateSummary.
  cbn [Summary.totalSolarProduction Summary.totalEnergyDemand
       Summary.totalGridImport Summary.totalExcessExport].
  assert (H : forall q,
             sumOf (ofDaily q) (aggregateByDay getTime data)
             == ofSummaryAcc q (fold_left summaryStep data
                                          (SummaryAcc.mk 0 0 0 0 0 0))).
  { intro q. rewrite aggregateByDay_sum, summaryStep_fold_sum.
    destruct q; cbn [ofSummaryAcc SummaryAcc.totalSolarProduction
                     SummaryAcc.totalEnergyDemand SummaryAcc.totalGridImport
                     SummaryAcc.totalExcessExport]; ring. }
  repeat split.
  - exact (H Production).
  - exact (H Demand).
  - exact (H Import).
  - exact (H Export).
Qed.

(** The two days of the repository's test, for a date parser that reads
    the day of the month. *)
Example aggregateByDay_testData :
  map (fun d => (Daily.date d, Qred (Daily.solarProduction d),
                 Qred (Daily.energyDemand d), Qred (Daily.gridImport d),
                 Qred (Daily.excessExport d)))
      (aggregateByDay
         (fun s => if String.eqb s "2025-01-01" then 1%Z else 2%Z) testData)
  = [("2025-01-01"%string, 11, 9, 4, 6);
     ("2025-01-02"%string, 9 # 2, 5 # 2, 0, 2)].
Proof. vm_compute. reflexivity. Qed.

(** ** Maps with one entry per key of a list *)

Section TableFacts.
Context {K V : Type}.
Variable eqb : K -> K -> bool.
Hypothesis eqb_spec : forall x y, reflect (x = y) (eqb x y).

Lemma table_get (F : K -> V) (ks : list K) (k : K) :
  In k ks -> JsMap.get eqb (table F ks) k = Some (F k).
Proof.
  induction ks as [|a ks IH]; cbn [table map JsMap.get]; intro H.
  - contradiction.
  - destruct (eqb_spec k a) as [-> | N]; [reflexivity|].
    apply IH. destruct H; congruence.
Qed.

Lemma table_get_absent (F : K -> V) (ks : list K) (k : K) :
  ~ In k ks -> JsMap.get eqb (table F ks) k = None.
Proof.
  induction ks as [|a ks IH]; cbn [table map JsMap.get]; intro H.
  - reflexivity.
  - destruct (eqb_spec k a) as [-> | N].
    + exfalso. apply H. now left.
    + apply IH. intro. apply H. now right.
Qed.

Lemma table_has (F : K -> V) (ks : list K) (k : K) :
  JsMap.has eqb (table F ks) k = true <-> In k ks.
Proof.
  unfold JsMap.has. split.
  - intro H. destruct (in_dec (fun x y => reflect_dec _ _ (eqb_spec x y)) k ks)
      as [I | N]; [assumption|].
    rewrite (table_get_absent F ks k N) in H. discriminate.
  - intro I. now rewrite (table_get F ks k I).
Qed.

(** Overwriting the entry of a key: the position stays, the value changes. *)
Lemma table_set (F : K -> V) (ks : list K) (k : K) (v : V) :
  NoDup ks -> In k ks ->
  JsMap.set eqb (table F ks) k v
  = table (fun h => if eqb k h then v else F h) ks.
Proof.
  induction ks as [|a ks IH]; cbn [table map JsMap.set]; intros N H.
  - contradiction.
  - inversion N as [|? ? Na N']; subst.
    destruct (eqb_spec k a) as [-> | Nk].
    + f_equal. apply map_ext_in. intros h Hh.
      destruct (eqb_spec a h) as [-> | _]; [contradiction | reflexivity].
    + f_equal. apply IH; [assumption|]. destruct H; congruence.
Qed.

(** Setting a new key appends the entry. *)
Lemma table_set_absent (F : K -> V) (ks : list K) (k : K) (v : V) :
  ~ In k ks ->
  JsMap.set eqb (table F ks) k v = table F ks ++ [(k, v)].
Proof.
  induction ks as [|a ks IH]; cbn [table map JsMap.set app]; intro H.
  - reflexivity.
  - destruct (eqb_spec k a) as [-> | N].
    + exfalso. apply H. now left.
    + f_equal. apply IH. intro. apply H. now right.
Qed.

Lemma table_values (F : K -> V) (ks : list K) :
  JsMap.values (table F ks) = map F ks.
Proof. unfold JsMap.values, table. rewrite map_map. reflexivity. Qed.

Lemma table_keys (F : K -> V) (ks : list K) :
  JsMap.keys (table F ks) = ks.
Proof. unfold JsMap.keys, table. rewrite map_map. apply map_id. Qed.

End TableFacts.

(** ** The hourly aggregation *)

Lemma hours24_NoDup : NoDup hours24.
Proof.
  unfold hours24. apply Finite.Injective_map_NoDup.
  - intros x y. apply Nat2Z.inj.
  - apply seq_NoDup.
Qed.

Lemma hours24_In (h : Z) : In h hours24 <-> (0 <= h < 24)%Z.
Proof.
  unfold hours24. rewrite in_map_iff. split.
  - intros (n & <- & Hn). apply in_seq in Hn. lia.
  - intro H. exists (Z.to_nat h). split; [lia|]. apply in_seq. lia.
Qed.

Lemma atHour_snoc (h : Z) (l : list SolarDataPoint) (p : SolarDataPoint) :
  atHour h (l ++ [p])
  = atHour h l ++ (if (hour p =? h)%Z then [p] else []).
Proof. unfold atHour. rewrite filter_app. reflexivity. Qed.

Lemma hourSum_snoc (q : Quantity) (h : Z) (l : list SolarDataPoint)
      (p : SolarDataPoint) :
  hourSum q h (l ++ [p])
  = if (hour p =? h)%Z then hourSum q h l + ofPoint q p else hourSum q h l.
Proof.
  unfold hourSum. rewrite atHour_snoc, fold_left_app.
  destruct (hour p =? h)%Z; reflexivity.
Qed.

Lemma hourCount_snoc (h : Z) (l : list SolarDataPoint) (p : SolarDataPoint) :
  hourCount (l ++ [p]) h
  = if (hour p =? h)%Z then (hourCount l h + 1)%Z else hourCount l h.
Proof.
  unfold hourCount. rewrite atHour_snoc, length_app.
  destruct (hour p =? h)%Z; cbn [List.length]; lia.
Qed.

Lemma hourInit_table :
  hourInit = (table (hourEntry []) hours24, table (hourCount []) hours24).
Proof. reflexivity. Qed.

(** After the summing loop the two maps hold, hour by hour, the sums and
    the count of the records seen. *)
Lemma hourStep_fold (data : list SolarDataPoint) :
  Forall (fun p => (0 <= hour p < 24)%Z) data ->
  fold_left hourStep data (Some hourInit)
  = Some (table (hourEntry data) hours24, table (hourCount data) hours24).
Proof.
  induction data as [|p data IH] using rev_ind; intro H.
  - cbn [fold_left]. now rewrite hourInit_table.
  - apply Forall_app in H. destruct H as [Hd Hp].
    inversion Hp as [|? ? Hh _]; subst.
    rewrite fold_left_app, (IH Hd). cbn [fold_left hourStep].
    apply hours24_In in Hh.
    rewrite !(table_get Z.eqb Z.eqb_spec _ _ _ Hh).
    rewrite !(table_set Z.eqb Z.eqb_spec _ _ _ _ hours24_NoDup Hh).
    f_equal. f_equal.
    + apply map_ext. intro h. f_equal. unfold hourEntry.
      rewrite !hourSum_snoc.
      destruct (Z.eqb_spec (hour p) h) as [<- | _]; reflexivity.
    + apply map_ext. intro h. f_equal. rewrite hourCount_snoc.
      destruct (Z.eqb_spec (hour p) h) as [<- | _]; reflexivity.
Qed.

Lemma aggregateByHour_table (data : list SolarDataPoint) :
  Forall (fun p => (0 <= hour p < 24)%Z) data ->
  aggregateByHour data
  = Some (map (fun h => hourAverage (table (hourCount data) hours24)
                                    (hourEntry data h)) hours24).
Proof.
  intro H. unfold aggregateByHour. rewrite (hourStep_fold data H).
  rewrite table_values, map_map. reflexivity.
Qed.

Lemma hourSum_sumOf (q : Quantity) (h : Z) (data : list SolarDataPoint) :
  hourSum q h data == sumOf (ofPoint q) (atHour h data).
Proof. unfold hourSum. rewrite fold_left_sum. ring. Qed.

Lemma hourAverage_entry (data : list SolarDataPoint) (h : Z) :
  In h hours24 ->
  let e := hourAverage (table (hourCount data) hours24) (hourEntry data h) in
  Hourly.hour e = h /\
  Hourly.netEnergy e = Hourly.solarProduction e - Hourly.energyDemand e /\
  forall q,
    ofHourly q e = hourSum q h data / inject_Z (hourDivisor data h).
Proof.
  intros H e. subst e. unfold hourAverage, hourEntry.
  cbn [Hourly.hour Hourly.solarProduction Hourly.energyDemand
       Hourly.gridImport Hourly.excessExport Hourly.netEnergy].
  rewrite (table_get Z.eqb Z.eqb_spec _ _ _ H). fold (hourDivisor data h).
  split; [reflexivity|]. split; [reflexivity|].
  intros []; reflexivity.
Qed.

Lemma hourSum_empty (q : Quantity) (h : Z) (data : list SolarDataPoint) :
  atHour h data = [] -> hourSum q h data = 0.
Proof. unfold hourSum. now intros ->. Qed.

Lemma hourDivisor_empty (h : Z) (data : list SolarDataPoint) :
  atHour h data = [] -> hourDivisor data h = 1%Z.
Proof. unfold hourDivisor, hourCount. now intros ->. Qed.

Lemma hourDivisor_nonempty (h : Z) (data : list SolarDataPoint) :
  atHour h data <> [] ->
  hourDivisor data h = Z.of_nat (List.length (atHour h data)).
Proof.
  unfold hourDivisor, hourCount. intro N.
  destruct (atHour h data); [contradiction|].
  cbn [List.length]. destruct (Z.eqb_spec (Z.of_nat (S (List.length l))) 0);
    [lia | reflexivity].
Qed.

(** C2. When every record's hour lies in 0..23, [aggregateByHour] returns 24
    entries, for the hours 0 to 23 in ascending order; in each entry
    [solarProduction], [energyDemand], [gridImport] and [excessExport] are
    the sum over the records of that hour divided by the number of those
    records, and an hour without records is present with all five
    quantities equal to 0. *)
Theorem aggregateByHour_averages (data : list SolarDataPoint) :
  Forall (fun p => (0 <= hour p < 24)%Z) data ->
  exists r,
    aggregateByHour data = Some r /\
    List.length r = 24%nat /\
    map Hourly.hour r
    = [0; 1; 2; 3; 4; 5; 6; 7; 8; 9; 10; 11; 12; 13; 14; 15; 16; 17; 18; 19;
       20; 21; 22; 23]%Z /\
    forall e, In e r ->
      let rs := atHour (Hourly.hour e) data in
      let n := inject_Z (Z.of_nat (List.length rs)) in
      Hourly.netEnergy e = Hourly.solarProduction e - Hourly.energyDemand e /\
      (rs <> [] ->
       Hourly.solarProduction e == sumOf solarProduction rs / n /\
       Hourly.energyDemand e == sumOf energyDemand rs / n /\
       Hourly.gridImport e
       == sumOf (fun p => orZero (gridImport p)) rs / n /\
       Hourly.excessExport e
       == sumOf (fun p => orZero (excessExport p)) rs / n) /\
      (rs = [] ->
       Hourly.solarProduction e == 0 /\ Hourly.energyDemand e == 0 /\
       Hourly.gridImport e == 0 /\ Hourly.excessExport e == 0 /\
       Hourly.netEnergy e == 0).
Proof.
  intro H. eexists. split; [apply (aggregateByHour_table data H)|].
  split; [now rewrite length_map|].
  split.
  { rewrite map_map.
    transitivity (map (fun h : Z => h) hours24); [|now rewrite map_id].
    apply map_ext_in. intros h Hh.
    apply (hourAverage_entry data h Hh). }
  intros e He. apply in_map_iff in He. destruct He as (h & <- & Hh).
  destruct (hourAverage_entry data h Hh) as (Eh & En & Eq).
  cbv zeta in Eh, En, Eq |- *.
  set (e := hourAverage _ _) in *. rewrite Eh.
  split; [assumption|]. split.
  - intro N.
    assert (A : forall q,
               ofHourly q e
               == sumOf (ofPoint q) (atHour h data)
                  / inject_Z (Z.of_nat (List.length (atHour h data)))).
    { intro q. rewrite Eq, (hourDivisor_nonempty h data N), hourSum_sumOf.
      reflexivity. }
    repeat split.
    + exact (A Production).
    + exact (A Demand).
    + exact (A Import).
    + exact (A Export).
  - intro N.
    assert (A : forall q, ofHourly q e == 0).
    { intro q. rewrite Eq, (hourDivisor_empty h data N),
        (hourSum_empty q h data N). reflexivity. }
    pose proof (A Production) as A1. pose proof (A Demand) as A2.
    cbn [ofHourly] in A1, A2.
    repeat split.
    + exact A1.
    + exact A2.
    + exact (A Import).
    + exact (A Export).
    + rewrite En. lra.
Qed.

Lemma testData_hours : Forall (fun p => (0 <= hour p < 24)%Z) testData.
Proof. repeat constructor; cbn; lia. Qed.

Lemma aggregateByHour_averages_witness :
  Forall (fun p => (0 <= hour p < 24)%Z) testData /\
  exists r,
    aggregateByHour testData = Some r /\
    List.length r = 24%nat /\
    map Hourly.hour r
    = [0; 1; 2; 3; 4; 5; 6; 7; 8; 9; 10; 11; 12; 13; 14; 15; 16; 17; 18; 19;
       20; 21; 22; 23]%Z /\
    forall e, In e r ->
      let rs := atHour (Hourly.hour e) testData in
      let n := inject_Z (Z.of_nat (List.length rs)) in
      Hourly.netEnergy e = Hourly.solarProduction e - Hourly.energyDemand e /\
      (rs <> [] ->
       Hourly.solarProduction e == sumOf solarProduction rs / n /\
       Hourly.energyDemand e == sumOf energyDemand rs / n /\
       Hourly.gridImport e
       == sumOf (fun p => orZero (gridImport p)) rs / n /\
       Hourly.excessExport e
       == sumOf (fun p => orZero (excessExport p)) rs / n) /\
      (rs = [] ->
       Hourly.solarProduction e == 0 /\ Hourly.energyDemand e == 0 /\
       Hourly.gridImport e == 0 /\ Hourly.excessExport e == 0 /\
       Hourly.netEnergy e == 0).
Proof.
  split.
  - exact testData_hours.
  - apply (aggregateByHour_averages testData). exact testData_hours.
Defined.

(** An hour outside 0..23 has no entry in the map and the loop throws. *)
Example aggregateByHour_hour_24 :
  aggregateByHour [samplePoint "2025-01-01" 24 5 2] = None.
Proof. reflexivity. Qed.

(** The averages of the repository's test for hours 10 and 0. *)
Example aggregateByHour_testData :
  exists r e10 e0,
    aggregateByHour testData = Some r /\
    nth_error r 10 = Some e10 /\ nth_error r 0 = Some e0 /\
    Hourly.solarProduction e10 == 475 # 100 /\
    Hourly.energyDemand e10 == 225 # 100 /\
    Hourly.solarProduction e0 == 0 /\ Hourly.energyDemand e0 == 0.
Proof.
  eexists _, _, _. split; [vm_compute; reflexivity|].
  split; [reflexivity|]. split; [reflexivity|].
  vm_compute. repeat split.
Qed.

(** ** Grouping by date *)

Lemma dates_snoc (l : list SolarDataPoint) (p : SolarDataPoint) :
  dates (l ++ [p]) = JsSet.add (dates l) (date p).
Proof.
  unfold dates, JsSet.ofList. now rewrite map_app, fold_left_app.
Qed.

Lemma dates_NoDup (l : list SolarDataPoint) : NoDup (dates l).
Proof.
  unfold dates, JsSet.ofList.
  apply (JsSet_ofList_spec (map date l) [] (NoDup_nil _)).
Qed.

Lemma dates_In (l : list SolarDataPoint) (d : string) :
  In d (dates l) <-> exists p, In p l /\ date p = d.
Proof.
  unfold dates, JsSet.ofList.
  destruct (JsSet_ofList_spec (map date l) [] (NoDup_nil _)) as [_ M].
  rewrite M, in_map_iff. cbn. firstorder.
Qed.

Lemma onDate_snoc (d : string) (l : list SolarDataPoint)
      (p : SolarDataPoint) :
  onDate d (l ++ [p])
  = onDate d l ++ (if String.eqb (date p) d then [p] else []).
Proof. unfold onDate. rewrite filter_app. reflexivity. Qed.

Lemma onDate_In (d : string) (l : list SolarDataPoint) (p : SolarDataPoint) :
  In p (onDate d l) <-> In p l /\ date p = d.
Proof. unfold onDate. now rewrite filter_In, String.eqb_eq. Qed.

Lemma onDate_absent (d : string) (l : list SolarDataPoint) :
  ~ In d (dates l) -> onDate d l = [].
Proof.
  intro N. destruct (onDate d l) as [|p r] eqn:E; [reflexivity|].
  exfalso. apply N. apply dates_In. exists p.
  apply onDate_In. rewrite E. now left.
Qed.

Lemma onDate_present (d : string) (l : list SolarDataPoint) :
  In d (dates l) -> onDate d l <> [].
Proof.
  intros H E. apply dates_In in H. destruct H as (p & Hp & Hd).
  assert (In p (onDate d l)) as I by (apply onDate_In; auto).
  rewrite E in I. contradiction.
Qed.

(** ** Maxima *)

Lemma QmaxList_shift (a x : Q) (l : list Q) :
  QmaxList (Qmax a x) l == Qmax x (QmaxList a l).
Proof.
  induction l as [|y l IH]; cbn [QmaxList fold_right].
  - apply Q.max_comm.
  - fold (QmaxList (Qmax a x) l) in *. fold (QmaxList a l) in *.
    set (A := QmaxList (Qmax a x) l) in *. set (B := QmaxList a l) in *.
    qmax y A; qmax x B; qmax y B; qmax x (Qmax y B); lra.
Qed.

Lemma fold_left_Qmax {A : Type} (g : A -> Q) (l : list A) (a : Q) :
  fold_left (fun m x => Qmax m (g x)) l a == QmaxList a (map g l).
Proof.
  revert a. induction l as [|x l IH]; intro a; cbn [fold_left map].
  - reflexivity.
  - rewrite IH. apply QmaxList_shift.
Qed.

Lemma QmaxList_ext {A : Type} (g g' : A -> Q) (l : list A) (a : Q) :
  (forall x, In x l -> g x == g' x) ->
  QmaxList a (map g l) == QmaxList a (map g' l).
Proof.
  induction l as [|x l IH]; intro H; cbn [map QmaxList fold_right].
  - reflexivity.
  - fold (QmaxList a (map g l)). fold (QmaxList a (map g' l)).
    assert (E : g x == g' x) by (apply H; now left).
    assert (E' : QmaxList a (map g l) == QmaxList a (map g' l))
      by (apply IH; intros; apply H; now right).
    qmax (g x) (QmaxList a (map g l));
      qmax (g' x) (QmaxList a (map g' l)); lra.
Qed.

Lemma QmaxList_ge_base (a : Q) (l : list Q) : a <= QmaxList a l.
Proof.
  induction l as [|x l IH]; cbn [QmaxList fold_right].
  - lra.
  - fold (QmaxList a l). qmax x (QmaxList a l); lra.
Qed.

Lemma QmaxList_ge (a : Q) (l : list Q) (x : Q) :
  In x l -> x <= QmaxList a l.
Proof.
  induction l as [|y l IH]; cbn [QmaxList fold_right]; intro H.
  - contradiction.
  - fold (QmaxList a l) in *. destruct H as [-> | H].
    + qmax x (QmaxList a l); lra.
    + specialize (IH H). qmax y (QmaxList a l); lra.
Qed.

Lemma QmaxList_attained (a : Q) (l : list Q) :
  QmaxList a l == a \/ exists x, In x l /\ QmaxList a l == x.
Proof.
  induction l as [|y l IH]; cbn [QmaxList fold_right].
  - left. reflexivity.
  - fold (QmaxList a l) in *. qmax y (QmaxList a l).
    + destruct IH as [E | (x & Hx & E)].
      * left. lra.
      * right. exists x. split; [now right | lra].
    + right. exists y. split; [now left | lra].
Qed.

(** * Part III: the rest of the calculation layer *)

(** ** The totals the analytics accumulate *)

Lemma sufficiency_fold_totals (l : list SolarDataPoint) :
  forall acc,
    let r := fold_left sufficiencyStep l acc in
    SufficiencyAcc.totalSolarProduction r
    == SufficiencyAcc.totalSolarProduction acc + sumOf solarProduction l /\
    SufficiencyAcc.totalEnergyDemand r
    == SufficiencyAcc.totalEnergyDemand acc + sumOf energyDemand l /\
    SufficiencyAcc.totalGridImport r
    == SufficiencyAcc.totalGridImport acc
       + sumOf (fun p => orZero (gridImport p)) l /\
    SufficiencyAcc.totalExcessExport r
    == SufficiencyAcc.totalExcessExport acc
       + sumOf (fun p => orZero (excessExport p)) l /\
    SufficiencyAcc.totalSelfConsumed r
    == SufficiencyAcc.totalSelfConsumed acc + sumOf selfConsumed l.
Proof.
  induction l as [|p l IH]; intro acc; cbv zeta; cbn [fold_left].
  - rewrite !sumOf_nil. repeat split; ring.
  - destruct (IH (sufficiencyStep acc p)) as (A & B & C & D & E).
    cbv zeta in A, B, C, D, E. rewrite !sumOf_cons.
    assert (T : SufficiencyAcc.totalSolarProduction (sufficiencyStep acc p)
                = SufficiencyAcc.totalSolarProduction acc + solarProduction p
                /\ SufficiencyAcc.totalEnergyDemand (sufficiencyStep acc p)
                   = SufficiencyAcc.totalEnergyDemand acc + energyDemand p
                /\ SufficiencyAcc.totalGridImport (sufficiencyStep acc p)
                   = SufficiencyAcc.totalGridImport acc
                     + orZero (gridImport p)
                /\ SufficiencyAcc.totalExcessExport (sufficiencyStep acc p)
                   = SufficiencyAcc.totalExcessExport acc
                     + orZero (excessExport p)
                /\ SufficiencyAcc.totalSelfConsumed (sufficiencyStep acc p)
                   = SufficiencyAcc.totalSelfConsumed acc + selfConsumed p).
    { unfold sufficiencyStep, selfConsumed.
      destruct (Qeqb (solarProduction p) 0);
        [|destruct (Qeqb (orZero (gridImport p)) 0
                    && Qeqb (orZero (excessExport p)) 0);
          [|destruct (Qgtb (orZero (excessExport p)) 0);
            [|destruct (Qgtb (orZero (gridImport p)) 0)]]];
        repeat split; reflexivity. }
    destruct T as (T1 & T2 & T3 & T4 & T5).
    rewrite T1 in A. rewrite T2 in B. rewrite T3 in C. rewrite T4 in D.
    rewrite T5 in E. repeat split; lra.
Qed.

Lemma emissions_fold_totals (l : list SolarDataPoint) :
  forall acc,
    let r := fold_left emissionsStep l acc in
    EmissionsAcc.totalSelfConsumedSolar r
    == EmissionsAcc.totalSelfConsumedSolar acc + sumOf selfConsumed l /\
    EmissionsAcc.totalGridImport r
    == EmissionsAcc.totalGridImport acc
       + sumOf (fun p => orZero (gridImport p)) l /\
    EmissionsAcc.totalEnergyDemand r
    == EmissionsAcc.totalEnergyDemand acc + sumOf energyDemand l.
Proof.
  induction l as [|p l IH]; intro acc; cbv zeta; cbn [fold_left].
  - rewrite !sumOf_nil. repeat split; ring.
  - destruct (IH (emissionsStep acc p)) as (A & B & C).
    cbv zeta in A, B, C.
    change (EmissionsAcc.totalSelfConsumedSolar (emissionsStep acc p))
      with (EmissionsAcc.totalSelfConsumedSolar acc + selfConsumed p) in A.
    change (EmissionsAcc.totalGridImport (emissionsStep acc p))
      with (EmissionsAcc.totalGridImport acc + orZero (gridImport p)) in B.
    change (EmissionsAcc.totalEnergyDemand (emissionsStep acc p))
      with (EmissionsAcc.totalEnergyDemand acc + energyDemand p) in C.
    rewrite !sumOf_cons. repeat split; lra.
Qed.

Lemma cost_fold_totals (ri re : Q) (l : list SolarDataPoint) :
  forall acc,
    let r := fold_left (costStep ri re) l acc in
    CostAcc.totalGridImportCost r
    == CostAcc.totalGridImportCost acc
       + sumOf (fun p => orZero (gridImport p)) l * ri /\
    CostAcc.totalGridExportCredit r
    == CostAcc.totalGridExportCredit acc
       + sumOf (fun p => orZero (excessExport p)) l * re /\
    CostAcc.totalSolarSavings r
    == CostAcc.totalSolarSavings acc + sumOf selfConsumed l * ri /\
    CostAcc.totalCostWithoutSolar r
    == CostAcc.totalCostWithoutSolar acc + sumOf energyDemand l * ri /\
    CostAcc.totalCostWithSolar r
    == CostAcc.totalCostWithSolar acc
       + (sumOf (fun p => orZero (gridImport p)) l * ri
          - sumOf (fun p => orZero (excessExport p)) l * re).
Proof.
  induction l as [|p l IH]; intro acc; cbv zeta; cbn [fold_left].
  - rewrite !sumOf_nil. repeat split; ring.
  - destruct (IH (costStep ri re acc p)) as (A & B & C & D & E).
    cbv zeta in A, B, C, D, E.
    change (CostAcc.totalGridImportCost (costStep ri re acc p))
      with (CostAcc.totalGridImportCost acc + orZero (gridImport p) * ri)
      in A.
    change (CostAcc.totalGridExportCredit (costStep ri re acc p))
      with (CostAcc.totalGridExportCredit acc + orZero (excessExport p) * re)
      in B.
    change (CostAcc.totalSolarSavings (costStep ri re acc p))
      with (CostAcc.totalSolarSavings acc + selfConsumed p * ri) in C.
    change (CostAcc.totalCostWithoutSolar (costStep ri re acc p))
      with (CostAcc.totalCostWithoutSolar acc + energyDemand p * ri) in D.
    change (CostAcc.totalCostWithSolar (costStep ri re acc p))
      with (CostAcc.totalCostWithSolar acc
            + (orZero (gridImport p) * ri - orZero (excessExport p) * re))
      in E.
    rewrite !sumOf_cons.
    repeat split; [rewrite A | rewrite B | rewrite C | rewrite D | rewrite E];
      ring.
Qed.

(** On derived records what is consumed on site and what is imported make
    up the demand, and with non-negative measurements each part lies
    between 0 and the demand. *)
Lemma Derived_selfConsumed (p : SolarDataPoint) :
  Derived p -> selfConsumed p + orZero (gridImport p) == energyDemand p.
Proof.
  intro D. apply Derived_balance in D. unfold selfConsumed. lra.
Qed.

Lemma Derived_Measured_bounds (p : SolarDataPoint) :
  Derived p -> Measured p ->
  0 <= selfConsumed p /\ 0 <= orZero (gridImport p) /\
  0 <= orZero (excessExport p) /\
  orZero (gridImport p) <= energyDemand p /\
  selfConsumed p <= energyDemand p /\
  selfConsumed p <= solarProduction p.
Proof.
  intros [Hg He] [Hs Hd]. unfold selfConsumed.
  qmax 0 (energyDemand p - solarProduction p);
    qmax 0 (solarProduction p - energyDemand p); repeat split; lra.
Qed.

Lemma sumOf_Derived (l : list SolarDataPoint) :
  Forall Derived l ->
  sumOf selfConsumed l + sumOf (fun p => orZero (gridImport p)) l
  == sumOf energyDemand l.
Proof.
  induction 1 as [|p l Hp _ IH].
  - rewrite !sumOf_nil. ring.
  - rewrite !sumOf_cons. pose proof (Derived_selfConsumed p Hp). lra.
Qed.

Lemma sumOf_selfConsumed (l : list SolarDataPoint) :
  sumOf selfConsumed l
  == sumOf solarProduction l - sumOf (fun p => orZero (excessExport p)) l.
Proof.
  induction l as [|p l IH].
  - rewrite !sumOf_nil. ring.
  - rewrite !sumOf_cons, IH. unfold selfConsumed. ring.
Qed.

Lemma sumOf_Derived_Measured (l : list SolarDataPoint) :
  Forall Derived l -> Forall Measured l ->
  0 <= sumOf selfConsumed l /\
  0 <= sumOf (fun p => orZero (gridImport p)) l /\
  0 <= sumOf (fun p => orZero (excessExport p)) l /\
  0 <= sumOf energyDemand l /\
  0 <= sumOf solarProduction l.
Proof.
  intros D M. rewrite Forall_forall in D, M.
  repeat split; apply sumOf_nonneg; intros p Hp;
    try apply (Derived_Measured_bounds p (D p Hp) (M p Hp));
    apply (M p Hp).
Qed.


Lemma percentage_range (a d : Q) :
  0 <= a -> a <= d ->
  0 <= (if Qgtb d 0 then a / d * 100 else 0) <= 100.
Proof.
  intros Ha Hd. destruct (Qgtb d 0) eqn:G; [|lra].
  apply Qgtb_true in G.
  assert (0 <= a / d) by (apply Qle_shift_div_l; lra).
  assert (a / d <= 1) by (apply Qle_shift_div_r; lra).
  lra.
Qed.

(** ** The totals of the summary *)





(** ** Emissions *)

Lemma emissions_totals (data : list SolarDataPoint) :
  let acc := fold_left emissionsStep data (EmissionsAcc.mk 0 0 0) in
  EmissionsAcc.totalGridImport acc
  == sumOf (fun p => orZero (gridImport p)) data /\
  EmissionsAcc.totalEnergyDemand acc == sumOf energyDemand data.
Proof.
  destruct (emissions_fold_totals data (EmissionsAcc.mk 0 0 0))
    as (_ & B & C).
  cbv zeta in *.
  cbn [EmissionsAcc.totalGridImport EmissionsAcc.totalEnergyDemand] in B, C.
  rewrite Qplus_0_l in B, C. split; assumption.
Qed.


Lemma mathRound_nonneg (x : Q) : 0 <= x -> (0 <= mathRound x)%Z.
Proof.
  intro H. unfold mathRound.
  change 0%Z with (Qfloor 0). apply Qfloor_resp_le. lra.
Qed.


Lemma testData_Measured : Forall Measured testData.
Proof. repeat constructor; cbn; lra. Qed.

(** X8. On derived records with non-negative measurements and a
    non-negative factor, the emissions with solar lie between 0 and the
    emissions without, the reduction is not negative, the reduction
    percentage lies between 0 and 100, and the tree equivalent is not
    negative. *)
Theorem calculateEmissionsReduction_bounds
        (data : list SolarDataPoint) (gridEmissionFactor : Q) :
  Forall Derived data -> Forall Measured data -> 0 <= gridEmissionFactor ->
  let r := calculateEmissionsReduction data gridEmissionFactor in
  0 <= Emissions.emissionsWithSolar r /\
  Emissions.emissionsWithSolar r <= Emissions.emissionsWithoutSolar r /\
  0 <= Emissions.emissionsReduction r /\
  0 <= Emissions.reductionPercentage r /\
  Emissions.reductionPercentage r <= 100 /\
  (0 <= Emissions.equivalentTreesPlanted r)%Z.
Proof.
  intros Dv M F r. destruct (emissions_totals data) as (G & D).
  destruct (sumOf_Derived_Measured data Dv M) as (SC & SG & _ & SE & _).
  pose proof (sumOf_Derived data Dv) as SD.
  cbv zeta in *. subst r. unfold calculateEmissionsReduction.
  cbn [Emissions.emissionsWithoutSolar Emissions.emissionsWithSolar
       Emissions.emissionsReduction Emissions.reductionPercentage
       Emissions.equivalentTreesPlanted].
  set (acc := fold_left emissionsStep data _) in *.
  set (f := gridEmissionFactor) in *.
  assert (A1 : 0 <= EmissionsAcc.totalGridImport acc * f)
    by (apply Qmult_le_0_compat; lra).
  assert (A2 : EmissionsAcc.totalGridImport acc * f
               <= EmissionsAcc.totalEnergyDemand acc * f)
    by (apply Qmult_le_compat_r; lra).
  split; [assumption|]. split; [assumption|]. split; [lra|].
  split; [|split].
  - apply percentage_range; lra.
  - apply percentage_range; lra.
  - apply mathRound_nonneg. apply Qle_shift_div_l; [reflexivity | lra].
Qed.

Lemma calculateEmissionsReduction_bounds_witness :
  Forall Derived testData /\ Forall Measured testData /\
  0 <= defaultGridEmissionFactor /\
  let r := calculateEmissionsReduction testData defaultGridEmissionFactor in
  0 <= Emissions.emissionsWithSolar r /\
  Emissions.emissionsWithSolar r <= Emissions.emissionsWithoutSolar r /\
  0 <= Emissions.emissionsReduction r /\
  0 <= Emissions.reductionPercentage r /\
  Emissions.reductionPercentage r <= 100 /\
  (0 <= Emissions.equivalentTreesPlanted r)%Z.
Proof.
  assert (F : 0 <= defaultGridEmissionFactor) by (vm_compute; discriminate).
  split; [exact testData_Derived|]. split; [exact testData_Measured|].
  split; [exact F|].
  apply (calculateEmissionsReduction_bounds
           testData defaultGridEmissionFactor
           testData_Derived testData_Measured F).
Defined.

(** The figures of the specification's example for the factor 0.5. *)
Example calculateEmissionsReduction_testData :
  let r := calculateEmissionsReduction testData defaultGridEmissionFactor in
  Emissions.emissionsWithoutSolar r == 575 # 100 /\
  Emissions.emissionsWithSolar r == 2 /\
  Emissions.emissionsReduction r == 375 # 100 /\
  Emissions.equivalentTreesPlanted r = 0%Z.
Proof. vm_compute. repeat split. Qed.

(** ** Cost savings, continued *)

Lemma cost_totals (ri re : Q) (data : list SolarDataPoint) :
  let acc := fold_left (costStep ri re) data (CostAcc.mk 0 0 0 0 0) in
  CostAcc.totalGridImportCost acc
  == sumOf (fun p => orZero (gridImport p)) data * ri /\
  CostAcc.totalGridExportCredit acc
  == sumOf (fun p => orZero (excessExport p)) data * re /\
  CostAcc.totalSolarSavings acc == sumOf selfConsumed data * ri /\
  CostAcc.totalCostWithoutSolar acc == sumOf energyDemand data * ri /\
  CostAcc.totalCostWithSolar acc
  == sumOf (fun p => orZero (gridImport p)) data * ri
     - sumOf (fun p => orZero (excessExport p)) data * re.
Proof.
  destruct (cost_fold_totals ri re data (CostAcc.mk 0 0 0 0 0))
    as (A & B & C & D & E).
  cbv zeta in *.
  cbn [CostAcc.totalGridImportCost CostAcc.totalGridExportCredit
       CostAcc.totalSolarSavings CostAcc.totalCostWithoutSolar
       CostAcc.totalCostWithSolar] in A, B, C, D, E.
  rewrite Qplus_0_l in A, B, C, D, E. repeat split; assumption.
Qed.

(** X10. On derived records with non-negative measurements and
    non-negative rates solar never costs: the solar savings, the export
    credit, the total savings and the savings percentage are not negative,
    and the cost with solar is at most the cost without. *)
Theorem calculateCostSavings_nonneg
        (data : list SolarDataPoint) (gridImportRate gridExportRate : Q) :
  Forall Derived data -> Forall Measured data ->
  0 <= gridImportRate -> 0 <= gridExportRate ->
  let r := calculateCostSavings data gridImportRate gridExportRate in
  0 <= CostSavings.totalSolarSavings r /\
  0 <= CostSavings.totalGridExportCredit r /\
  0 <= CostSavings.totalSavings r /\
  CostSavings.totalCostWithSolar r <= CostSavings.totalCostWithoutSolar r /\
  0 <= CostSavings.savingsPercentage r.
Proof.
  intros Dv M Ri Re r.
  destruct (cost_totals gridImportRate gridExportRate data)
    as (A & B & C & D & E).
  destruct (sumOf_Derived_Measured data Dv M) as (SC & SG & SX & SE & _).
  pose proof (sumOf_Derived data Dv) as SD.
  cbv zeta in *. subst r. unfold calculateCostSavings.
  cbn [CostSavings.totalSolarSavings CostSavings.totalGridExportCredit
       CostSavings.totalSavings CostSavings.totalCostWithSolar
       CostSavings.totalCostWithoutSolar CostSavings.savingsPercentage].
  set (acc := fold_left (costStep gridImportRate gridExportRate) data _) in *.
  assert (P1 : 0 <= sumOf selfConsumed data * gridImportRate)
    by (apply Qmult_le_0_compat; assumption).
  assert (P2 : 0 <= sumOf (fun p => orZero (excessExport p)) data
                    * gridExportRate)
    by (apply Qmult_le_0_compat; assumption).
  assert (P3 : sumOf energyDemand data * gridImportRate
               == sumOf selfConsumed data * gridImportRate
                  + sumOf (fun p => orZero (gridImport p)) data
                    * gridImportRate)
    by (rewrite <- SD; ring).
  assert (S : 0 <= CostAcc.totalCostWithoutSolar acc
                   - CostAcc.totalCostWithSolar acc) by lra.
  split; [lra|]. split; [lra|]. split; [assumption|]. split; [lra|].
  destruct (Qgtb (CostAcc.totalCostWithoutSolar acc) 0) eqn:G; [|lra].
  apply Qgtb_true in G.
  assert (0 <= (CostAcc.totalCostWithoutSolar acc
                - CostAcc.totalCostWithSolar acc)
               / CostAcc.totalCostWithoutSolar acc)
    by (apply Qle_shift_div_l; lra).
  lra.
Qed.

Lemma calculateCostSavings_nonneg_witness :
  Forall Derived testData /\ Forall Measured testData /\
  0 <= defaultGridImportRate /\ 0 <= defaultGridExportRate /\
  let r := calculateCostSavings testData defaultGridImportRate
                                defaultGridExportRate in
  0 <= CostSavings.totalSolarSavings r /\
  0 <= CostSavings.totalGridExportCredit r /\
  0 <= CostSavings.totalSavings r /\
  CostSavings.totalCostWithSolar r <= CostSavings.totalCostWithoutSolar r /\
  0 <= CostSavings.savingsPercentage r.
Proof.
  assert (Ri : 0 <= defaultGridImportRate) by (vm_compute; discriminate).
  assert (Re : 0 <= defaultGridExportRate) by (vm_compute; discriminate).
  split; [exact testData_Derived|]. split; [exact testData_Measured|].
  split; [exact Ri|]. split; [exact Re|].
  apply (calculateCostSavings_nonneg
           testData defaultGridImportRate defaultGridExportRate
           testData_Derived testData_Measured Ri Re).
Defined.

(** ** The grouping loops of the aggregations *)

Section KeyFacts.
Variable key : SolarDataPoint -> string.

Lemma keysOf_snoc (l : list SolarDataPoint) (p : SolarDataPoint) :
  keysOf key (l ++ [p]) = JsSet.add (keysOf key l) (key p).
Proof.
  unfold keysOf, JsSet.ofList. now rewrite map_app, fold_left_app.
Qed.

Lemma keysOf_NoDup (l : list SolarDataPoint) : NoDup (keysOf key l).
Proof.
  unfold keysOf, JsSet.ofList.
  apply (JsSet_ofList_spec (map key l) [] (NoDup_nil _)).
Qed.

Lemma keysOf_In (l : list SolarDataPoint) (k : string) :
  In k (keysOf key l) <-> exists p, In p l /\ key p = k.
Proof.
  unfold keysOf, JsSet.ofList.
  destruct (JsSet_ofList_spec (map key l) [] (NoDup_nil _)) as [_ M].
  rewrite M, in_map_iff. cbn. firstorder.
Qed.

Lemma keysOf_length (l : list SolarDataPoint) :
  List.length (keysOf key l)
  = List.length (nodup string_dec (map key l)).
Proof.
  pose proof (JsSet_size_distinct (map key l)) as H.
  unfold JsSet.size in H. apply Nat2Z.inj in H. exact H.
Qed.

Lemma withKey_snoc (k : string) (l : list SolarDataPoint)
      (p : SolarDataPoint) :
  withKey key k (l ++ [p])
  = withKey key k l ++ (if String.eqb (key p) k then [p] else []).
Proof. unfold withKey. rewrite filter_app. reflexivity. Qed.

Lemma withKey_In (k : string) (l : list SolarDataPoint) (p : SolarDataPoint) :
  In p (withKey key k l) <-> In p l /\ key p = k.
Proof. unfold withKey. now rewrite filter_In, String.eqb_eq. Qed.

Lemma withKey_absent (k : string) (l : list SolarDataPoint) :
  ~ In k (keysOf key l) -> withKey key k l = [].
Proof.
  intro N. destruct (withKey key k l) as [|p r] eqn:E; [reflexivity|].
  exfalso. apply N. apply keysOf_In. exists p.
  apply withKey_In. rewrite E. now left.
Qed.

Lemma withKey_present (k : string) (l : list SolarDataPoint) :
  In k (keysOf key l) -> withKey key k l <> [].
Proof.
  intros H E. apply keysOf_In in H. destruct H as (p & Hp & Hk).
  assert (In p (withKey key k l)) as I by (apply withKey_In; auto).
  rewrite E in I. contradiction.
Qed.

End KeyFacts.

Section KeyedLoopFacts.
Context {V : Type}.
Variable key : SolarDataPoint -> string.
Variable create : SolarDataPoint -> V.
Variable add : V -> SolarDataPoint -> V.
Variable dflt : V.

Lemma entryOf_snoc_same (l : list SolarDataPoint) (p : SolarDataPoint) :
  entryOf key create add dflt (l ++ [p]) (key p)
  = match withKey key (key p) l with
    | [] => add (create p) p
    | _ :: _ => add (entryOf key create add dflt l (key p)) p
    end.
Proof.
  unfold entryOf. rewrite withKey_snoc, String.eqb_refl.
  destruct (withKey key (key p) l) as [|first rest]; cbn [app].
  - reflexivity.
  - cbn [fold_left]. now rewrite fold_left_app.
Qed.

Lemma entryOf_snoc_other (l : list SolarDataPoint) (p : SolarDataPoint)
      (k : string) :
  key p <> k ->
  entryOf key create add dflt (l ++ [p]) k = entryOf key create add dflt l k.
Proof.
  intro N. unfold entryOf. rewrite withKey_snoc.
  destruct (String.eqb_spec (key p) k) as [E | _]; [contradiction|].
  now rewrite app_nil_r.
Qed.

(** The map the loop builds has one entry per distinct key, in order of
    first appearance, made from the first record of the key and holding
    what the key's records add to it. *)
Lemma keyed_table (data : list SolarDataPoint) :
  fold_left (keyedStep key create add) data []
  = table (entryOf key create add dflt data) (keysOf key data).
Proof.
  induction data as [|p data IH] using rev_ind.
  - reflexivity.
  - rewrite fold_left_app, IH. cbn [fold_left]. unfold keyedStep.
    rewrite keysOf_snoc. unfold JsSet.add.
    destruct (JsSet.has (keysOf key data) (key p)) eqn:H.
    + apply JsSet_has_In in H.
      rewrite (proj2 (table_has String.eqb String.eqb_spec _ _ _) H).
      cbn [negb].
      rewrite (table_get String.eqb String.eqb_spec _ _ _ H).
      rewrite (table_set String.eqb String.eqb_spec _ _ _ _
                 (keysOf_NoDup key data) H).
      apply map_ext. intro k. f_equal.
      destruct (String.eqb_spec (key p) k) as [<- | N].
      * rewrite entryOf_snoc_same.
        pose proof (withKey_present key _ _ H) as P.
        destruct (withKey key (key p) data); [contradiction | reflexivity].
      * now rewrite entryOf_snoc_other.
    + assert (N : ~ In (key p) (keysOf key data)).
      { intro I. apply JsSet_has_In in I. congruence. }
      assert (Hh : JsMap.has String.eqb
                     (table (entryOf key create add dflt data)
                            (keysOf key data)) (key p) = false).
      { destruct (JsMap.has String.eqb _ (key p)) eqn:E; [|reflexivity].
        apply (table_has String.eqb String.eqb_spec) in E. contradiction. }
      rewrite Hh. cbn [negb].
      rewrite (JsMap_get_set_same String.eqb String.eqb_refl).
      rewrite (table_set_absent String.eqb String.eqb_spec _ _ _ _ N).
      assert (S : forall (m : JsMap.t (K := string) (V := V)) k v v',
                 JsMap.get String.eqb m k = None ->
                 JsMap.set String.eqb (m ++ [(k, v)]) k v' = m ++ [(k, v')]).
      { intros m k v v'. induction m as [|[k0 v0] m IHm];
          cbn [JsMap.get JsMap.set app]; intro G0.
        - now rewrite String.eqb_refl.
        - destruct (String.eqb k k0); [discriminate|]. f_equal. auto. }
      rewrite S by (apply (table_get_absent String.eqb String.eqb_spec);
                    assumption).
      unfold table. rewrite map_app. cbn [map]. f_equal.
      * apply map_ext_in. intros k Hk. f_equal.
        apply eq_sym, entryOf_snoc_other. intro E. subst k. contradiction.
      * rewrite entryOf_snoc_same, (withKey_absent key _ _ N). reflexivity.
Qed.

End KeyedLoopFacts.

(** ** Sorting with a consistent comparator *)

Section SortedFacts.
Context {A : Type}.
Variable cmp : A -> A -> Q.
Variable le : A -> A -> Prop.
Hypothesis le_trans : forall x y z, le x y -> le y z -> le x z.
Hypothesis cmp_lt : forall x y, Qltb (cmp y x) 0 = true -> le y x.
Hypothesis cmp_ge : forall x y, Qltb (cmp y x) 0 = false -> le x y.

Lemma insert_In (x z : A) (l : list A) :
  In z (JsArray.insert cmp x l) <-> z = x \/ In z l.
Proof.
  split.
  - intro H. apply (Permutation_in _ (insert_perm cmp x l)) in H.
    destruct H; auto.
  - intro H. apply (Permutation_in _ (Permutation_sym (insert_perm cmp x l))).
    destruct H; [left | right]; auto.
Qed.

Lemma insert_sorted (x : A) (l : list A) :
  StronglySorted le l -> StronglySorted le (JsArray.insert cmp x l).
Proof.
  induction 1 as [|y l S IH F]; cbn [JsArray.insert].
  - repeat constructor.
  - destruct (Qltb (cmp y x) 0) eqn:E.
    + constructor; [exact IH|]. apply Forall_forall. intros z Hz.
      apply insert_In in Hz. destruct Hz as [-> | Hz].
      * now apply cmp_lt.
      * now apply (proj1 (Forall_forall _ _) F).
    + constructor; [now constructor|]. constructor; [now apply cmp_ge|].
      apply Forall_forall. intros z Hz.
      apply (le_trans x y z); [now apply cmp_ge|].
      now apply (proj1 (Forall_forall _ _) F).
Qed.

Lemma sort_sorted (l : list A) : StronglySorted le (JsArray.sort cmp l).
Proof.
  unfold JsArray.sort. induction l as [|x l IH]; cbn [fold_right].
  - constructor.
  - now apply insert_sorted.
Qed.

End SortedFacts.

(** ** The month key *)

Lemma string_of_uint_dashFree (d : Decimal.uint) :
  dashFree (NilEmpty.string_of_uint d) = true.
Proof. induction d; cbn; auto. Qed.

Lemma numberToString_shape (n : Z) :
  exists c rest, numberToString n = String c rest /\ dashFree rest = true.
Proof.
  unfold numberToString. destruct n as [|p|p]; cbn.
  - exists "0"%char, EmptyString. split; reflexivity.
  - pose proof (string_of_uint_dashFree (Pos.to_uint p)) as D.
    pose proof (DecimalPos.Unsigned.to_uint_nonnil p) as N.
    unfold NilZero.string_of_uint.
    destruct (Pos.to_uint p) eqn:E; try contradiction;
      cbn in D |- *; eexists _, _; (split; [reflexivity|]);
      try exact D; now apply andb_prop in D.
  - pose proof (string_of_uint_dashFree (Pos.to_uint p)) as D.
    pose proof (DecimalPos.Unsigned.to_uint_nonnil p) as N.
    exists "-"%char, (NilZero.string_of_uint (Pos.to_uint p)).
    split; [reflexivity|]. unfold NilZero.string_of_uint.
    destruct (Pos.to_uint p); try contradiction; exact D.
Qed.

Lemma numberToString_inj (n m : Z) :
  numberToString n = numberToString m -> n = m.
Proof.
  unfold numberToString. intro H.
  assert (P : forall z, NilZero.int_of_string
                          (NilZero.string_of_int (Z.to_int z))
                        = Some (Z.to_int z)).
  { intro z. apply NilZero.isi; destruct z; cbn; try discriminate;
      intro E; injection E as E;
      now apply DecimalPos.Unsigned.to_uint_nonnil in E. }
  pose proof (P n) as Pn. rewrite H, P in Pn. injection Pn as Pn.
  symmetry. now apply DecimalZ.to_int_inj.
Qed.

Lemma untilDash_app (r t : string) :
  dashFree r = true -> untilDash (r ++ String "-" t) = r.
Proof.
  induction r as [|c r IH]; cbn; intro D.
  - reflexivity.
  - apply andb_prop in D. destruct D as [D1 D2].
    destruct (Ascii.eqb c "-"); [discriminate|]. now rewrite IH.
Qed.

Lemma append_inj_r (s t t' : string) : (s ++ t = s ++ t')%string -> t = t'.
Proof.
  induction s as [|c s IH]; cbn; intro H; [assumption|].
  injection H as H. auto.
Qed.

(** Two records have the same month key exactly when they have the same
    year and the same month. *)
Lemma monthKey_inj (p q : SolarDataPoint) :
  monthKey p = monthKey q <-> year p = year q /\ month p = month q.
Proof.
  split.
  - unfold monthKey. intro H.
    destruct (numberToString_shape (year p)) as (c & r & E & D).
    destruct (numberToString_shape (year q)) as (c' & r' & E' & D').
    assert (Y : numberToString (year p) = numberToString (year q)).
    { apply (f_equal keyYear) in H. rewrite E, E' in H |- *. cbn in H.
      rewrite (untilDash_app r _ D), (untilDash_app r' _ D') in H.
      exact H. }
    rewrite Y in H. apply append_inj_r in H. injection H as H.
    split; now apply numberToString_inj.
  - unfold monthKey. now intros [-> ->].
Qed.

Lemma monthKey_eqb (p q : SolarDataPoint) :
  String.eqb (monthKey p) (monthKey q)
  = ((year p =? year q)%Z && (month p =? month q)%Z).
Proof.
  destruct (String.eqb_spec (monthKey p) (monthKey q)) as [E | N].
  - apply monthKey_inj in E. destruct E as [-> ->].
    now rewrite !Z.eqb_refl.
  - destruct (Z.eqb_spec (year p) (year q)) as [Y|]; [|reflexivity].
    destruct (Z.eqb_spec (month p) (month q)) as [M|]; [|reflexivity].
    exfalso. apply N. apply monthKey_inj. auto.
Qed.

Lemma withKey_monthKey (q : SolarDataPoint) (data : list SolarDataPoint) :
  withKey monthKey (monthKey q) data = inMonth (year q) (month q) data.
Proof.
  unfold withKey, inMonth. apply filter_ext. intro p. apply monthKey_eqb.
Qed.

Example monthKey_sample :
  monthKey (samplePoint "2025-01-01" 10 5 2) = "2025-1"%string.
Proof. reflexivity. Qed.

(** ** The daily aggregation, entry by entry *)

Lemma dayStep_keyed :
  dayStep = keyedStep date dayCreate dayAdd.
Proof. reflexivity. Qed.

Lemma dayAdd_fold (pts : list SolarDataPoint) :
  forall e,
    let r := fold_left dayAdd pts e in
    Daily.date r = Daily.date e /\
    Daily.netEnergy r = Daily.netEnergy e /\
    forall q, ofDaily q r == ofDaily q e + sumOf (ofPoint q) pts.
Proof.
  induction pts as [|p pts IH]; intro e; cbv zeta; cbn [fold_left].
  - split; [reflexivity|]. split; [reflexivity|].
    intro q. rewrite sumOf_nil. ring.
  - destruct (IH (dayAdd e p)) as (A & B & C). cbv zeta in A, B, C.
    split; [exact A|]. split; [exact B|].
    intro q. rewrite (C q), sumOf_cons.
    destruct q; cbn [ofDaily ofPoint dayAdd Daily.solarProduction
                     Daily.energyDemand Daily.gridImport Daily.excessExport];
      ring.
Qed.

Lemma aggregateByDay_entries_perm (getTime : string -> Z)
      (data : list SolarDataPoint) :
  aggregateByDay getTime data
  = JsArray.sort (byDate getTime) (dayEntries data).
Proof.
  unfold aggregateByDay, dayEntries. rewrite dayStep_keyed.
  rewrite (keyed_table date dayCreate dayAdd
                       (dayCreate (samplePoint "" 0 0 0)) data).
  rewrite table_values, map_map. reflexivity.
Qed.

Lemma dayEntry_spec (data : list SolarDataPoint) (d : string) :
  In d (dates data) ->
  let e := setNetEnergy
             (entryOf date dayCreate dayAdd
                      (dayCreate (samplePoint "" 0 0 0)) data d) in
  Daily.date e = d /\
  Daily.netEnergy e = Daily.solarProduction e - Daily.energyDemand e /\
  forall q, ofDaily q e == sumOf (ofPoint q) (onDate d data).
Proof.
  intros H e. subst e. unfold entryOf.
  pose proof (withKey_present date d data H) as P.
  change (withKey date d data) with (onDate d data) in *.
  destruct (onDate d data) as [|first rest] eqn:E; [contradiction|].
  assert (F : date first = d).
  { apply (onDate_In d data first). rewrite E. now left. }
  destruct (dayAdd_fold (first :: rest) (dayCreate first)) as (A & _ & C).
  cbv zeta in A, C. split; [|split].
  - cbn [setNetEnergy Daily.date]. rewrite A. exact F.
  - reflexivity.
  - intro q. specialize (C q).
    destruct q; cbn [ofDaily setNetEnergy Daily.solarProduction
                     Daily.energyDemand Daily.gridImport Daily.excessExport
                     dayCreate] in C |- *; lra.
Qed.

Lemma dayEntries_dates (data : list SolarDataPoint) :
  map Daily.date (dayEntries data) = dates data.
Proof.
  unfold dayEntries. rewrite map_map.
  transitivity (map (fun d : string => d) (dates data)); [|apply map_id].
  apply map_ext_in. intros d H. apply (dayEntry_spec data d H).
Qed.

(** X14. [aggregateByDay] returns one entry per distinct date of the
    collection and no other: the dates of the entries are distinct, a date
    has an entry exactly when a record has it, and each entry holds the
    sums of [solarProduction], [energyDemand], [gridImport] and
    [excessExport] over the records of its date, with [netEnergy] the
    production sum less the demand sum. *)
Theorem aggregateByDay_entries
        (getTime : string -> Z) (data : list SolarDataPoint) :
  let days := aggregateByDay getTime data in
  NoDup (map Daily.date days) /\
  (forall d, In d (map Daily.date days) <->
             exists p, In p data /\ date p = d) /\
  List.length days = List.length (nodup string_dec (map date data)) /\
  forall e, In e days ->
    Daily.solarProduction e
    == sumOf solarProduction (onDate (Daily.date e) data) /\
    Daily.energyDemand e == sumOf energyDemand (onDate (Daily.date e) data) /\
    Daily.gridImport e
    == sumOf (fun p => orZero (gridImport p)) (onDate (Daily.date e) data) /\
    Daily.excessExport e
    == sumOf (fun p => orZero (excessExport p))
             (onDate (Daily.date e) data) /\
    Daily.netEnergy e = Daily.solarProduction e - Daily.energyDemand e.
Proof.
  intro days. subst days. rewrite aggregateByDay_entries_perm.
  pose proof (sort_perm (byDate getTime) (dayEntries data)) as P.
  pose proof (Permutation_map Daily.date P) as PD.
  rewrite dayEntries_dates in PD.
  split; [|split; [|split]].
  - apply (Permutation_NoDup (Permutation_sym PD)), dates_NoDup.
  - intro d. rewrite <- dates_In. split; apply Permutation_in;
      [exact PD | exact (Permutation_sym PD)].
  - rewrite (Permutation_length P). unfold dayEntries. rewrite length_map.
    apply (keysOf_length date).
  - intros e He. apply (Permutation_in _ P) in He.
    unfold dayEntries in He. apply in_map_iff in He.
    destruct He as (d & <- & Hd).
    destruct (dayEntry_spec data d Hd) as (A & B & C). cbv zeta in A, B, C.
    rewrite A. split; [exact (C Production)|]. split; [exact (C Demand)|].
    split; [exact (C Import)|]. split; [exact (C Export) | exact B].
Qed.


(** ** The monthly aggregation *)

Lemma monthStep_keyed :
  monthStep = keyedStep monthKey monthCreate monthAdd.
Proof. reflexivity. Qed.

Lemma monthAdd_fold (pts : list SolarDataPoint) :
  forall e,
    let r := fold_left monthAdd pts e in
    Monthly.year r = Monthly.year e /\
    Monthly.month r = Monthly.month e /\
    Monthly.monthName r = Monthly.monthName e /\
    forall q, ofMonthly q r == ofMonthly q e + sumOf (ofPoint q) pts.
Proof.
  induction pts as [|p pts IH]; intro e; cbv zeta; cbn [fold_left].
  - do 3 (split; [reflexivity|]). intro q. rewrite sumOf_nil. ring.
  - destruct (IH (monthAdd e p)) as (A & B & N & C). cbv zeta in A, B, N, C.
    split; [exact A|]. split; [exact B|]. split; [exact N|].
    intro q. rewrite (C q), sumOf_cons.
    destruct q; cbn [ofMonthly ofPoint monthAdd Monthly.solarProduction
                     Monthly.energyDemand Monthly.gridImport
                     Monthly.excessExport]; ring.
Qed.

Lemma aggregateByMonth_entries_perm (data : list SolarDataPoint) :
  aggregateByMonth data = JsArray.sort byYearMonth (monthEntries data).
Proof.
  unfold aggregateByMonth, monthEntries. rewrite monthStep_keyed.
  rewrite (keyed_table monthKey monthCreate monthAdd
                       (monthCreate (samplePoint "" 0 0 0)) data).
  rewrite table_values, map_map. reflexivity.
Qed.

Lemma monthDerive_fields (m : Monthly.t) :
  Monthly.year (monthDerive m) = Monthly.year m /\
  Monthly.month (monthDerive m) = Monthly.month m /\
  Monthly.monthName (monthDerive m) = Monthly.monthName m /\
  forall q, ofMonthly q (monthDerive m) = ofMonthly q m.
Proof. repeat split; try reflexivity. Qed.

(** The entry of a key: made from the key's first record, holding the sums
    over the records of that record's year and month. *)
Lemma monthEntry_spec (data : list SolarDataPoint) (k : string) :
  In k (keysOf monthKey data) ->
  let e := monthDerive
             (entryOf monthKey monthCreate monthAdd
                      (monthCreate (samplePoint "" 0 0 0)) data k) in
  exists first,
    In first data /\ monthKey first = k /\
    Monthly.year e = year first /\ Monthly.month e = month first /\
    Monthly.monthName e = monthName first /\
    forall q,
      ofMonthly q e
      == sumOf (ofPoint q) (inMonth (year first) (month first) data).
Proof.
  intros H e. subst e. unfold entryOf.
  pose proof (withKey_present monthKey k data H) as P.
  destruct (withKey monthKey k data) as [|first rest] eqn:E; [contradiction|].
  assert (F : In first data /\ monthKey first = k).
  { apply (withKey_In monthKey k data first). rewrite E. now left. }
  destruct F as [F1 F2]. exists first.
  destruct (monthAdd_fold (first :: rest) (monthCreate first))
    as (A & B & N & C).
  cbv zeta in A, B, N, C.
  destruct (monthDerive_fields
              (fold_left monthAdd (first :: rest) (monthCreate first)))
    as (DA & DB & DN & DC).
  split; [exact F1|]. split; [exact F2|].
  split; [now rewrite DA, A|]. split; [now rewrite DB, B|].
  split; [now rewrite DN, N|].
  intro q. rewrite DC, (C q), <- withKey_monthKey, F2, E.
  destruct q; cbn [ofMonthly monthCreate Monthly.solarProduction
                   Monthly.energyDemand Monthly.gridImport
                   Monthly.excessExport]; ring.
Qed.

Lemma monthEntries_yearMonth_NoDup (data : list SolarDataPoint) :
  NoDup (map yearMonth (monthEntries data)).
Proof.
  unfold monthEntries. rewrite map_map.
  apply Finite.Injective_map_NoDup_in; [|apply keysOf_NoDup].
  intros k k' Hk Hk' E.
  destruct (monthEntry_spec data k Hk) as (f & _ & K & Y & M & _).
  destruct (monthEntry_spec data k' Hk') as (f' & _ & K' & Y' & M' & _).
  cbv zeta in Y, M, Y', M'.
  cbn [monthDerive Monthly.year Monthly.month] in Y, M, Y', M'.
  unfold yearMonth in E. injection E as E1 E2.
  rewrite <- K, <- K'. apply monthKey_inj. split; congruence.
Qed.

(** X16. [aggregateByMonth] returns one entry per distinct (year, month)
    pair of the collection and no other: the pairs of the entries are
    distinct, a pair has an entry exactly when a record has it, the entry
    carries the month name of a record of that month, the sums of the four
    quantities over the records of that year and month, and [netEnergy] as
    the production sum less the demand sum. *)
Theorem aggregateByMonth_entries (data : list SolarDataPoint) :
  let months := aggregateByMonth data in
  NoDup (map yearMonth months) /\
  (forall y m, In (y, m) (map yearMonth months) <->
               exists p, In p data /\ year p = y /\ month p = m) /\
  forall e, In e months ->
    let rs := inMonth (Monthly.year e) (Monthly.month e) data in
    (exists p, In p rs /\ Monthly.monthName e = monthName p) /\
    Monthly.solarProduction e == sumOf solarProduction rs /\
    Monthly.energyDemand e == sumOf energyDemand rs /\
    Monthly.gridImport e == sumOf (fun p => orZero (gridImport p)) rs /\
    Monthly.excessExport e == sumOf (fun p => orZero (excessExport p)) rs /\
    Monthly.netEnergy e = Monthly.solarProduction e - Monthly.energyDemand e.
Proof.
  intro months. subst months. rewrite aggregateByMonth_entries_perm.
  pose proof (sort_perm byYearMonth (monthEntries data)) as P.
  split; [|split].
  - apply (Permutation_NoDup (Permutation_sym (Permutation_map yearMonth P))).
    apply monthEntries_yearMonth_NoDup.
  - intros y m. split.
    + intro H. apply (Permutation_in _ (Permutation_map yearMonth P)) in H.
      apply in_map_iff in H. destruct H as (e & E & He).
      unfold monthEntries in He. apply in_map_iff in He.
      destruct He as (k & <- & Hk).
      destruct (monthEntry_spec data k Hk) as (f & F & _ & Y & M & _).
      cbv zeta in Y, M. unfold yearMonth in E. injection E as <- <-.
      exists f. auto.
    + intros (p & Hp & <- & <-).
      apply (Permutation_in _ (Permutation_sym (Permutation_map yearMonth P))).
      assert (Hk : In (monthKey p) (keysOf monthKey data))
        by (apply keysOf_In; eauto).
      destruct (monthEntry_spec data _ Hk) as (f & _ & K & Y & M & _).
      cbv zeta in Y, M. apply monthKey_inj in K. destruct K as [K1 K2].
      apply in_map_iff. eexists. split;
        [|unfold monthEntries; apply in_map; exact Hk].
      unfold yearMonth. congruence.
  - intros e He. apply (Permutation_in _ P) in He.
    unfold monthEntries in He. apply in_map_iff in He.
    destruct He as (k & <- & Hk).
    destruct (monthEntry_spec data k Hk) as (f & F & K & Y & M & N & C).
    cbv zeta in Y, M, N, C |- *. rewrite Y, M.
    split.
    { exists f. split; [|exact N]. unfold inMonth. apply filter_In.
      split; [exact F|]. now rewrite !Z.eqb_refl. }
    split; [exact (C Production)|]. split; [exact (C Demand)|].
    split; [exact (C Import)|]. split; [exact (C Export) | reflexivity].
Qed.

(** Each entry has its two percentages computed from its own totals. *)
Lemma monthEntry_percentages (data : list SolarDataPoint) :
  forall e, In e (aggregateByMonth data) ->
    Monthly.selfConsumptionPercentage e
    = (if Qgtb (Monthly.solarProduction e) 0
       then (Monthly.solarProduction e - Monthly.excessExport e)
            / Monthly.solarProduction e * 100
       else 0) /\
    Monthly.gridDependencyPercentage e
    = (if Qgtb (Monthly.energyDemand e) 0
       then Monthly.gridImport e / Monthly.energyDemand e * 100
       else 0).
Proof.
  intros e He. rewrite aggregateByMonth_entries_perm in He.
  apply (Permutation_in _ (sort_perm byYearMonth (monthEntries data))) in He.
  unfold monthEntries in He. apply in_map_iff in He.
  destruct He as (k & <- & _). split; reflexivity.
Qed.

Lemma monthEntry_sums (data : list SolarDataPoint) :
  forall e, In e (aggregateByMonth data) ->
    exists rs, incl rs data /\
               forall q, ofMonthly q e == sumOf (ofPoint q) rs.
Proof.
  intros e He. rewrite aggregateByMonth_entries_perm in He.
  apply (Permutation_in _ (sort_perm byYearMonth (monthEntries data))) in He.
  unfold monthEntries in He. apply in_map_iff in He.
  destruct He as (k & <- & Hk).
  destruct (monthEntry_spec data k Hk) as (f & _ & _ & _ & _ & _ & C).
  cbv zeta in C. exists (inMonth (year f) (month f) data).
  split; [|exact C].
  intros p Hp. unfold inMonth in Hp. now apply filter_In in Hp.
Qed.

(** X17. On derived records with non-negative measurements, every entry
    of [aggregateByMonth] has both percentages between 0 and 100, its
    import no greater than its demand and its export no greater than its
    production.  Each percentage is the quotient of the entry's own totals
    times 100, or 0 when the divisor is not positive. *)
Theorem aggregateByMonth_percentages (data : list SolarDataPoint) :
  Forall Derived data -> Forall Measured data ->
  Forall (fun e =>
            0 <= Monthly.selfConsumptionPercentage e <= 100 /\
            0 <= Monthly.gridDependencyPercentage e <= 100 /\
            0 <= Monthly.gridImport e <= Monthly.energyDemand e /\
            0 <= Monthly.excessExport e <= Monthly.solarProduction e)
         (aggregateByMonth data).
Proof.
  intros D M. apply Forall_forall. intros e He.
  destruct (monthEntry_percentages data e He) as [S G].
  destruct (monthEntry_sums data e He) as (rs & I & C).
  rewrite Forall_forall in D, M.
  assert (B : forall p, In p rs ->
                        0 <= orZero (gridImport p) <= energyDemand p /\
                        0 <= orZero (excessExport p) <= solarProduction p).
  { intros p Hp.
    pose proof (Derived_Measured_bounds p (D p (I p Hp)) (M p (I p Hp))) as B.
    unfold selfConsumed in B. lra. }
  pose proof (C Production) as CP. pose proof (C Demand) as CD.
  pose proof (C Import) as CI. pose proof (C Export) as CE.
  cbn [ofMonthly] in CP, CD, CI, CE.
  assert (I0 : 0 <= sumOf (ofPoint Import) rs)
    by (apply sumOf_nonneg; intros p Hp; apply (B p Hp)).
  assert (E0 : 0 <= sumOf (ofPoint Export) rs)
    by (apply sumOf_nonneg; intros p Hp; apply (B p Hp)).
  assert (I1 : sumOf (ofPoint Import) rs <= sumOf (ofPoint Demand) rs)
    by (apply sumOf_le; intros p Hp; apply (B p Hp)).
  assert (E1 : sumOf (ofPoint Export) rs <= sumOf (ofPoint Production) rs)
    by (apply sumOf_le; intros p Hp; apply (B p Hp)).
  rewrite S, G.
  split; [apply percentage_range; lra|].
  split; [apply percentage_range; lra|].
  split; lra.
Qed.

Lemma aggregateByMonth_percentages_witness :
  Forall Derived testData /\ Forall Measured testData /\
  Forall (fun e =>
            0 <= Monthly.selfConsumptionPercentage e <= 100 /\
            0 <= Monthly.gridDependencyPercentage e <= 100 /\
            0 <= Monthly.gridImport e <= Monthly.energyDemand e /\
            0 <= Monthly.excessExport e <= Monthly.solarProduction e)
         (aggregateByMonth testData).
Proof.
  split; [exact testData_Derived|]. split; [exact testData_Measured|].
  exact (aggregateByMonth_percentages testData testData_Derived
                                      testData_Measured).
Defined.

(** X18. The entries [aggregateByMonth] returns are in ascending order of
    year and, within a year, of month. *)
Theorem aggregateByMonth_sorted (data : list SolarDataPoint) :
  StronglySorted yearMonthLe (aggregateByMonth data).
Proof.
  unfold aggregateByMonth. apply sort_sorted.
  - unfold yearMonthLe. intros x y z. lia.
  - intros x y H. apply Qltb_true in H. unfold byYearMonth in H.
    unfold yearMonthLe.
    destruct (Z.eqb_spec (Monthly.year y) (Monthly.year x)) as [E | N];
      cbn [negb] in H; change 0 with (inject_Z 0) in H;
      rewrite <- Zlt_Qlt in H; lia.
  - intros x y H. apply Qltb_false in H. unfold byYearMonth in H.
    unfold yearMonthLe.
    destruct (Z.eqb_spec (Monthly.year y) (Monthly.year x)) as [E | N];
      cbn [negb] in H; change 0 with (inject_Z 0) in H;
      rewrite <- Zle_Qle in H; lia.
Qed.

(** The month of the repository's test. *)
Example aggregateByMonth_testData :
  map (fun m => (Monthly.year m, Monthly.month m, Monthly.monthName m,
                 Qred (Monthly.solarProduction m),
                 Qred (Monthly.energyDemand m),
                 Qred (Monthly.selfConsumptionPercentage m),
                 Qred (Monthly.gridDependencyPercentage m)))
      (aggregateByMonth testData)
  = [(2025%Z, 1%Z, "January"%string, 31 # 2, 23 # 2, 1500 # 31, 800 # 23)].
Proof. vm_compute. reflexivity. Qed.

(** ** More on the hourly aggregation *)

Lemma hourStep_fold_None (l : list SolarDataPoint) :
  fold_left hourStep l None = None.
Proof. induction l; cbn; auto. Qed.

Lemma first_out_of_range (l : list SolarDataPoint) :
  Exists (fun p => ~ (0 <= hour p < 24)%Z) l ->
  exists pre p post,
    l = pre ++ p :: post /\
    Forall (fun p => (0 <= hour p < 24)%Z) pre /\
    ~ (0 <= hour p < 24)%Z.
Proof.
  induction l as [|x l IH]; intro H.
  - inversion H.
  - destruct (Z_le_dec 0 (hour x)) as [L|L];
      [destruct (Z_lt_dec (hour x) 24) as [U|U]|].
    + inversion H as [? ? B | ? ? T]; subst; [lia|].
      destruct (IH T) as (pre & p & post & -> & F & B).
      exists (x :: pre), p, post. split; [reflexivity|].
      split; [constructor; [lia | exact F] | exact B].
    + exists [], x, l. split; [reflexivity|]. split; [constructor | lia].
    + exists [], x, l. split; [reflexivity|]. split; [constructor | lia].
Qed.

(** X20. [aggregateByHour] throws exactly when some record's hour lies
    outside 0..23: the record has no entry in the map of the 24 hours. *)
Theorem aggregateByHour_throws_iff (data : list SolarDataPoint) :
  aggregateByHour data = None
  <-> Exists (fun p => ~ (0 <= hour p < 24)%Z) data.
Proof.
  split.
  - intro H.
    destruct (Forall_Exists_dec (fun p => (0 <= hour p < 24)%Z))
      with (l := data)
      as [F | E].
    + intro p. destruct (Z_le_dec 0 (hour p)); [|right; lia].
      destruct (Z_lt_dec (hour p) 24); [left; lia | right; lia].
    + rewrite (aggregateByHour_table data F) in H. discriminate.
    + exact E.
  - intro E. destruct (first_out_of_range data E)
      as (pre & p & post & -> & F & B).
    unfold aggregateByHour.
    rewrite fold_left_app, (hourStep_fold pre F). cbn [fold_left hourStep].
    rewrite (table_get_absent Z.eqb Z.eqb_spec);
      [|intro I; apply hours24_In in I; contradiction].
    now rewrite hourStep_fold_None.
Qed.

(** ** More on the filter engine *)

Lemma filter_idem {A : Type} (f : A -> bool) (l : list A) :
  filter f (filter f l) = filter f l.
Proof.
  induction l as [|x l IH]; cbn [filter]; [reflexivity|].
  destruct (f x) eqn:E; cbn [filter]; [rewrite E; f_equal|]; exact IH.
Qed.

Lemma filter_comm {A : Type} (f g : A -> bool) (l : list A) :
  filter f (filter g l) = filter g (filter f l).
Proof.
  induction l as [|x l IH]; cbn [filter]; [reflexivity|].
  destruct (f x) eqn:Ef; destruct (g x) eqn:Eg; cbn [filter];
    rewrite ?Ef, ?Eg, IH; reflexivity.
Qed.

(** X22. Filtering is idempotent, and two filters apply in either order:
    filtering a filtered collection with the same options changes nothing,
    and filtering with [f] then [g] gives what [g] then [f] gives, which
    keeps exactly the records both keep. *)
Theorem filterData_idempotent_commutative
        (data : list SolarDataPoint) (f g : Filters.t) :
  filterData (filterData data f) f = filterData data f /\
  filterData (filterData data f) g = filterData (filterData data g) f /\
  forall p, In p (filterData (filterData data f) g) <->
            In p (filterData data f) /\ In p (filterData data g).
Proof.
  unfold filterData. split; [apply filter_idem|].
  split; [apply filter_comm|].
  intro p. rewrite !filter_In. tauto.
Qed.

Lemma ltb_false_leb (s t : string) :
  String.ltb s t = false <-> String.leb t s = true.
Proof.
  unfold String.ltb, String.leb. rewrite (String.compare_antisym s t).
  destruct (String.compare t s); cbn; split; congruence.
Qed.

(** X23. The date range is inclusive and an empty bound is no bound: with
    only [startDate] and [endDate] supplied, [filterData] keeps exactly the
    records whose date is at or after [startDate] and, unless [endDate] is
    the empty string, at or before [endDate], in the order of strings. *)
Theorem filterData_date_range
        (data : list SolarDataPoint) (startDate endDate : string) :
  forall p,
    In p (filterData data
            (Filters.mk (Some startDate) (Some endDate) None None None None))
    <-> In p data /\
        String.leb startDate (date p) = true /\
        (endDate = EmptyString \/ String.leb (date p) endDate = true).
Proof.
  intro p. unfold filterData. rewrite filter_In.
  unfold filterPredicate.
  cbn [Filters.startDate Filters.endDate Filters.months Filters.hours
       Filters.weekdaysOnly Filters.weekendsOnly truthyBool andb].
  assert (L : forall s, String.leb EmptyString s = true)
    by (intros []; reflexivity).
  destruct startDate as [|a s]; destruct endDate as [|b e];
    cbn [truthyString].
  - rewrite L. intuition.
  - destruct (String.ltb (String b e) (date p)) eqn:E.
    + split; [intros [_ H]; discriminate|].
      intros (_ & _ & [H | H]); [discriminate|].
      apply ltb_false_leb in H. congruence.
    + apply ltb_false_leb in E. rewrite L. intuition.
  - destruct (String.ltb (date p) (String a s)) eqn:E.
    + split; [intros [_ H]; discriminate|].
      intros (_ & H & _). apply ltb_false_leb in H. congruence.
    + apply ltb_false_leb in E. intuition.
  - destruct (String.ltb (date p) (String a s)) eqn:E.
    + split; [intros [_ H]; discriminate|].
      intros (_ & H & _). apply ltb_false_leb in H. congruence.
    + apply ltb_false_leb in E.
      destruct (String.ltb (String b e) (date p)) eqn:E2.
      * split; [intros [_ H]; discriminate|].
        intros (_ & _ & [H | H]); [discriminate|].
        apply ltb_false_leb in H. congruence.
      * apply ltb_false_leb in E2. intuition.
Qed.

(** X24. Options that are absent or falsy constrain nothing, and the two
    day flags together exclude everything: with no option, or with empty
    date strings, empty lists and both flags false, [filterData] returns
    the collection as it is; with [weekdaysOnly] and [weekendsOnly] both
    true it returns the empty collection whatever the other options. *)
Theorem filterData_trivial_options (data : list SolarDataPoint) :
  filterData data Filters.none = data /\
  filterData data
    (Filters.mk (Some EmptyString) (Some EmptyString) (Some []) (Some [])
                (Some false) (Some false)) = data /\
  forall startDate endDate months hours,
    filterData data
      (Filters.mk startDate endDate months hours (Some true) (Some true))
    = [].
Proof.
  split; [apply filterData_no_options|]. split.
  - unfold filterData. induction data as [|p data IH]; cbn [filter].
    + reflexivity.
    + change (filterPredicate _ p) with true. now rewrite IH.
  - intros. now apply filterData_weekdays_and_weekends.
Qed.

(** ** More on the summary *)

Lemma summary_fold_peaks (l : list SolarDataPoint) :
  forall acc,
    let r := fold_left summaryStep l acc in
    SummaryAcc.peakSolarProduction r
    == QmaxList (SummaryAcc.peakSolarProduction acc) (map solarProduction l) /\
    SummaryAcc.peakEnergyDemand r
    == QmaxList (SummaryAcc.peakEnergyDemand acc) (map energyDemand l).
Proof.
  induction l as [|p l IH]; intro acc; cbv zeta; cbn [fold_left map].
  - split; reflexivity.
  - destruct (IH (summaryStep acc p)) as [A B]. cbv zeta in A, B.
    change (SummaryAcc.peakSolarProduction (summaryStep acc p))
      with (Qmax (SummaryAcc.peakSolarProduction acc) (solarProduction p))
      in A.
    change (SummaryAcc.peakEnergyDemand (summaryStep acc p))
      with (Qmax (SummaryAcc.peakEnergyDemand acc) (energyDemand p)) in B.
    split; [rewrite A | rewrite B]; apply QmaxList_shift.
Qed.

(** X25. The peaks of the summary are the greatest values of the
    collection, measured from 0: each peak is at least 0 and at least every
    record's value, and it is 0 or the value of some record.  A collection
    whose values are all negative has peak 0. *)
Theorem calculateSummary_peaks (data : list SolarDataPoint) :
  let s := calculateSummary data in
  (0 <= Summary.peakSolarProduction s /\
   (forall p, In p data -> solarProduction p <= Summary.peakSolarProduction s)
   /\ (Summary.peakSolarProduction s == 0 \/
       exists p, In p data /\
                 Summary.peakSolarProduction s == solarProduction p)) /\
  (0 <= Summary.peakEnergyDemand s /\
   (forall p, In p data -> energyDemand p <= Summary.peakEnergyDemand s)
   /\ (Summary.peakEnergyDemand s == 0 \/
       exists p, In p data /\
                 Summary.peakEnergyDemand s == energyDemand p)).
Proof.
  intro s. subst s. unfold calculateSummary.
  cbn [Summary.peakSolarProduction Summary.peakEnergyDemand].
  destruct (summary_fold_peaks data (SummaryAcc.mk 0 0 0 0 0 0)) as [A B].
  cbv zeta in A, B.
  cbn [SummaryAcc.peakSolarProduction SummaryAcc.peakEnergyDemand] in A, B.
  split.
  - pose proof (QmaxList_ge_base 0 (map solarProduction data)) as G.
    split; [lra|]. split.
    + intros p Hp.
      pose proof (QmaxList_ge 0 (map solarProduction data) _
                              (in_map solarProduction _ _ Hp)). lra.
    + destruct (QmaxList_attained 0 (map solarProduction data))
        as [E | (x & Hx & E)]; [left; lra|].
      apply in_map_iff in Hx. destruct Hx as (p & <- & Hp).
      right. exists p. split; [exact Hp | lra].
  - pose proof (QmaxList_ge_base 0 (map energyDemand data)) as G.
    split; [lra|]. split.
    + intros p Hp.
      pose proof (QmaxList_ge 0 (map energyDemand data) _
                              (in_map energyDemand _ _ Hp)). lra.
    + destruct (QmaxList_attained 0 (map energyDemand data))
        as [E | (x & Hx & E)]; [left; lra|].
      apply in_map_iff in Hx. destruct Hx as (p & <- & Hp).
      right. exists p. split; [exact Hp | lra].
Qed.

(** ** The helpers and the filter options *)

Lemma getSeason_cases (month : Z) :
  (getSeason month = "Spring"%string <-> (3 <= month <= 5)%Z) /\
  (getSeason month = "Summer"%string <-> (6 <= month <= 8)%Z) /\
  (getSeason month = "Fall"%string <-> (9 <= month <= 11)%Z) /\
  (getSeason month = "Winter"%string <-> (month < 3 \/ 11 < month)%Z).
Proof.
  unfold getSeason.
  destruct (Z.leb_spec 3 month); destruct (Z.leb_spec month 5);
    destruct (Z.leb_spec 6 month); destruct (Z.leb_spec month 8);
    destruct (Z.leb_spec 9 month); destruct (Z.leb_spec month 11);
    cbn [andb]; repeat split; intros; try discriminate; try lia;
    reflexivity.
Qed.

(** X27. [getSeason] agrees with the season options of the filter panel on
    the months 1..12 and calls every other number winter: a month listed
    by a season option gets that option's label, the months some option
    lists are exactly 1..12, and a month outside 1..12, which no option
    lists, is reported as [Winter]. *)
Theorem getSeason_seasonOptions (month : Z) :
  (forall o, In o seasonOptions -> In month (SeasonOption.months o) ->
             getSeason month = SeasonOption.label o) /\
  ((exists o, In o seasonOptions /\ In month (SeasonOption.months o))
   <-> (1 <= month <= 12)%Z) /\
  (~ (1 <= month <= 12)%Z -> getSeason month = "Winter"%string).
Proof.
  destruct (getSeason_cases month) as (Sp & Su & Fa & Wi).
  split; [|split].
  - intros o Ho Hm. cbn [seasonOptions In] in Ho.
    destruct Ho as [<- | [<- | [<- | [<- | []]]]];
      cbn [SeasonOption.months SeasonOption.label In] in Hm |- *.
    + apply Wi. lia.
    + apply Sp. lia.
    + apply Su. lia.
    + apply Fa. lia.
  - split.
    + intros (o & Ho & Hm). cbn [seasonOptions In] in Ho.
      destruct Ho as [<- | [<- | [<- | [<- | []]]]];
        cbn [SeasonOption.months In] in Hm; lia.
    + intro H.
      assert (C : (month = 12 \/ month = 1 \/ month = 2)%Z \/
                  (3 <= month <= 5)%Z \/ (6 <= month <= 8)%Z \/
                  (9 <= month <= 11)%Z) by lia.
      destruct C as [C | [C | [C | C]]].
      * exists (SeasonOption.mk "Winter" "winter" [12; 1; 2]%Z).
        cbn [seasonOptions SeasonOption.months In]. split; [tauto | lia].
      * exists (SeasonOption.mk "Spring" "spring" [3; 4; 5]%Z).
        cbn [seasonOptions SeasonOption.months In]. split; [tauto | lia].
      * exists (SeasonOption.mk "Summer" "summer" [6; 7; 8]%Z).
        cbn [seasonOptions SeasonOption.months In]. split; [tauto | lia].
      * exists (SeasonOption.mk "Fall" "fall" [9; 10; 11]%Z).
        cbn [seasonOptions SeasonOption.months In]. split; [tauto | lia].
  - intro H. apply Wi. lia.
Qed.

Lemma arrayFrom_In (length : nat) (f : Z -> Z) (x : Z) :
  In x (arrayFrom length f)
  <-> exists i, (0 <= i < Z.of_nat length)%Z /\ x = f i.
Proof.
  unfold arrayFrom. rewrite in_map_iff. split.
  - intros (i & <- & Hi). apply in_seq in Hi. exists (Z.of_nat i).
    split; [lia | reflexivity].
  - intros (i & Hi & ->). exists (Z.to_nat i). split.
    + f_equal. lia.
    + apply in_seq. lia.
Qed.

Lemma arrayFrom_shift_In (length : nat) (k x : Z) :
  In x (arrayFrom length (fun i => i + k)%Z)
  <-> (k <= x < k + Z.of_nat length)%Z.
Proof.
  rewrite arrayFrom_In. split.
  - intros (i & Hi & ->). lia.
  - intro H. exists (x - k)%Z. lia.
Qed.

Lemma arrayFrom_id_In (length : nat) (x : Z) :
  In x (arrayFrom length (fun i => i)) <-> (0 <= x < Z.of_nat length)%Z.
Proof.
  rewrite arrayFrom_In. split.
  - intros (i & Hi & ->). lia.
  - intro H. exists x. lia.
Qed.

Lemma getTimeOfDay_cases (hour : Z) :
  (getTimeOfDay hour = "Morning"%string <-> (5 <= hour < 12)%Z) /\
  (getTimeOfDay hour = "Afternoon"%string <-> (12 <= hour < 17)%Z) /\
  (getTimeOfDay hour = "Evening"%string <-> (17 <= hour < 21)%Z) /\
  (getTimeOfDay hour = "Night"%string <-> (hour < 5 \/ 21 <= hour)%Z).
Proof.
  unfold getTimeOfDay.
  destruct (Z.leb_spec 5 hour); destruct (Z.ltb_spec hour 12);
    destruct (Z.leb_spec 12 hour); destruct (Z.ltb_spec hour 17);
    destruct (Z.leb_spec 17 hour); destruct (Z.ltb_spec hour 21);
    cbn [andb]; repeat split; intros; try discriminate; try lia;
    reflexivity.
Qed.

Lemma selectedHours_In (hour : Z) :
  (In hour (selectedHours "all") <-> (0 <= hour < 24)%Z) /\
  (In hour (selectedHours "daytime") <-> (6 <= hour <= 18)%Z) /\
  (In hour (selectedHours "nighttime")
   <-> (18 <= hour < 24 \/ 0 <= hour < 6)%Z) /\
  (In hour (selectedHours "morning") <-> (5 <= hour < 12)%Z) /\
  (In hour (selectedHours "afternoon") <-> (12 <= hour < 17)%Z) /\
  (In hour (selectedHours "evening") <-> (17 <= hour < 21)%Z) /\
  (In hour (selectedHours "night") <-> (21 <= hour < 24 \/ 0 <= hour < 5)%Z).
Proof.
  unfold selectedHours.
  cbn [find hourRangeOptions HourRangeOption.value HourRangeOption.hours
       String.eqb Ascii.eqb Bool.eqb].
  rewrite ?in_app_iff, ?arrayFrom_shift_In, ?arrayFrom_id_In.
  repeat split; lia.
Qed.

(** X28. [getTimeOfDay] agrees with the hour ranges of the filter panel:
    the morning, afternoon and evening ranges list exactly the hours it
    names so, and the night range the hours of 0..23 it calls night.  The
    daytime and nighttime ranges together cover the 24 hours of the range
    [all] and share exactly hour 18; an unknown range selects no hour. *)
Theorem getTimeOfDay_hourRangeOptions (hour : Z) :
  (In hour (selectedHours "morning")
   <-> getTimeOfDay hour = "Morning"%string) /\
  (In hour (selectedHours "afternoon")
   <-> getTimeOfDay hour = "Afternoon"%string) /\
  (In hour (selectedHours "evening")
   <-> getTimeOfDay hour = "Evening"%string) /\
  (In hour (selectedHours "night")
   <-> getTimeOfDay hour = "Night"%string /\ (0 <= hour < 24)%Z) /\
  (In hour (selectedHours "daytime") \/ In hour (selectedHours "nighttime")
   <-> In hour (selectedHours "all")) /\
  (In hour (selectedHours "daytime") /\ In hour (selectedHours "nighttime")
   <-> hour = 18%Z) /\
  (forall range,
      ~ In range (map HourRangeOption.value hourRangeOptions) ->
      selectedHours range = []).
Proof.
  destruct (getTimeOfDay_cases hour) as (Mo & Af & Ev & Ni).
  destruct (selectedHours_In hour) as (A & D & N & M & F & E & G).
  rewrite Mo, Af, Ev, Ni, A, D, N, M, F, E, G.
  repeat split; try lia.
  intros range H. unfold selectedHours.
  destruct (find _ hourRangeOptions) as [h|] eqn:Fd; [|reflexivity].
  apply find_some in Fd. destruct Fd as [Hh Eq].
  apply String.eqb_eq in Eq. exfalso. apply H. rewrite <- Eq.
  now apply in_map.
Qed.

(** ** The filter panel and the filter engine *)

Lemma cascade_true_iff (a b w e k : bool) :
  (if a then false
   else if b then false
   else if w && k then false
   else if e && negb k then false
   else true) = true
  <-> a = false /\ b = false /\
      (w = true -> k = false) /\ (e = true -> k = true).
Proof.
  destruct a, b, w, e, k; cbn [andb negb]; intuition congruence.
Qed.

Lemma filterPredicate_true_iff (f : Filters.t) (p : SolarDataPoint) :
  filterPredicate f p = true <->
  match truthyString (Filters.startDate f) with
  | Some s => String.leb s (date p) = true
  | None => True
  end /\
  match truthyString (Filters.endDate f) with
  | Some s => String.leb (date p) s = true
  | None => True
  end /\
  admits (Filters.months f) (month p) /\
  admits (Filters.hours f) (hour p) /\
  (truthyBool (Filters.weekdaysOnly f) = true -> isWeekend p = false) /\
  (truthyBool (Filters.weekendsOnly f) = true -> isWeekend p = true).
Proof.
  rewrite filterPredicate_split, !andb_true_iff, !admitsb_admits.
  unfold filterPredicate, otherFilters.
  cbn [Filters.startDate Filters.endDate Filters.months Filters.hours
       Filters.weekdaysOnly Filters.weekendsOnly].
  rewrite cascade_true_iff.
  assert (S : match truthyString (Filters.startDate f) with
              | Some s => String.ltb (date p) s
              | None => false
              end = false
              <-> match truthyString (Filters.startDate f) with
                  | Some s => String.leb s (date p) = true
                  | None => True
                  end).
  { destruct (truthyString (Filters.startDate f));
      [apply ltb_false_leb | tauto]. }
  assert (E : match truthyString (Filters.endDate f) with
              | Some s => String.ltb s (date p)
              | None => false
              end = false
              <-> match truthyString (Filters.endDate f) with
                  | Some s => String.leb (date p) s = true
                  | None => True
                  end).
  { destruct (truthyString (Filters.endDate f));
      [apply ltb_false_leb | tauto]. }
  rewrite S, E. tauto.
Qed.

Lemma orUndefined_truthy (s : string) :
  truthyString (orUndefined s) = orUndefined s.
Proof. destruct s; reflexivity. Qed.

Lemma nonEmptyOrUndefined_admits (l : list Z) (x : Z) :
  admits (nonEmptyOrUndefined l) x <-> l = [] \/ In x l.
Proof.
  destruct l as [|y l]; cbn; [tauto|].
  split; [intro H; right; exact H | intros [H | H]; [discriminate | exact H]].
Qed.

(** X29. What the panel's options select.  With the options
    [applyFilters] builds from a panel state, [filterData] keeps exactly
    the records dated from [startDate] to [endDate] inclusive (an empty
    bound is no bound), of a selected month when months are selected, of
    an hour of the selected range when the range is a known one, and of
    the selected day type.  The two day flags are never both set.  In the
    initial state the range [all] is passed as the list 0..23, so the
    records kept are those whose hour lies in 0..23, whereas the empty
    options of [resetFilters] keep every record. *)
Theorem applyFilters_filterData
        (state : Panel.t) (data : list SolarDataPoint) :
  (forall p,
      In p (filterData data (applyFilters state)) <->
      In p data /\
      String.leb (Panel.startDate state) (date p) = true /\
      (Panel.endDate state = EmptyString \/
       String.leb (date p) (Panel.endDate state) = true) /\
      (Panel.months state = [] \/ In (month p) (Panel.months state)) /\
      (selectedHours (Panel.hourRange state) = [] \/
       In (hour p) (selectedHours (Panel.hourRange state))) /\
      (Panel.dayType state = "weekdays"%string -> isWeekend p = false) /\
      (Panel.dayType state = "weekends"%string -> isWeekend p = true)) /\
  ~ (Filters.weekdaysOnly (applyFilters state) = Some true /\
     Filters.weekendsOnly (applyFilters state) = Some true) /\
  (forall p,
      In p (filterData data (applyFilters Panel.initial)) <->
      In p data /\ (0 <= hour p < 24)%Z) /\
  filterData data Filters.none = data.
Proof.
  split; [|split; [|split]].
  - intro p. unfold filterData. rewrite filter_In, filterPredicate_true_iff.
    unfold applyFilters.
    cbn [Filters.startDate Filters.endDate Filters.months Filters.hours
         Filters.weekdaysOnly Filters.weekendsOnly].
    assert (W : forall b, truthyBool (Some b) = b) by (intros []; reflexivity).
    rewrite !W, !orUndefined_truthy, !nonEmptyOrUndefined_admits.
    assert (L : forall s, String.leb EmptyString s = true)
      by (intros []; reflexivity).
    assert (S : match orUndefined (Panel.startDate state) with
                | Some s => String.leb s (date p) = true
                | None => True
                end <-> String.leb (Panel.startDate state) (date p) = true).
    { destruct (Panel.startDate state); cbn [orUndefined];
        [rewrite L|]; tauto. }
    assert (E : match orUndefined (Panel.endDate state) with
                | Some s => String.leb (date p) s = true
                | None => True
                end <-> (Panel.endDate state = EmptyString \/
                         String.leb (date p) (Panel.endDate state) = true)).
    { destruct (Panel.endDate state); cbn [orUndefined]; [tauto|].
      split; [tauto | intros [H | H]; [discriminate | exact H]]. }
    rewrite S, E, !String.eqb_eq. tauto.
  - unfold applyFilters. cbn [Filters.weekdaysOnly Filters.weekendsOnly].
    intros [H1 H2]. injection H1 as H1. injection H2 as H2.
    apply String.eqb_eq in H1. apply String.eqb_eq in H2.
    rewrite H1 in H2. discriminate.
  - intro p. unfold filterData. rewrite filter_In, filterPredicate_true_iff.
    change (applyFilters Panel.initial)
      with (Filters.mk None None None (Some (selectedHours "all"))
                       (Some false) (Some false)).
    cbn [Filters.startDate Filters.endDate Filters.months Filters.hours
         Filters.weekdaysOnly Filters.weekendsOnly truthyBool truthyString
         admits].
    destruct (selectedHours_In (hour p)) as (A & _).
    assert (Ad : admits (Some (selectedHours "all")) (hour p)
                 <-> In (hour p) (selectedHours "all")).
    { change (selectedHours "all")
        with (0%Z :: tl (selectedHours "all")) at 1.
      cbn [admits]. reflexivity. }
    rewrite Ad, A. cbn [truthyBool]. intuition discriminate.
  - apply filterData_no_options.
Qed.

(** ** Reading back what [downloadCSV] writes *)

Lemma string_app_assoc (a b c : string) :
  ((a ++ b) ++ c = a ++ (b ++ c))%string.
Proof.
  induction a as [|x a IH]; cbn [String.append]; [reflexivity|].
  now rewrite IH.
Qed.

Lemma string_app_nil_r (a : string) : (a ++ EmptyString = a)%string.
Proof.
  induction a as [|x a IH]; cbn [String.append]; [reflexivity|].
  now rewrite IH.
Qed.

Lemma lastOr_cons (previous : option ascii) (c : ascii) (s : string) :
  lastOr previous (String c s) = lastOr (Some c) s.
Proof.
  unfold lastOr. cbn [lastChar]. destruct s as [|d s]; [reflexivity|].
  destruct (lastChar (String d s)) eqn:E; [reflexivity|].
  exfalso. clear -E. revert d E.
  induction s as [|e s IH]; intros d E; [discriminate|].
  exact (IH e E).
Qed.

Lemma lineLoop_app (s rest : string) :
  forall previous st,
    lineLoop previous (s ++ rest) st
    = lineLoop (lastOr previous s) rest (lineLoop previous s st).
Proof.
  induction s as [|c s IH]; intros previous st;
    cbn [String.append lineLoop].
  - reflexivity.
  - rewrite IH, lastOr_cons. reflexivity.
Qed.

(** A run of characters without a double quote, inside quotes or without
    a comma, is added to the current value. *)
Lemma lineLoop_run (s : string) :
  forall previous st,
    includesChar quoteChar s = false ->
    Line.inQuote st = true \/ includesChar commaChar s = false ->
    lineLoop previous s st
    = Line.mk (Line.result st) (Line.inQuote st)
              (Line.currentValue st ++ s).
Proof.
  induction s as [|c s IH]; intros previous st Q C;
    cbn [lineLoop includesChar] in *.
  - rewrite string_app_nil_r. now destruct st.
  - apply orb_false_iff in Q. destruct Q as [Q1 Q2].
    assert (S : lineStep previous c st
                = Line.mk (Line.result st) (Line.inQuote st)
                          (Line.currentValue st ++ String c EmptyString)).
    { unfold lineStep. rewrite Q1. cbn [andb].
      destruct C as [C | C].
      - rewrite C. now rewrite andb_false_r.
      - apply orb_false_iff in C. destruct C as [C _]. now rewrite C. }
    rewrite S, IH; cbn [Line.result Line.inQuote Line.currentValue].
    + now rewrite string_app_assoc.
    + exact Q2.
    + destruct C as [C | C]; [now left | right].
      apply orb_false_iff in C. apply C.
Qed.

Lemma includesChar_lastChar (c : ascii) (s : string) :
  includesChar c s = true -> exists d, lastChar s = Some d.
Proof.
  destruct s as [|x s]; [discriminate|]. intros _.
  revert x. induction s as [|y s IH]; intro x; cbn [lastChar].
  - now exists x.
  - apply IH.
Qed.

(** One written value is read back as one current value. *)
Lemma lineLoop_cell (value : string) (previous : option ascii)
      (st : Line.t) :
  Plain value -> previous <> Some backslashChar ->
  Line.inQuote st = false ->
  lineLoop previous (csvCell value) st
  = Line.mk (Line.result st) false (Line.currentValue st ++ value).
Proof.
  intros [Q B] P I. unfold csvCell.
  destruct (includesChar commaChar value) eqn:C.
  - cbn [lineLoop].
    assert (S1 : lineStep previous quoteChar st
                 = Line.mk (Line.result st) true (Line.currentValue st)).
    { unfold lineStep. rewrite I.
      destruct previous as [c|]; [|reflexivity].
      destruct (Ascii.eqb_spec c backslashChar) as [-> | N];
        [now elim P | reflexivity]. }
    rewrite S1, lineLoop_app, (lineLoop_run value); [|exact Q | now left].
    cbn [Line.result Line.inQuote Line.currentValue lineLoop].
    destruct (includesChar_lastChar _ _ C) as (d & D).
    unfold lastOr. rewrite D. unfold lineStep.
    cbn [Line.result Line.inQuote Line.currentValue].
    destruct (Ascii.eqb_spec d backslashChar) as [-> | N].
    + elim (B eq_refl D).
    + reflexivity.
  - rewrite (lineLoop_run value); [|exact Q | now right].
    now rewrite I.
Qed.

Lemma lineLoop_row (cells : list string) :
  cells <> [] -> Forall Plain cells ->
  forall previous st,
    previous <> Some backslashChar ->
    Line.inQuote st = false -> Line.currentValue st = EmptyString ->
    let st' := lineLoop previous (csvRow cells) st in
    Line.result st' ++ [Line.currentValue st'] = Line.result st ++ cells.
Proof.
  induction cells as [|c cells IH]; intros N F previous st P I V;
    [now elim N|].
  inversion F as [|? ? Fc Fr]; subst. cbv zeta. unfold csvRow.
  destruct cells as [|c2 cells].
  - cbn [map String.concat]. rewrite (lineLoop_cell c previous st Fc P I).
    cbn [Line.result Line.currentValue]. now rewrite V.
  - change (String.concat (String commaChar EmptyString)
                          (map csvCell (c :: c2 :: cells)))
      with (csvCell c ++ String commaChar (csvRow (c2 :: cells)))%string.
    rewrite lineLoop_app, (lineLoop_cell c previous st Fc P I).
    cbn [lineLoop].
    assert (S : forall q r v,
               lineStep q commaChar (Line.mk r false v)
               = Line.mk (r ++ [v]) false EmptyString).
    { intros q r v. unfold lineStep. now destruct q. }
    rewrite S.
    assert (N2 : c2 :: cells <> []) by discriminate.
    assert (P2 : Some commaChar <> Some backslashChar) by discriminate.
    specialize
      (IH N2 Fr (Some commaChar)
          (Line.mk (Line.result st ++ [(Line.currentValue st ++ c)%string])
                   false EmptyString) P2 eq_refl eq_refl).
    cbv zeta in IH. rewrite IH. cbn [Line.result].
    rewrite V, <- app_assoc. reflexivity.
Qed.

(** X30. The line parser of [parseCSV], the callback it applies to each
    line, reads back a line [downloadCSV] wrote.  For a row of at least
    one string value, none holding a double quote and none that holds a
    comma ending in a backslash, parsing the written line gives the values
    back, commas included. *)
Theorem parseLine_csvRow (cells : list string) :
  cells <> [] -> Forall Plain cells ->
  parseLine (csvRow cells) = cells.
Proof.
  intros N F. unfold parseLine.
  apply (lineLoop_row cells N F None (Line.mk [] false EmptyString));
    [discriminate | reflexivity | reflexivity].
Qed.

Lemma sampleRow_Plain : Forall Plain sampleRow.
Proof. repeat constructor; intros; vm_compute; discriminate. Qed.

Lemma parseLine_csvRow_witness :
  sampleRow <> [] /\ Forall Plain sampleRow /\
  parseLine (csvRow sampleRow) = sampleRow.
Proof.
  split; [discriminate|]. split; [exact sampleRow_Plain|].
  apply (parseLine_csvRow sampleRow); [discriminate | exact sampleRow_Plain].
Defined.

(** The condition on the backslash cannot be dropped, nor the one on the
    row: the closing quote after a backslash is taken for an escaped one
    and stays in no value, and the empty row is read as one empty value. *)
Example parseLine_backslashValue :
  includesChar quoteChar backslashValue = false /\
  parseLine (csvRow [backslashValue]) <> [backslashValue].
Proof. split; [reflexivity|]. vm_compute. discriminate. Qed.

Example parseLine_empty_row : parseLine (csvRow []) = [EmptyString].
Proof. reflexivity. Qed.

(** * Part IV: the calculations in binary64 *)

(** ** Rounding to binary64 *)

(** *** Powers of two *)

Lemma pow2_pos (e : Z) : 0 < 2 ^ e.
Proof. apply Qpower_0_lt. reflexivity. Qed.

Lemma pow2_le (n m : Z) : (n <= m)%Z -> 2 ^ n <= 2 ^ m.
Proof. intro H. apply Qpower_le_compat_l; [exact H | discriminate]. Qed.

Lemma pow2_lt (n m : Z) : (n < m)%Z -> 2 ^ n < 2 ^ m.
Proof. intro H. apply Qpower_lt_compat_l; [exact H | reflexivity]. Qed.

Lemma pow2_lt_inv (n m : Z) : 2 ^ n < 2 ^ m -> (n < m)%Z.
Proof. intro H. apply (Qpower_lt_compat_l_inv 2); [exact H | reflexivity]. Qed.

Lemma pow2_add (n m : Z) : 2 ^ (n + m) == 2 ^ n * 2 ^ m.
Proof. apply Qpower_plus. discriminate. Qed.

Lemma pow2_sub (n m : Z) : 2 ^ (n - m) == 2 ^ n / 2 ^ m.
Proof. apply Qpower_minus. discriminate. Qed.

Lemma pow2_Z (n : Z) : (0 <= n)%Z -> 2 ^ n == inject_Z (2 ^ n).
Proof. intro H. symmetry. apply (Zpower_Qpower 2 n H). Qed.

Lemma pow2_succ (n : Z) : 2 ^ (n + 1) == 2 * 2 ^ n.
Proof. rewrite pow2_add. change (2 ^ 1) with 2. ring. Qed.

(** *** The exponent of a positive rational *)

Lemma exponent_spec (a : Q) :
  0 < a -> 2 ^ exponent a <= a /\ a < 2 ^ (exponent a + 1).
Proof.
  intro Ha. destruct a as [n d]. unfold exponent. cbn [Qnum Qden].
  assert (Hn : (0 < n)%Z).
  { unfold Qlt in Ha. cbn in Ha. lia. }
  destruct (Z.log2_spec n Hn) as [N1 N2].
  destruct (Z.log2_spec (Z.pos d) (Pos2Z.is_pos d)) as [D1 D2].
  set (ln := Z.log2 n) in *. set (ld := Z.log2 (Z.pos d)) in *.
  assert (Ln : (0 <= ln)%Z) by apply Z.log2_nonneg.
  assert (Ld : (0 <= ld)%Z) by apply Z.log2_nonneg.
  assert (E : n # d == inject_Z n / inject_Z (Z.pos d)) by apply Qmake_Qdiv.
  assert (Pd : 0 < inject_Z (Z.pos d)).
  { change 0 with (inject_Z 0). rewrite <- Zlt_Qlt. lia. }
  assert (Q1 : 2 ^ ln <= inject_Z n).
  { rewrite pow2_Z by lia. rewrite <- Zle_Qle. exact N1. }
  assert (Q2 : inject_Z n < 2 ^ (ln + 1)).
  { rewrite pow2_Z by lia. rewrite <- Zlt_Qlt. rewrite <- Z.add_1_r in N2.
    exact N2. }
  assert (Q3 : 2 ^ ld <= inject_Z (Z.pos d)).
  { rewrite pow2_Z by lia. rewrite <- Zle_Qle. exact D1. }
  assert (Q4 : inject_Z (Z.pos d) < 2 ^ (ld + 1)).
  { rewrite pow2_Z by lia. rewrite <- Zlt_Qlt. rewrite <- Z.add_1_r in D2.
    exact D2. }
  pose proof (pow2_pos ld) as P1. pose proof (pow2_pos (ln - ld)) as P2.
  assert (U : n # d < 2 ^ (ln - ld + 1)).
  { rewrite E. apply Qlt_shift_div_r; [exact Pd|].
    replace (ln - ld + 1)%Z with ((ln + 1) - ld)%Z by lia.
    rewrite pow2_sub.
    apply Qlt_le_trans with (2 ^ (ln + 1)); [exact Q2|].
    assert (X : 2 ^ (ln + 1) == 2 ^ (ln + 1) / 2 ^ ld * 2 ^ ld)
      by (field; lra).
    rewrite X at 1. apply Qmult_le_l; [|exact Q3].
    apply Qlt_shift_div_l; [exact P1|]. pose proof (pow2_pos (ln + 1)). lra. }
  assert (L : 2 ^ (ln - ld - 1) < n # d).
  { rewrite E. apply Qlt_shift_div_l; [exact Pd|].
    replace (ln - ld - 1)%Z with (ln - (ld + 1))%Z by lia.
    rewrite pow2_sub.
    apply Qlt_le_trans with (2 ^ ln); [|exact Q1].
    assert (X : 2 ^ ln == 2 ^ ln / 2 ^ (ld + 1) * 2 ^ (ld + 1)).
    { field. pose proof (pow2_pos (ld + 1)). lra. }
    rewrite X at 2. apply Qmult_lt_l; [|exact Q4].
    apply Qlt_shift_div_l; [apply pow2_pos|]. pose proof (pow2_pos ln). lra. }
  destruct (Qle_bool (2 ^ (ln - ld)) (n # d)) eqn:B.
  - apply Qle_bool_iff in B. split; assumption.
  - assert (B' : ~ 2 ^ (ln - ld) <= n # d).
    { intro X. apply Qle_bool_iff in X. congruence. }
    apply Qnot_le_lt in B'. split.
    + apply Qlt_le_weak. exact L.
    + replace (ln - ld - 1 + 1)%Z with (ln - ld)%Z by lia. exact B'.
Qed.

Lemma exponent_unique (a : Q) (e : Z) :
  2 ^ e <= a -> a < 2 ^ (e + 1) -> exponent a = e.
Proof.
  intros L U.
  assert (Ha : 0 < a) by (pose proof (pow2_pos e); lra).
  destruct (exponent_spec a Ha) as [L' U'].
  assert (e < exponent a + 1)%Z by (apply pow2_lt_inv; lra).
  assert (exponent a < e + 1)%Z by (apply pow2_lt_inv; lra).
  lia.
Qed.

Lemma exponent_le (a b : Q) :
  0 < a -> a <= b -> (exponent a <= exponent b)%Z.
Proof.
  intros Ha Hab.
  destruct (exponent_spec a Ha) as [L _].
  destruct (exponent_spec b) as [_ U]; [lra|].
  assert (exponent a < exponent b + 1)%Z by (apply pow2_lt_inv; lra).
  lia.
Qed.

Lemma exponent_compat (a b : Q) : 0 < a -> a == b -> exponent a = exponent b.
Proof.
  intros Ha E. destruct (exponent_spec a Ha) as [L U].
  symmetry. apply exponent_unique; lra.
Qed.

(** *** Rounding to the nearest integer, ties to even *)

Lemma nearestEven_cases (x : Q) :
  let f := Qfloor x in
  (x - inject_Z f < 1 # 2 /\ nearestEven x = f) \/
  (1 # 2 < x - inject_Z f /\ nearestEven x = (f + 1)%Z) \/
  (x - inject_Z f == 1 # 2 /\
   nearestEven x = if Z.even f then f else (f + 1)%Z).
Proof.
  cbv zeta. unfold nearestEven.
  destruct (Qcompare_spec (x - inject_Z (Qfloor x)) (1 # 2)) as [E | L | G];
    auto.
Qed.

Lemma nearestEven_compat (x y : Q) : x == y -> nearestEven x = nearestEven y.
Proof.
  intro E. unfold nearestEven. rewrite (Qfloor_comp x y E).
  assert (C : Qcompare (x - inject_Z (Qfloor y)) (1 # 2)
              = Qcompare (y - inject_Z (Qfloor y)) (1 # 2)).
  { apply Qcompare_comp; [rewrite E|]; reflexivity. }
  now rewrite C.
Qed.

Lemma nearestEven_Z (n : Z) : nearestEven (inject_Z n) = n.
Proof.
  unfold nearestEven. rewrite Qfloor_Z.
  assert (C : Qcompare (inject_Z n - inject_Z n) (1 # 2) = Lt).
  { apply (proj1 (Qlt_alt _ _)). ring_simplify (inject_Z n - inject_Z n).
    reflexivity. }
  now rewrite C.
Qed.

Lemma nearestEven_floor (x : Q) :
  (Qfloor x <= nearestEven x <= Qfloor x + 1)%Z.
Proof.
  destruct (nearestEven_cases x) as [[_ ->] | [[_ ->] | [_ ->]]];
    try destruct (Z.even _); lia.
Qed.

Lemma nearestEven_le (x y : Q) :
  x <= y -> (nearestEven x <= nearestEven y)%Z.
Proof.
  intro H. pose proof (Qfloor_resp_le x y H) as F.
  pose proof (nearestEven_floor x). pose proof (nearestEven_floor y).
  destruct (Z.eq_dec (Qfloor x) (Qfloor y)) as [E | N]; [|lia].
  destruct (nearestEven_cases x) as [[Cx ->] | [[Cx ->] | [Cx ->]]];
    destruct (nearestEven_cases y) as [[Cy ->] | [[Cy ->] | [Cy ->]]];
    rewrite <- ?E in *; try lia; try lra;
    destruct (Z.even (Qfloor x)); lia.
Qed.

Lemma nearestEven_error (x : Q) :
  Qabs (inject_Z (nearestEven x) - x) <= 1 # 2.
Proof.
  pose proof (Qfloor_le x) as F1. pose proof (Qlt_floor x) as F2.
  rewrite inject_Z_plus in F2. change (inject_Z 1) with 1 in F2.
  apply Qabs_Qle_condition.
  destruct (nearestEven_cases x) as [[C ->] | [[C ->] | [C ->]]].
  - lra.
  - rewrite inject_Z_plus. change (inject_Z 1) with 1. lra.
  - destruct (Z.even (Qfloor x)); rewrite ?inject_Z_plus;
      change (inject_Z 1) with 1; lra.
Qed.

(** *** Rounding a positive rational *)

Lemma roundPositive_unfold (a : Q) :
  roundPositive a
  = inject_Z (nearestEven (a / 2 ^ ulpExponent a)) * 2 ^ ulpExponent a.
Proof. reflexivity. Qed.

Lemma roundPositive_compat (a b : Q) :
  0 < a -> a == b -> roundPositive a == roundPositive b.
Proof.
  intros Ha E. rewrite !roundPositive_unfold. unfold ulpExponent.
  rewrite <- (exponent_compat a b Ha E).
  set (u := 2 ^ _).
  assert (N : nearestEven (a / u) = nearestEven (b / u)).
  { apply nearestEven_compat. now rewrite E. }
  now rewrite N.
Qed.

Lemma scaled_lt (a : Q) :
  0 < a -> a / 2 ^ ulpExponent a < inject_Z (2 ^ 53).
Proof.
  intro Ha. destruct (exponent_spec a Ha) as [_ U].
  pose proof (pow2_pos (ulpExponent a)) as P.
  apply Qlt_shift_div_r; [exact P|].
  rewrite <- (pow2_Z 53) by lia. rewrite <- pow2_add.
  apply Qlt_le_trans with (2 ^ (exponent a + 1)); [exact U|].
  apply pow2_le. unfold ulpExponent. lia.
Qed.

Lemma scaled_ge (a : Q) :
  0 < a -> (-1022 <= exponent a)%Z ->
  inject_Z (2 ^ 52) <= a / 2 ^ ulpExponent a.
Proof.
  intros Ha N. destruct (exponent_spec a Ha) as [L _].
  pose proof (pow2_pos (ulpExponent a)) as P.
  apply Qle_shift_div_l; [exact P|].
  rewrite <- (pow2_Z 52) by lia. rewrite <- pow2_add.
  apply Qle_trans with (2 ^ exponent a); [|exact L].
  apply pow2_le. unfold ulpExponent. lia.
Qed.

Lemma mantissa_bounds (a : Q) :
  0 < a ->
  (0 <= nearestEven (a / 2 ^ ulpExponent a) <= 2 ^ 53)%Z /\
  ((-1022 <= exponent a)%Z ->
   (2 ^ 52 <= nearestEven (a / 2 ^ ulpExponent a))%Z).
Proof.
  intro Ha. pose proof (pow2_pos (ulpExponent a)) as P. split; [split|].
  - rewrite <- (nearestEven_Z 0). apply nearestEven_le.
    apply Qle_shift_div_l; [exact P|]. change (inject_Z 0) with 0. lra.
  - rewrite <- (nearestEven_Z (2 ^ 53)). apply nearestEven_le.
    apply Qlt_le_weak. now apply scaled_lt.
  - intro N. rewrite <- (nearestEven_Z (2 ^ 52)). apply nearestEven_le.
    now apply scaled_ge.
Qed.

Lemma roundPositive_bounds (a : Q) :
  0 < a ->
  0 <= roundPositive a /\
  roundPositive a <= 2 ^ (Z.max (exponent a) (-1022) + 1) /\
  ((-1022 <= exponent a)%Z -> 2 ^ exponent a <= roundPositive a).
Proof.
  intro Ha. rewrite roundPositive_unfold.
  destruct (mantissa_bounds a Ha) as [[M0 M1] M2].
  set (m := nearestEven _) in *.
  pose proof (pow2_pos (ulpExponent a)) as P.
  split; [|split].
  - apply Qmult_le_0_compat; [|lra]. change 0 with (inject_Z 0).
    now rewrite <- Zle_Qle.
  - replace (Z.max (exponent a) (-1022) + 1)%Z
      with (53 + ulpExponent a)%Z by (unfold ulpExponent; lia).
    rewrite pow2_add, (pow2_Z 53) by lia.
    apply Qmult_le_compat_r; [|lra]. now rewrite <- Zle_Qle.
  - intro N. specialize (M2 N).
    replace (exponent a) with (52 + ulpExponent a)%Z at 1
      by (unfold ulpExponent; lia).
    rewrite pow2_add, (pow2_Z 52) by lia.
    apply Qmult_le_compat_r; [|lra]. now rewrite <- Zle_Qle.
Qed.

Lemma roundPositive_le (a b : Q) :
  0 < a -> a <= b -> roundPositive a <= roundPositive b.
Proof.
  intros Ha Hab. assert (Hb : 0 < b) by lra.
  pose proof (exponent_le a b Ha Hab) as E.
  destruct (Z.eq_dec (ulpExponent a) (ulpExponent b)) as [U | U].
  - rewrite !roundPositive_unfold, U.
    pose proof (pow2_pos (ulpExponent b)) as P.
    apply Qmult_le_compat_r; [|lra]. rewrite <- Zle_Qle.
    apply nearestEven_le. apply Qmult_le_compat_r; [exact Hab|].
    apply Qlt_le_weak, Qinv_lt_0_compat, P.
  - assert (L : (Z.max (exponent a) (-1022) < exponent b)%Z)
      by (unfold ulpExponent in U; lia).
    destruct (roundPositive_bounds a Ha) as (_ & A & _).
    destruct (roundPositive_bounds b Hb) as (_ & _ & B).
    apply Qle_trans with (2 ^ exponent b); [|apply B; lia].
    apply Qle_trans with (2 ^ (Z.max (exponent a) (-1022) + 1));
      [exact A|].
    apply pow2_le. lia.
Qed.

(** A multiple of a power of two with at most 53 bits is its own
    rounding. *)
Lemma roundPositive_exact_lt (m j : Z) :
  (0 < m < 2 ^ 53)%Z -> (-1074 <= j)%Z ->
  roundPositive (inject_Z m * 2 ^ j) == inject_Z m * 2 ^ j.
Proof.
  intros [M0 M1] J. set (a := inject_Z m * 2 ^ j).
  pose proof (pow2_pos j) as Pj.
  assert (Ha : 0 < a).
  { unfold a. apply Qmult_lt_0_compat; [|exact Pj].
    change 0 with (inject_Z 0). now rewrite <- Zlt_Qlt. }
  destruct (exponent_spec a Ha) as [L U].
  assert (E : (exponent a < 53 + j)%Z).
  { apply pow2_lt_inv. apply Qle_lt_trans with a; [exact L|].
    unfold a. rewrite pow2_add, (pow2_Z 53) by lia.
    apply Qmult_lt_compat_r; [exact Pj|]. now rewrite <- Zlt_Qlt. }
  assert (T : (0 <= j - ulpExponent a)%Z) by (unfold ulpExponent; lia).
  rewrite roundPositive_unfold. set (u := ulpExponent a) in *.
  pose proof (pow2_pos u) as Pu.
  assert (S : a / 2 ^ u == inject_Z (m * 2 ^ (j - u))).
  { unfold a. rewrite inject_Z_mult, <- (pow2_Z _ T), pow2_sub.
    field. lra. }
  rewrite (nearestEven_compat _ _ S), nearestEven_Z.
  rewrite inject_Z_mult, <- (pow2_Z _ T), pow2_sub. unfold a. field. lra.
Qed.

Lemma roundPositive_exact (m j : Z) :
  (0 < m <= 2 ^ 53)%Z -> (-1074 <= j)%Z ->
  roundPositive (inject_Z m * 2 ^ j) == inject_Z m * 2 ^ j.
Proof.
  intros [M0 M1] J.
  destruct (Z.eq_dec m (2 ^ 53)) as [-> | N].
  - assert (E : inject_Z (2 ^ 53) * 2 ^ j
                == inject_Z (2 ^ 52) * 2 ^ (j + 1)).
    { rewrite pow2_succ.
      change (inject_Z (2 ^ 53)) with (2 * inject_Z (2 ^ 52)). ring. }
    assert (P : 0 < inject_Z (2 ^ 53) * 2 ^ j).
    { pose proof (pow2_pos j). apply Qmult_lt_0_compat; [|assumption].
      reflexivity. }
    rewrite (roundPositive_compat _ _ P E), E.
    apply roundPositive_exact_lt; lia.
  - apply roundPositive_exact_lt; lia.
Qed.

(** *** Rounding to binary64 *)

Lemma round64_pos (x : Q) : 0 < x -> round64 x = roundPositive x.
Proof.
  intro H. unfold round64.
  now rewrite (proj1 (Qgt_alt x 0) H).
Qed.

Lemma round64_neg (x : Q) : x < 0 -> round64 x = - roundPositive (- x).
Proof.
  intro H. unfold round64.
  now rewrite (proj1 (Qlt_alt x 0) H).
Qed.

Lemma round64_zero (x : Q) : x == 0 -> round64 x = 0.
Proof.
  intro H. unfold round64.
  now rewrite (proj1 (Qeq_alt x 0) H).
Qed.

Lemma round64_compat (x y : Q) : x == y -> round64 x == round64 y.
Proof.
  intro E. destruct (Q_dec x 0) as [[L | G] | Z].
  - rewrite (round64_neg x L), (round64_neg y) by lra.
    apply Qopp_comp. apply roundPositive_compat; lra.
  - rewrite (round64_pos x G), (round64_pos y) by lra.
    apply roundPositive_compat; lra.
  - rewrite (round64_zero x Z), (round64_zero y) by lra. reflexivity.
Qed.

#[global] Instance round64_Proper : Proper (Qeq ==> Qeq) round64.
Proof. intros x y E. now apply round64_compat. Qed.

Lemma round64_opp (x : Q) : round64 (- x) == - round64 x.
Proof.
  destruct (Q_dec x 0) as [[L | G] | Z].
  - rewrite (round64_neg x L), (round64_pos (- x)) by lra. ring.
  - rewrite (round64_pos x G), (round64_neg (- x)) by lra.
    apply Qopp_comp. apply roundPositive_compat; [lra | ring].
  - rewrite (round64_zero x Z), (round64_zero (- x)) by lra. reflexivity.
Qed.

Lemma round64_nonneg (x : Q) : 0 <= x -> 0 <= round64 x.
Proof.
  intro H. destruct (Qle_lt_or_eq _ _ H) as [P | Z].
  - rewrite (round64_pos x P). now apply roundPositive_bounds.
  - rewrite (round64_zero x) by lra. lra.
Qed.

Lemma round64_nonpos (x : Q) : x <= 0 -> round64 x <= 0.
Proof.
  intro H. assert (N : 0 <= round64 (- x)) by (apply round64_nonneg; lra).
  rewrite round64_opp in N. lra.
Qed.

Lemma round64_le (x y : Q) : x <= y -> round64 x <= round64 y.
Proof.
  intro H. destruct (Qlt_le_dec 0 x) as [Px | Nx].
  - rewrite (round64_pos x Px), (round64_pos y) by lra.
    now apply roundPositive_le.
  - destruct (Qlt_le_dec y 0) as [Ny | Py].
    + rewrite (round64_neg x), (round64_neg y Ny) by lra.
      apply Qopp_le_compat. apply roundPositive_le; lra.
    + pose proof (round64_nonpos x Nx). pose proof (round64_nonneg y Py).
      lra.
Qed.

(** The binary64 values: the multiples of a power of two no less than
    [2 ^ -1074] by an integer of at most 53 bits. *)
Lemma Binary64_exact (m j : Z) :
  (Z.abs m <= 2 ^ 53)%Z -> (-1074 <= j)%Z ->
  Binary64 (inject_Z m * 2 ^ j).
Proof.
  intros M J. unfold Binary64. pose proof (pow2_pos j) as P.
  destruct (Z.lt_trichotomy m 0) as [N | [-> | G]].
  - assert (X : inject_Z m * 2 ^ j == - (inject_Z (- m) * 2 ^ j))
      by (rewrite inject_Z_opp; ring).
    rewrite X, round64_opp. apply Qopp_comp.
    rewrite round64_pos.
    + apply roundPositive_exact; lia.
    + apply Qmult_lt_0_compat; [|exact P]. change 0 with (inject_Z 0).
      rewrite <- Zlt_Qlt. lia.
  - rewrite round64_zero; [|change (inject_Z 0) with 0]; ring.
  - rewrite round64_pos.
    + apply roundPositive_exact; lia.
    + apply Qmult_lt_0_compat; [|exact P]. change 0 with (inject_Z 0).
      now rewrite <- Zlt_Qlt.
Qed.

Lemma round64_shape (x : Q) :
  exists m j, (Z.abs m <= 2 ^ 53)%Z /\ (-1074 <= j)%Z /\
              round64 x == inject_Z m * 2 ^ j.
Proof.
  destruct (Q_dec x 0) as [[L | G] | Z].
  - assert (P : 0 < - x) by lra.
    destruct (mantissa_bounds (- x) P) as [[M0 M1] _].
    exists (- nearestEven (- x / 2 ^ ulpExponent (- x)))%Z,
           (ulpExponent (- x)).
    split; [lia|]. split; [unfold ulpExponent; lia|].
    rewrite (round64_neg x L), roundPositive_unfold, inject_Z_opp. ring.
  - destruct (mantissa_bounds x G) as [[M0 M1] _].
    exists (nearestEven (x / 2 ^ ulpExponent x)), (ulpExponent x).
    split; [lia|]. split; [unfold ulpExponent; lia|].
    now rewrite (round64_pos x G), roundPositive_unfold.
  - exists 0%Z, 0%Z. split; [cbn; lia|]. split; [lia|].
    rewrite (round64_zero x Z). reflexivity.
Qed.

Lemma round64_idem (x : Q) : Binary64 (round64 x).
Proof.
  destruct (round64_shape x) as (m & j & M & J & E).
  unfold Binary64. rewrite E. now apply Binary64_exact.
Qed.

Lemma Binary64_compat (x y : Q) : x == y -> Binary64 x -> Binary64 y.
Proof. unfold Binary64. intros E H. now rewrite <- E. Qed.

Lemma Binary64_shape (x : Q) :
  Binary64 x ->
  exists m j, (Z.abs m <= 2 ^ 53)%Z /\ (-1074 <= j)%Z /\
              x == inject_Z m * 2 ^ j.
Proof.
  intro B. destruct (round64_shape x) as (m & j & M & J & E).
  exists m, j. unfold Binary64 in B. rewrite B in E. auto.
Qed.

(** Every binary64 value is a multiple of [2 ^ -1074]. *)
Lemma Binary64_grid (x : Q) :
  Binary64 x -> exists n : Z, x == inject_Z n * 2 ^ (-1074).
Proof.
  intro B. destruct (Binary64_shape x B) as (m & j & _ & J & E).
  exists (m * 2 ^ (j + 1074))%Z.
  rewrite E, inject_Z_mult, <- pow2_Z by lia.
  rewrite <- Qmult_assoc, <- pow2_add.
  replace (j + 1074 + -1074)%Z with j by lia. reflexivity.
Qed.

Lemma round64_least (x : Q) : 2 ^ (-1074) <= x -> 2 ^ (-1074) <= round64 x.
Proof.
  intro H.
  assert (B : Binary64 (inject_Z 1 * 2 ^ (-1074)))
    by (apply Binary64_exact; [cbn|]; lia).
  unfold Binary64 in B.
  assert (X : inject_Z 1 * 2 ^ (-1074) == 2 ^ (-1074)) by ring.
  rewrite X in B. rewrite <- B at 1. now apply round64_le.
Qed.

(** The difference of two binary64 values keeps its sign when rounded: it
    does not underflow to zero. *)
Lemma sub64_sign (x y : Q) :
  Binary64 x -> Binary64 y ->
  (0 < sub64 x y <-> y < x) /\ (sub64 x y < 0 <-> x < y) /\
  (sub64 x y == 0 <-> x == y).
Proof.
  intros Bx By. unfold sub64.
  destruct (Binary64_grid x Bx) as (n & Ex).
  destruct (Binary64_grid y By) as (n' & Ey).
  pose proof (pow2_pos (-1074)) as P.
  assert (G : forall (a b : Q) (c d : Z), Binary64 a -> Binary64 b ->
              a == inject_Z c * 2 ^ (-1074) ->
              b == inject_Z d * 2 ^ (-1074) ->
              b < a -> 0 < round64 (a - b)).
  { intros a b c d _ _ Ea Eb L.
    apply Qlt_le_trans with (2 ^ (-1074)); [exact P|].
    apply round64_least. rewrite Ea, Eb in *.
    assert (D : (d < c)%Z).
    { rewrite Zlt_Qlt. apply Qmult_lt_r with (2 ^ (-1074)); assumption. }
    assert (D1 : 1 <= inject_Z c - inject_Z d).
    { assert (Z1 : (1 <= c - d)%Z) by lia. rewrite Zle_Qle in Z1.
      unfold Z.sub in Z1. rewrite inject_Z_plus, inject_Z_opp in Z1.
      change (inject_Z 1) with 1 in Z1. lra. }
    assert (X : inject_Z c * 2 ^ (-1074) - inject_Z d * 2 ^ (-1074)
                == (inject_Z c - inject_Z d) * 2 ^ (-1074)) by ring.
    rewrite X.
    assert (Y : 2 ^ (-1074) == 1 * 2 ^ (-1074)) by ring.
    rewrite Y at 1. apply Qmult_le_compat_r; lra. }
  assert (Pos : y < x -> 0 < round64 (x - y)) by (apply (G x y n n'); auto).
  assert (Neg : x < y -> round64 (x - y) < 0).
  { intro L. pose proof (G y x n' n By Bx Ey Ex L) as H.
    assert (X : y - x == - (x - y)) by ring.
    rewrite X, round64_opp in H. lra. }
  assert (Zer : x == y -> round64 (x - y) == 0).
  { intro E. rewrite round64_zero; [reflexivity | lra]. }
  destruct (Q_dec x y) as [[L | L] | E].
  - specialize (Neg L). repeat split; intros; lra.
  - specialize (Pos L). repeat split; intros; lra.
  - specialize (Zer E). repeat split; intros; lra.
Qed.

(** ** The rounding against the machine's

    On the figures of the examples below, on ties and on subnormal
    results, [round64] and the four operations give the doubles Rocq's
    primitive binary64 arithmetic gives. *)
Module FloatCheck.
Import PrimFloat.
Local Open Scope float_scope.

Example literals_agree :
  forallb (fun fq => agrees (fst fq) (snd fq))
          [ (0x1.999999999999ap-4, literal (1 # 10));
            (0x1.999999999999ap-3, literal (2 # 10));
            (0x1.3333333333333p-2, literal (3 # 10));
            (0x1.6666666666666p-1, literal (7 # 10));
            (0x1.ccccccccccccdp-1, literal (9 # 10));
            (0x1.3333333333333p-3, literal (15 # 100));
            (0x1.47ae147ae147bp-4, literal (8 # 100)) ]
  = true.
Proof. vm_compute. reflexivity. Qed.

Example sums_agree :
  forallb (fun fq => agrees (fst fq) (snd fq))
          [ (0x1.999999999999ap-4 + 0x1.999999999999ap-3,
             add64 (literal (1 # 10)) (literal (2 # 10)));
            (0x1.999999999999ap-4 + 0x1.999999999999ap-3
             + 0x1.3333333333333p-2,
             add64 (add64 (literal (1 # 10)) (literal (2 # 10)))
                   (literal (3 # 10)));
            (0x1.999999999999ap-4
             + (0x1.999999999999ap-3 + 0x1.3333333333333p-2),
             add64 (literal (1 # 10))
                   (add64 (literal (2 # 10)) (literal (3 # 10))));
            (0x1.ccccccccccccdp-1 - 0x1.3333333333333p-2,
             sub64 (literal (9 # 10)) (literal (3 # 10)));
            (0x1.3333333333333p-2
             + (0x1.ccccccccccccdp-1 - 0x1.3333333333333p-2),
             add64 (literal (3 # 10))
                   (sub64 (literal (9 # 10)) (literal (3 # 10))));
            (0x1p53 + 1, add64 (2 ^ 53) 1);
            (0x1p53 + 3, add64 (2 ^ 53) 3);
            (0x1p53 - 0x1p-1, sub64 (2 ^ 53) (1 # 2));
            (0x1p53 - 0x1.8p-1, sub64 (2 ^ 53) (3 # 4)) ]
  = true.
Proof. vm_compute. reflexivity. Qed.

Example products_agree :
  forallb (fun fq => agrees (fst fq) (snd fq))
          [ (90 * 0x1.6666666666666p-1, mul64 90 (literal (7 # 10)));
            (0x1.3333333333333p-2 * 0x1.3333333333333p-3,
             mul64 (literal (3 # 10)) (literal (15 # 100)));
            ((0x1.3333333333333p-2 - 0x1.999999999999ap-4)
             * 0x1.3333333333333p-3,
             mul64 (sub64 (literal (3 # 10)) (literal (1 # 10)))
                   (literal (15 # 100)));
            (1 / 3, div64 1 3);
            (0x1.ccccccccccccdp-1 / 0x1.3333333333333p-2 * 100,
             mul64 (div64 (literal (9 # 10)) (literal (3 # 10))) 100);
            (0x1p-1000 * 0x1.8p-70, mul64 (2 ^ (-1000)) ((3 # 2) * 2 ^ (-70)));
            (0x1p-1000 * 0x1.8p-74, mul64 (2 ^ (-1000)) ((3 # 2) * 2 ^ (-74)));
            (0x1p-1000 * 0x1.8p-75, mul64 (2 ^ (-1000)) ((3 # 2) * 2 ^ (-75)));
            (0x1p-1000 * 0x1p-75, mul64 (2 ^ (-1000)) (2 ^ (-75))) ]
  = true.
Proof. vm_compute. reflexivity. Qed.

End FloatCheck.

(** ** Plain objects and the grouping by day *)

Lemma order_perm (created : list string) :
  Permutation (JsObject.order created) created.
Proof.
  unfold JsObject.order.
  apply Permutation_trans
    with (filter JsObject.isIndex created
          ++ filter (fun key => negb (JsObject.isIndex key)) created).
  - apply Permutation_app_tail. apply sort_perm.
  - induction created as [|k ks IH]; cbn [filter]; [reflexivity|].
    destruct (JsObject.isIndex k); cbn [negb app].
    + now constructor.
    + apply Permutation_trans
        with (k :: filter JsObject.isIndex ks
                ++ filter (fun key => negb (JsObject.isIndex key)) ks).
      * symmetry. apply Permutation_middle.
      * now constructor.
Qed.

Lemma order_In (created : list string) (key : string) :
  In key (JsObject.order created) <-> In key created.
Proof.
  split; apply Permutation_in; [|symmetry]; apply order_perm.
Qed.

Lemma filter_all {A : Type} (f : A -> bool) (l : list A) :
  (forall x, In x l -> f x = true) -> filter f l = l.
Proof.
  induction l as [|x l IH]; intro H; cbn [filter]; [reflexivity|].
  rewrite (H x (or_introl eq_refl)). f_equal. apply IH.
  intros y Hy. apply H. now right.
Qed.

Lemma filter_none {A : Type} (f : A -> bool) (l : list A) :
  (forall x, In x l -> f x = false) -> filter f l = [].
Proof.
  induction l as [|x l IH]; intro H; cbn [filter]; [reflexivity|].
  rewrite (H x (or_introl eq_refl)). apply IH.
  intros y Hy. apply H. now right.
Qed.

(** Without array indices among them, own keys are enumerated in creation
    order. *)
Lemma order_plain (created : list string) :
  (forall key, In key created -> JsObject.isIndex key = false) ->
  JsObject.order created = created.
Proof.
  intro H. unfold JsObject.order.
  rewrite (filter_none _ _ H). cbn [JsArray.sort fold_right app].
  apply filter_all. intros k Hk. now rewrite (H k Hk).
Qed.

Lemma table_object_values {V : Type} (F : string -> V) (ks : list string) :
  JsObject.values (table F ks) = map F (JsObject.order ks).
Proof.
  unfold JsObject.values, JsObject.keys.
  rewrite (table_keys (V := V)).
  assert (S : forall l, (forall k, In k l -> In k ks) ->
              flat_map (fun key =>
                          match JsMap.get String.eqb (table F ks) key with
                          | Some v => [v]
                          | None => []
                          end) l = map F l).
  { induction l as [|k l IH]; intro H; cbn [flat_map map]; [reflexivity|].
    rewrite (table_get String.eqb String.eqb_spec F ks k
                       (H k (or_introl eq_refl))).
    cbn [app]. f_equal. apply IH. intros k' Hk'. apply H. now right. }
  apply S. intros k Hk. now apply order_In.
Qed.

Lemma table_object_keys {V : Type} (F : string -> V) (ks : list string) :
  JsObject.keys (table F ks) = JsObject.order ks.
Proof. unfold JsObject.keys. now rewrite (table_keys (V := V)). Qed.

(** One turn of the grouping loop on a date that names no member of
    [Object.prototype]. *)
Lemma groupStep_table (data : list SolarDataPoint) (p : SolarDataPoint) :
  JsObject.inherits (date p) = false ->
  groupStep (Some (table (fun d => onDate d data) (dates data))) p
  = Some (table (fun d => onDate d (data ++ [p])) (dates (data ++ [p]))).
Proof.
  intro I. unfold groupStep, JsObject.get.
  rewrite dates_snoc. unfold JsSet.add.
  destruct (JsSet.has (dates data) (date p)) eqn:H.
  - apply JsSet_has_In in H.
    rewrite (table_get String.eqb String.eqb_spec _ _ _ H).
    rewrite (table_get String.eqb String.eqb_spec _ _ _ H).
    rewrite (table_set String.eqb String.eqb_spec _ _ _ _
               (dates_NoDup data) H).
    f_equal. apply map_ext. intro d. f_equal. rewrite onDate_snoc.
    destruct (String.eqb_spec (date p) d) as [<- | _];
      [reflexivity | now rewrite app_nil_r].
  - assert (N : ~ In (date p) (dates data)).
    { intro X. apply JsSet_has_In in X. congruence. }
    rewrite (table_get_absent String.eqb String.eqb_spec _ _ _ N), I.
    rewrite (table_set_absent String.eqb String.eqb_spec _ _ _ _ N).
    assert (G : forall (m : JsMap.t (K := string)
                                    (V := list SolarDataPoint)) k v,
               JsMap.get String.eqb m k = None ->
               JsMap.get String.eqb (m ++ [(k, v)]) k = Some v).
    { intros m k v. induction m as [|[k0 v0] m IHm];
        cbn [JsMap.get app]; intro G0.
      - now rewrite String.eqb_refl.
      - destruct (String.eqb k k0); [discriminate | auto]. }
    rewrite G
      by (apply (table_get_absent String.eqb String.eqb_spec); assumption).
    assert (S : forall (m : JsMap.t (K := string)
                                    (V := list SolarDataPoint)) k v v',
               JsMap.get String.eqb m k = None ->
               JsMap.set String.eqb (m ++ [(k, v)]) k v' = m ++ [(k, v')]).
    { intros m k v v'. induction m as [|[k0 v0] m IHm];
        cbn [JsMap.get JsMap.set app]; intro G0.
      - now rewrite String.eqb_refl.
      - destruct (String.eqb k k0); [discriminate|]. f_equal. auto. }
    rewrite S
      by (apply (table_get_absent String.eqb String.eqb_spec); assumption).
    f_equal. unfold table. rewrite map_app. cbn [map app]. f_equal.
    + apply map_ext_in. intros d Hd. f_equal. rewrite onDate_snoc.
      destruct (String.eqb_spec (date p) d) as [<- | _];
        [contradiction | now rewrite app_nil_r].
    + rewrite onDate_snoc, (onDate_absent _ _ N), String.eqb_refl.
      reflexivity.
Qed.

Lemma groupStep_None (l : list SolarDataPoint) :
  fold_left groupStep l None = None.
Proof. induction l as [|p l IH]; cbn [fold_left groupStep]; auto. Qed.

(** The object the grouping loop builds has one property per distinct
    date, created in order of first appearance, holding that date's records
    in their order in the input. *)
Lemma groupByDate_table (data : list SolarDataPoint) :
  PlainDates data ->
  groupByDate data = Some (table (fun d => onDate d data) (dates data)).
Proof.
  unfold groupByDate, PlainDates.
  induction data as [|p data IH] using rev_ind; intro P.
  - reflexivity.
  - apply Forall_app in P. destruct P as [P Pp].
    rewrite fold_left_app, (IH P). cbn [fold_left].
    apply groupStep_table. now inversion Pp.
Qed.

(** A date that names a member of [Object.prototype] makes the loop
    throw. *)
Lemma groupByDate_throws (data : list SolarDataPoint) :
  ~ PlainDates data -> groupByDate data = None.
Proof.
  unfold groupByDate, PlainDates.
  induction data as [|p data IH] using rev_ind; intro P.
  - elim P. constructor.
  - rewrite fold_left_app. cbn [fold_left].
    destruct (JsObject.inherits (date p)) eqn:I.
    + destruct (fold_left groupStep data (Some [])) as [o|] eqn:F;
        [|reflexivity].
      destruct (Forall_Exists_dec
                  (fun q => JsObject.inherits (date q) = false)
                  (fun q => bool_dec _ _) data) as [A | E].
      * pose proof (groupByDate_table data A) as T.
        unfold groupByDate in T. rewrite F in T. injection T as ->.
        unfold groupStep, JsObject.get.
        destruct (JsMap.get String.eqb
                    (table (fun d => onDate d data) (dates data)) (date p))
          as [v|] eqn:G.
        -- exfalso.
           assert (H : In (date p) (dates data)).
           { apply (table_has String.eqb String.eqb_spec
                              (fun d => onDate d data)).
             unfold JsMap.has. now rewrite G. }
           apply dates_In in H. destruct H as (q & Hq & Eq).
           rewrite Forall_forall in A. specialize (A q Hq).
           rewrite Eq in A. congruence.
        -- rewrite I. now rewrite G.
      * assert (N : ~ Forall (fun q => JsObject.inherits (date q) = false)
                           data).
        { intro A. apply Exists_Forall_neg in E; [contradiction|].
          intro q. destruct (JsObject.inherits (date q)); [right | left];
            congruence. }
        discriminate (IH N).
    + assert (N : ~ Forall (fun q => JsObject.inherits (date q) = false)
                         data).
      { intro A. apply P. apply Forall_app. split; [exact A|].
        now constructor. }
      now rewrite (IH N).
Qed.

Lemma groups_are_days (data : list SolarDataPoint)
      (dailyData : JsMap.t (K := string) (V := list SolarDataPoint)) :
  groupByDate data = Some dailyData ->
  JsObject.values dailyData = map (fun d => onDate d data) (dayOrder data) /\
  JsObject.keys dailyData = dayOrder data.
Proof.
  intro G.
  destruct (Forall_Exists_dec
              (fun q => JsObject.inherits (date q) = false)
              (fun q => bool_dec _ _) data) as [A | E].
  - rewrite (groupByDate_table data A) in G. injection G as <-.
    split; [apply table_object_values | apply table_object_keys].
  - assert (N : ~ PlainDates data).
    { intro A. apply Exists_Forall_neg in E; [contradiction|].
      intro q. destruct (JsObject.inherits (date q)); [right | left];
        congruence. }
    rewrite (groupByDate_throws data N) in G. discriminate G.
Qed.

Lemma dayOrder_perm (data : list SolarDataPoint) :
  Permutation (dayOrder data) (dates data).
Proof. apply order_perm. Qed.

Lemma dayOrder_In (data : list SolarDataPoint) (d : string) :
  In d (dayOrder data) <-> exists p, In p data /\ date p = d.
Proof. unfold dayOrder. rewrite order_In. apply dates_In. Qed.

Lemma day_inv (data : list SolarDataPoint) (d : string) :
  In d (dayOrder data) ->
  onDate d data <> [] /\ forall p, In p (onDate d data) -> In p data.
Proof.
  intro H. unfold dayOrder in H. apply (proj1 (order_In _ _)) in H. split.
  - now apply onDate_present.
  - intros p Hp. now apply onDate_In in Hp.
Qed.

(** ** Arithmetic on doubles *)

(** *** The four operations *)

#[global] Instance add64_Proper : Proper (Qeq ==> Qeq ==> Qeq) add64.
Proof. intros x x' Ex y y' Ey. unfold add64. now rewrite Ex, Ey. Qed.

#[global] Instance sub64_Proper : Proper (Qeq ==> Qeq ==> Qeq) sub64.
Proof. intros x x' Ex y y' Ey. unfold sub64. now rewrite Ex, Ey. Qed.

#[global] Instance mul64_Proper : Proper (Qeq ==> Qeq ==> Qeq) mul64.
Proof. intros x x' Ex y y' Ey. unfold mul64. now rewrite Ex, Ey. Qed.

#[global] Instance div64_Proper : Proper (Qeq ==> Qeq ==> Qeq) div64.
Proof. intros x x' Ex y y' Ey. unfold div64. now rewrite Ex, Ey. Qed.

Lemma Binary64_0 : Binary64 0.
Proof. reflexivity. Qed.

Lemma Binary64_1 : Binary64 1.
Proof. unfold Binary64. vm_compute. reflexivity. Qed.

Lemma Binary64_100 : Binary64 100.
Proof. unfold Binary64. vm_compute. reflexivity. Qed.

Lemma round64_Binary64 (x : Q) : Binary64 x -> round64 x == x.
Proof. intro H. exact H. Qed.

Lemma Binary64_max (x y : Q) : Binary64 x -> Binary64 y -> Binary64 (Qmax x y).
Proof.
  intros Hx Hy. destruct (Q.max_spec x y) as [[_ E] | [_ E]];
    apply (Binary64_compat _ _ (Qeq_sym _ _ E)); assumption.
Qed.

Lemma Binary64_min (x y : Q) : Binary64 x -> Binary64 y -> Binary64 (Qmin x y).
Proof.
  intros Hx Hy. destruct (Q.min_spec x y) as [[_ E] | [_ E]];
    apply (Binary64_compat _ _ (Qeq_sym _ _ E)); assumption.
Qed.

Lemma add64_Binary64 (x y : Q) : Binary64 (add64 x y).
Proof. apply round64_idem. Qed.

Lemma sub64_Binary64 (x y : Q) : Binary64 (sub64 x y).
Proof. apply round64_idem. Qed.

Lemma mul64_Binary64 (x y : Q) : Binary64 (mul64 x y).
Proof. apply round64_idem. Qed.

Lemma div64_Binary64 (x y : Q) : Binary64 (div64 x y).
Proof. apply round64_idem. Qed.

Lemma add64_le (x x' y y' : Q) :
  x <= x' -> y <= y' -> add64 x y <= add64 x' y'.
Proof. intros. apply round64_le. lra. Qed.

Lemma add64_nonneg (x y : Q) : 0 <= x -> 0 <= y -> 0 <= add64 x y.
Proof. intros. apply round64_nonneg. lra. Qed.


Lemma sub64_le_l (x y : Q) : Binary64 x -> 0 <= y -> sub64 x y <= x.
Proof.
  intros B H. unfold Binary64 in B. rewrite <- B at 2.
  apply round64_le. lra.
Qed.

Lemma sub64_nonneg (x y : Q) : y <= x -> 0 <= sub64 x y.
Proof. intro H. apply round64_nonneg. lra. Qed.

Lemma mul64_nonneg (x y : Q) : 0 <= x -> 0 <= y -> 0 <= mul64 x y.
Proof. intros. apply round64_nonneg. now apply Qmult_le_0_compat. Qed.

Lemma div64_nonneg (x y : Q) : 0 <= x -> 0 < y -> 0 <= div64 x y.
Proof.
  intros Hx Hy. apply round64_nonneg. apply Qle_shift_div_l; lra.
Qed.



(** A percentage of a part of a whole lies between 0 and 100. *)
Lemma percentage64_range (a d : Q) :
  0 <= a -> a <= d -> 0 < d ->
  0 <= mul64 (div64 a d) 100 <= 100.
Proof.
  intros Ha Had Hd.
  assert (Q0 : 0 <= div64 a d) by now apply div64_nonneg.
  assert (Q1 : div64 a d <= 1).
  { pose proof Binary64_1 as B. unfold Binary64 in B. rewrite <- B.
    apply round64_le. apply Qle_shift_div_r; lra. }
  split.
  - apply mul64_nonneg; lra.
  - pose proof Binary64_100 as B. unfold Binary64 in B. rewrite <- B at 2.
    apply round64_le. lra.
Qed.

(** *** Sums taken left to right *)

Lemma fold_add64_Binary64 {A : Type} (f : A -> Q) (l : list A) (a : Q) :
  Binary64 a -> Binary64 (fold_left (fun s x => add64 s (f x)) l a).
Proof.
  revert a. induction l as [|x l IH]; intros a B; cbn [fold_left].
  - exact B.
  - apply IH, add64_Binary64.
Qed.

Lemma fold_add64_nonneg {A : Type} (f : A -> Q) (l : list A) (a : Q) :
  0 <= a -> (forall x, In x l -> 0 <= f x) ->
  0 <= fold_left (fun s x => add64 s (f x)) l a.
Proof.
  revert a. induction l as [|x l IH]; intros a Ha H; cbn [fold_left].
  - exact Ha.
  - apply IH.
    + apply add64_nonneg; [exact Ha | apply H; now left].
    + intros y Hy. apply H. now right.
Qed.

Lemma fold_add64_le {A : Type} (f g : A -> Q) (l : list A) (a b : Q) :
  a <= b -> (forall x, In x l -> f x <= g x) ->
  fold_left (fun s x => add64 s (f x)) l a
  <= fold_left (fun s x => add64 s (g x)) l b.
Proof.
  revert a b. induction l as [|x l IH]; intros a b Hab H; cbn [fold_left].
  - exact Hab.
  - apply IH.
    + apply add64_le; [exact Hab | apply H; now left].
    + intros y Hy. apply H. now right.
Qed.

Lemma sum64_map {A : Type} (f : A -> Q) (l : list A) :
  sum64 (map f l) = fold_left (fun s x => add64 s (f x)) l 0.
Proof.
  unfold sum64. generalize 0 at 1 2. induction l as [|x l IH]; intro a;
    cbn [map fold_left]; [reflexivity | apply IH].
Qed.

Lemma sum64_nonneg (l : list Q) : Forall (Qle 0) l -> 0 <= sum64 l.
Proof.
  intro H. rewrite <- (map_id l), sum64_map.
  apply fold_add64_nonneg; [lra|]. now apply Forall_forall.
Qed.

Lemma sum64_Binary64 (l : list Q) : Binary64 (sum64 l).
Proof.
  rewrite <- (map_id l), sum64_map.
  apply fold_add64_Binary64, Binary64_0.
Qed.

(** *** Operations that do not round *)

Lemma OnGrid_compat (k : Z) (x y : Q) : x == y -> OnGrid k x -> OnGrid k y.
Proof. intros E [n H]. exists n. now rewrite <- E. Qed.

Lemma OnGrid_0 (k : Z) : OnGrid k 0.
Proof. exists 0%Z. change (inject_Z 0) with 0. ring. Qed.

Lemma OnGrid_add (k : Z) (x y : Q) :
  OnGrid k x -> OnGrid k y -> OnGrid k (x + y).
Proof.
  intros [n Hn] [m Hm]. exists (n + m)%Z.
  rewrite inject_Z_plus, Hn, Hm. ring.
Qed.

Lemma OnGrid_opp (k : Z) (x : Q) : OnGrid k x -> OnGrid k (- x).
Proof.
  intros [n Hn]. exists (- n)%Z. rewrite inject_Z_opp, Hn. ring.
Qed.

Lemma OnGrid_sub (k : Z) (x y : Q) :
  OnGrid k x -> OnGrid k y -> OnGrid k (x - y).
Proof. intros Hx Hy. apply OnGrid_add; [exact Hx | now apply OnGrid_opp]. Qed.

Lemma OnGrid_max (k : Z) (x y : Q) :
  OnGrid k x -> OnGrid k y -> OnGrid k (Qmax x y).
Proof.
  intros Hx Hy. destruct (Q.max_spec x y) as [[_ E] | [_ E]];
    apply (OnGrid_compat k _ _ (Qeq_sym _ _ E)); assumption.
Qed.


Lemma OnGrid_mul (k j : Z) (x y : Q) :
  OnGrid k x -> OnGrid j y -> OnGrid (k + j) (x * y).
Proof.
  intros [n Hn] [m Hm]. exists (n * m)%Z.
  rewrite inject_Z_mult, Hn, Hm.
  replace (- (k + j))%Z with (- k + - j)%Z by lia.
  rewrite pow2_add. ring.
Qed.

Lemma OnGrid_sumOf {A : Type} (k : Z) (f : A -> Q) (l : list A) :
  (forall x, In x l -> OnGrid k (f x)) -> OnGrid k (sumOf f l).
Proof.
  induction l as [|x l IH]; intro H.
  - apply (OnGrid_compat k 0); [now rewrite sumOf_nil | apply OnGrid_0].
  - apply (OnGrid_compat k (f x + sumOf f l)); [now rewrite sumOf_cons|].
    apply OnGrid_add; [apply H; now left|].
    apply IH. intros y Hy. apply H. now right.
Qed.

(** A multiple of [2 ^ -k] within the bound is a double. *)
Lemma grid_exact (k : Z) (x : Q) :
  (0 <= k <= 1074)%Z -> OnGrid k x -> Qabs x <= gridBound k -> Binary64 x.
Proof.
  intros K [n Hn] B. apply (Binary64_compat (inject_Z n * 2 ^ (- k)));
    [now symmetry|].
  apply Binary64_exact; [|lia].
  pose proof (pow2_pos (- k)) as P.
  unfold gridBound in B. rewrite Hn in B.
  replace (53 - k)%Z with (53 + - k)%Z in B by lia.
  rewrite pow2_add, (pow2_Z 53) in B by lia.
  rewrite Qabs_Qmult, (Qabs_pos (2 ^ (- k))) in B by lra.
  apply Qmult_le_r in B; [|exact P].
  assert (A : Qabs (inject_Z n) == inject_Z (Z.abs n)).
  { unfold inject_Z. symmetry. apply Zabs_Qabs. }
  rewrite A in B. now rewrite <- Zle_Qle in B.
Qed.

Lemma add64_exact (k : Z) (x y : Q) :
  (0 <= k <= 1074)%Z -> OnGrid k x -> OnGrid k y ->
  Qabs (x + y) <= gridBound k -> add64 x y == x + y.
Proof.
  intros K Hx Hy B. apply (grid_exact k); [exact K | | exact B].
  now apply OnGrid_add.
Qed.

Lemma sub64_exact (k : Z) (x y : Q) :
  (0 <= k <= 1074)%Z -> OnGrid k x -> OnGrid k y ->
  Qabs (x - y) <= gridBound k -> sub64 x y == x - y.
Proof.
  intros K Hx Hy B. apply (grid_exact k); [exact K | | exact B].
  now apply OnGrid_sub.
Qed.

Lemma mul64_exact (k j : Z) (x y : Q) :
  (0 <= k + j <= 1074)%Z -> OnGrid k x -> OnGrid j y ->
  Qabs (x * y) <= gridBound (k + j) -> mul64 x y == x * y.
Proof.
  intros K Hx Hy B. apply (grid_exact (k + j)); [exact K | | exact B].
  now apply OnGrid_mul.
Qed.

(** A sum of non-negative multiples of [2 ^ -k] that stays within the
    bound is taken without rounding. *)
Lemma fold_add64_exact {A : Type} (k : Z) (f : A -> Q) (l : list A) :
  (0 <= k <= 1074)%Z ->
  (forall x, In x l -> OnGrid k (f x) /\ 0 <= f x) ->
  forall a,
    OnGrid k a -> 0 <= a -> a + sumOf f l <= gridBound k ->
    fold_left (fun s x => add64 s (f x)) l a == a + sumOf f l.
Proof.
  intros K. induction l as [|x l IH]; intros H a Ga Pa B;
    cbn [fold_left].
  - rewrite sumOf_nil. ring.
  - destruct (H x (or_introl eq_refl)) as [Gx Px].
    rewrite sumOf_cons in B.
    assert (S : 0 <= sumOf f l).
    { apply sumOf_nonneg. intros y Hy. apply H. now right. }
    assert (E : add64 a (f x) == a + f x).
    { apply (add64_exact k); try assumption.
      rewrite Qabs_pos; lra. }
    assert (R : fold_left (fun s y => add64 s (f y)) l (add64 a (f x))
                == add64 a (f x) + sumOf f l).
    { apply IH.
      - intros y Hy. apply H. now right.
      - apply (OnGrid_compat k (a + f x)); [now symmetry|].
        now apply OnGrid_add.
      - lra.
      - lra. }
    rewrite R, E, sumOf_cons. ring.
Qed.

Lemma sum64_exact (k : Z) (l : list Q) :
  (0 <= k <= 1074)%Z ->
  Forall (fun x => OnGrid k x /\ 0 <= x) l -> Qsum l <= gridBound k ->
  sum64 l == Qsum l.
Proof.
  intros K F B. rewrite <- (map_id l) at 1. rewrite sum64_map.
  rewrite (fold_add64_exact k (fun x : Q => x) l K).
  - unfold sumOf. rewrite map_id. ring.
  - now apply Forall_forall.
  - apply OnGrid_0.
  - lra.
  - unfold sumOf. rewrite map_id. lra.
Qed.

Lemma sumOf_filter_le {A : Type} (f : A -> Q) (g : A -> bool) (l : list A) :
  (forall x, In x l -> 0 <= f x) -> sumOf f (filter g l) <= sumOf f l.
Proof.
  induction l as [|x l IH]; intro H; cbn [filter].
  - lra.
  - assert (0 <= f x) by (apply H; now left).
    assert (sumOf f (filter g l) <= sumOf f l)
      by (apply IH; intros y Hy; apply H; now right).
    destruct (g x); rewrite ?sumOf_cons; lra.
Qed.

Lemma fold_add64_ext {A : Type} (f g : A -> Q) (l : list A) :
  (forall x, In x l -> f x == g x) ->
  forall a b,
    a == b ->
    fold_left (fun s x => add64 s (f x)) l a
    == fold_left (fun s x => add64 s (g x)) l b.
Proof.
  induction l as [|x l IH]; intros H a b E; cbn [fold_left].
  - exact E.
  - apply IH; [intros y Hy; apply H; now right|].
    rewrite E, (H x (or_introl eq_refl)). reflexivity.
Qed.

(** The same for terms of either sign. *)
Lemma fold_add64_exact_signed {A : Type} (k : Z) (f : A -> Q) (l : list A) :
  (0 <= k <= 1074)%Z ->
  (forall x, In x l -> OnGrid k (f x)) ->
  forall a,
    OnGrid k a ->
    Qabs a + sumOf (fun x => Qabs (f x)) l <= gridBound k ->
    fold_left (fun s x => add64 s (f x)) l a == a + sumOf f l.
Proof.
  intros K. induction l as [|x l IH]; intros H a Ga B; cbn [fold_left].
  - rewrite sumOf_nil. ring.
  - pose proof (H x (or_introl eq_refl)) as Gx.
    rewrite sumOf_cons in B.
    assert (S : 0 <= sumOf (fun y => Qabs (f y)) l).
    { apply sumOf_nonneg. intros y _. apply Qabs_nonneg. }
    pose proof (Qabs_triangle a (f x)) as T.
    assert (E : add64 a (f x) == a + f x).
    { apply (add64_exact k); try assumption. lra. }
    assert (R : fold_left (fun s y => add64 s (f y)) l (add64 a (f x))
                == add64 a (f x) + sumOf f l).
    { apply IH.
      - intros y Hy. apply H. now right.
      - apply (OnGrid_compat k (a + f x)); [now symmetry|].
        now apply OnGrid_add.
      - rewrite E. lra. }
    rewrite R, E, sumOf_cons. ring.
Qed.

Lemma sumOf_elem_le {A : Type} (f : A -> Q) (l : list A) (x : A) :
  (forall y, In y l -> 0 <= f y) -> In x l -> f x <= sumOf f l.
Proof.
  induction l as [|y l IH]; intros N Hx; [contradiction|].
  rewrite sumOf_cons.
  assert (S : 0 <= sumOf f l)
    by (apply sumOf_nonneg; intros z Hz; apply N; now right).
  pose proof (N y (or_introl eq_refl)) as Ny.
  destruct Hx as [<- | Hx]; [lra|].
  assert (f x <= sumOf f l) by (apply IH; [intros z Hz; apply N; now right
                                          | exact Hx]).
  lra.
Qed.

Lemma sumOf_scale {A : Type} (f : A -> Q) (c : Q) (l : list A) :
  sumOf (fun x => f x * c) l == sumOf f l * c.
Proof.
  induction l as [|x l IH].
  - rewrite !sumOf_nil. ring.
  - rewrite !sumOf_cons, IH. ring.
Qed.


(** ** The storage simulation *)

Ltac storage_fields :=
  cbn [DayStorage.dailyExcess DayStorage.dailyDeficit
       DayStorage.dailyStorageLevel
       DayStorage.dailyAdditionalSelfConsumption
       DayStorage.maxStorageNeeded fst snd].

(** One turn of the inner loop. *)
Lemma storageStep_rules (st : DayStorage.t) (p : SolarDataPoint) :
  let excess := orZero (excessExport p) in
  let deficit := orZero (gridImport p) in
  let level := DayStorage.dailyStorageLevel st in
  let additional := DayStorage.dailyAdditionalSelfConsumption st in
  let st' := Double.storageStep st p in
  (0 < excess ->
   DayStorage.dailyStorageLevel st' = add64 level excess /\
   DayStorage.dailyAdditionalSelfConsumption st' = additional) /\
  (excess <= 0 -> 0 < deficit -> 0 < level ->
   DayStorage.dailyStorageLevel st' = sub64 level (Qmin level deficit) /\
   DayStorage.dailyAdditionalSelfConsumption st'
   = add64 additional (Qmin level deficit)) /\
  (excess <= 0 -> deficit <= 0 \/ level <= 0 ->
   DayStorage.dailyStorageLevel st' = level /\
   DayStorage.dailyAdditionalSelfConsumption st' = additional) /\
  DayStorage.maxStorageNeeded st'
  = Qmax (DayStorage.maxStorageNeeded st) (DayStorage.dailyStorageLevel st')
  /\ DayStorage.dailyExcess st' = add64 (DayStorage.dailyExcess st) excess
  /\ DayStorage.dailyDeficit st' = add64 (DayStorage.dailyDeficit st) deficit.
Proof.
  cbv zeta. unfold Double.storageStep.
  destruct (Qgtb (orZero (excessExport p)) 0) eqn:E.
  - apply Qgtb_true in E. storage_fields.
    repeat split; try reflexivity; intros; lra.
  - apply Qgtb_false in E.
    destruct (Qgtb (orZero (gridImport p)) 0) eqn:D;
      [destruct (Qgtb (DayStorage.dailyStorageLevel st) 0) eqn:L|];
      cbn [andb]; storage_fields.
    + apply Qgtb_true in D. apply Qgtb_true in L.
      repeat split; try reflexivity; try (intros; lra);
        intros _ [H' | H']; lra.
    + apply Qgtb_false in L.
      repeat split; try reflexivity; intros; lra.
    + apply Qgtb_false in D.
      repeat split; try reflexivity; intros; lra.
Qed.

Lemma walk_last_cons (pts : list SolarDataPoint) :
  forall st d,
    last (st :: walk st pts) d = fold_left Double.storageStep pts st.
Proof.
  induction pts as [|p pts IH]; intros st d; cbn [fold_left walk].
  - reflexivity.
  - rewrite <- (IH (Double.storageStep st p) d). reflexivity.
Qed.

Lemma walk_last (pts : list SolarDataPoint) :
  forall st, fold_left Double.storageStep pts st = last (walk st pts) st.
Proof.
  intro st. destruct pts as [|p pts]; cbn [fold_left walk].
  - reflexivity.
  - symmetry. apply walk_last_cons.
Qed.


(** The greatest level needed is the greatest level reached. *)
Lemma walk_max (pts : list SolarDataPoint) :
  forall st,
    DayStorage.maxStorageNeeded (fold_left Double.storageStep pts st)
    == QmaxList (DayStorage.maxStorageNeeded st)
                (map DayStorage.dailyStorageLevel (walk st pts)).
Proof.
  induction pts as [|p pts IH]; intro st; cbn [fold_left walk map].
  - reflexivity.
  - rewrite IH.
    destruct (storageStep_rules st p) as (_ & _ & _ & M & _).
    cbv zeta in M. rewrite M. cbn [QmaxList fold_right].
    apply QmaxList_shift.
Qed.

Lemma simulateDay_max (dayPoints : list SolarDataPoint) :
  DayStorage.maxStorageNeeded (Double.simulateDay dayPoints)
  == dayMaxLevel (JsArray.sort byHour dayPoints).
Proof. unfold Double.simulateDay, dayMaxLevel. apply walk_max. Qed.

(** What the outer loop accumulates over the days. *)
Lemma storageDay_fold (days : list (list SolarDataPoint)) :
  forall acc,
    let acc' := fold_left Double.storageDay days acc in
    StorageAcc.potentialAdditionalSelfConsumption acc'
    = fold_left
        (fun s pts =>
           add64 s (DayStorage.dailyAdditionalSelfConsumption
                      (Double.simulateDay pts)))
        days (StorageAcc.potentialAdditionalSelfConsumption acc) /\
    StorageAcc.optimalStorageCapacity acc'
    == QmaxList (StorageAcc.optimalStorageCapacity acc)
                (map (fun pts =>
                        DayStorage.maxStorageNeeded (Double.simulateDay pts))
                     days) /\
    StorageAcc.totalExcessEnergy acc'
    = fold_left
        (fun s pts => add64 s (DayStorage.dailyExcess (Double.simulateDay pts)))
        days (StorageAcc.totalExcessEnergy acc) /\
    StorageAcc.totalDeficitEnergy acc'
    = fold_left
        (fun s pts =>
           add64 s (DayStorage.dailyDeficit (Double.simulateDay pts)))
        days (StorageAcc.totalDeficitEnergy acc).
Proof.
  induction days as [|pts days IH]; intro acc; cbv zeta;
    cbn [fold_left map].
  - repeat split; reflexivity.
  - destruct (IH (Double.storageDay acc pts)) as (A & M & X & D).
    cbv zeta in A, M, X, D.
    cbn [Double.storageDay StorageAcc.potentialAdditionalSelfConsumption
         StorageAcc.optimalStorageCapacity StorageAcc.totalExcessEnergy
         StorageAcc.totalDeficitEnergy] in A, M, X, D.
    repeat split; try assumption.
    rewrite M. cbn [QmaxList fold_right]. apply QmaxList_shift.
Qed.

(** The result of [calculateStoragePotential], field by field. *)
Lemma calculateStoragePotential_fields (data : list SolarDataPoint) :
  PlainDates data ->
  let days := map (fun d => onDate d data) (dayOrder data) in
  let acc := fold_left Double.storageDay days (StorageAcc.mk 0 0 0 0) in
  let demand :=
    fold_left (fun sum point => add64 sum (energyDemand point)) data 0 in
  let consumed :=
    fold_left
      (fun sum point =>
         add64 sum (sub64 (solarProduction point)
                          (orZero (excessExport point)))) data 0 in
  let additional := StorageAcc.potentialAdditionalSelfConsumption acc in
  let current :=
    if Qgtb demand 0 then mul64 (div64 consumed demand) 100 else 0 in
  let potential :=
    if Qgtb demand 0
    then mul64 (div64 (add64 consumed additional) demand) 100 else 0 in
  Double.calculateStoragePotential data
  = Some (StoragePotential.mk
            (StorageAcc.totalExcessEnergy acc)
            (StorageAcc.totalDeficitEnergy acc)
            additional
            (StorageAcc.optimalStorageCapacity acc)
            current potential (sub64 potential current)
            (if Qgtb (StorageAcc.totalExcessEnergy acc) 0
             then mul64 (div64 additional (StorageAcc.totalExcessEnergy acc))
                        100
             else 0)).
Proof.
  intro P. cbv zeta. unfold Double.calculateStoragePotential.
  rewrite (groupByDate_table data P), table_object_values. reflexivity.
Qed.

(** C6. For every collection of records of the record model (no record
    both exporting and importing, no date the name of a member of
    [Object.prototype]), [calculateStoragePotential] returns a result; it
    groups the records by date and walks each day on its own, in hour
    order, from a storage level of 0.  On a record with [excessExport > 0]
    the excess is added to storage; on a record with [gridImport > 0] met
    by a storage level above 0, [min(storageLevel, gridImport)] is added to
    the additional self-consumption and taken from storage; any other
    record changes neither.  The day's contribution is what its walk ends
    with, and [optimalStorageCapacity] is the greatest over the days of the
    greatest level reached within the day, not a sum. *)
Theorem calculateStoragePotential_simulation (data : list SolarDataPoint) :
  PlainDates data -> Forall ExportOrImport data ->
  exists r,
    Double.calculateStoragePotential data = Some r /\
    (exists dailyData,
        groupByDate data = Some dailyData /\
        JsObject.values dailyData
        = map (fun d => onDate d data) (dayOrder data)) /\
    (Permutation (dayOrder data) (dates data) /\
     forall d p, In p (onDate d data) <-> In p data /\ date p = d) /\
    (forall st p,
        In p data ->
        let excess := orZero (excessExport p) in
        let deficit := orZero (gridImport p) in
        let level := DayStorage.dailyStorageLevel st in
        let additional := DayStorage.dailyAdditionalSelfConsumption st in
        let st' := Double.storageStep st p in
        (0 < excess ->
         DayStorage.dailyStorageLevel st' = add64 level excess /\
         DayStorage.dailyAdditionalSelfConsumption st' = additional) /\
        (0 < deficit -> 0 < level ->
         DayStorage.dailyStorageLevel st' = sub64 level (Qmin level deficit)
         /\ DayStorage.dailyAdditionalSelfConsumption st'
            = add64 additional (Qmin level deficit)) /\
        (excess <= 0 -> deficit <= 0 \/ level <= 0 ->
         DayStorage.dailyStorageLevel st' = level /\
         DayStorage.dailyAdditionalSelfConsumption st' = additional)) /\
    (forall dayPoints,
        Double.simulateDay dayPoints
        = last (walk DayStorage.init (JsArray.sort byHour dayPoints))
               DayStorage.init) /\
    StoragePotential.potentialAdditionalSelfConsumption r
    = sum64 (map (fun d =>
                    DayStorage.dailyAdditionalSelfConsumption
                      (Double.simulateDay (onDate d data)))
                 (dayOrder data)) /\
    StoragePotential.optimalStorageCapacity r
    == QmaxList 0 (map (fun d => dayMaxLevel (dayOf d data))
                       (dayOrder data)).
Proof.
  intros P X. rewrite (calculateStoragePotential_fields data P).
  eexists. split; [reflexivity|].
  cbn [StoragePotential.potentialAdditionalSelfConsumption
       StoragePotential.optimalStorageCapacity].
  split.
  { exists (table (fun d => onDate d data) (dates data)).
    split; [now apply groupByDate_table | apply table_object_values]. }
  split; [split; [apply dayOrder_perm | intros; apply onDate_In]|].
  split.
  { intros st p Hp. rewrite Forall_forall in X. specialize (X p Hp).
    unfold ExportOrImport in X.
    destruct (storageStep_rules st p) as (R1 & R2 & R3 & _).
    cbv zeta in *. split; [exact R1|]. split; [|exact R3].
    intros Hd Hl. apply R2; [|exact Hd | exact Hl].
    destruct (Qlt_le_dec 0 (orZero (excessExport p))) as [H | H];
      [|exact H]. exfalso. apply X. split; assumption. }
  split; [intro; apply walk_last|].
  destruct (storageDay_fold (map (fun d => onDate d data) (dayOrder data))
                            (StorageAcc.mk 0 0 0 0)) as (A & M & _ & _).
  cbv zeta in A, M.
  cbn [StorageAcc.potentialAdditionalSelfConsumption
       StorageAcc.optimalStorageCapacity] in A, M.
  split.
  - rewrite A, sum64_map.
    generalize 0 at 1 2. generalize (dayOrder data).
    induction l as [|d l IH]; intro a; cbn [map fold_left];
      [reflexivity | apply IH].
  - rewrite M, map_map. apply QmaxList_ext. intros d _.
    apply simulateDay_max.
Qed.

Lemma testData_PlainDates : PlainDates testData.
Proof. repeat constructor. Qed.

Lemma testData_ExportOrImport : Forall ExportOrImport testData.
Proof.
  repeat constructor; intros [A B]; vm_compute in A, B; discriminate.
Qed.

Lemma calculateStoragePotential_simulation_witness :
  PlainDates testData /\ Forall ExportOrImport testData /\
  exists r,
    Double.calculateStoragePotential testData = Some r /\
    StoragePotential.potentialAdditionalSelfConsumption r
    = sum64 (map (fun d =>
                    DayStorage.dailyAdditionalSelfConsumption
                      (Double.simulateDay (onDate d testData)))
                 (dayOrder testData)) /\
    StoragePotential.optimalStorageCapacity r
    == QmaxList 0 (map (fun d => dayMaxLevel (dayOf d testData))
                       (dayOrder testData)).
Proof.
  split; [exact testData_PlainDates|].
  split; [exact testData_ExportOrImport|].
  destruct (calculateStoragePotential_simulation
              testData testData_PlainDates testData_ExportOrImport)
    as (r & E & _ & _ & _ & _ & A & M).
  exists r. auto.
Defined.

(** The figures of the repository's test: 8 kWh of excess, 4 kWh of
    deficit, all 4 of them served from the 6 kWh stored on the first day. *)
Example calculateStoragePotential_testData :
  exists r,
    Double.calculateStoragePotential testData = Some r /\
    StoragePotential.totalExcessEnergy r == 8 /\
    StoragePotential.totalDeficitEnergy r == 4 /\
    StoragePotential.potentialAdditionalSelfConsumption r == 4 /\
    StoragePotential.optimalStorageCapacity r == 6 /\
    StoragePotential.potentialSelfSufficiency r == 100.
Proof.
  eexists. split; [vm_compute; reflexivity|]. vm_compute. repeat split.
Qed.

(** A date that names a member of [Object.prototype] makes both
    simulations throw. *)
Example calculateStoragePotential_constructor :
  Double.calculateStoragePotential [samplePoint "constructor" 10 5 2] = None.
Proof. reflexivity. Qed.

(** ** Bounds on the storage simulation *)

Lemma groups_sum (q : Quantity) (data : list SolarDataPoint) :
  sumOf (fun d => sumOf (ofPoint q) (onDate d data)) (dayOrder data)
  == sumOf (ofPoint q) data.
Proof.
  rewrite (sumOf_perm _ _ _ (dayOrder_perm data)).
  rewrite <- (aggregateByDay_sum (fun _ => 0%Z) q data).
  rewrite aggregateByDay_entries_perm.
  rewrite (sumOf_perm _ _ _ (sort_perm _ _)).
  unfold dayEntries. rewrite sumOf_map. apply sumOf_ext.
  intros d Hd. symmetry. apply (dayEntry_spec data d Hd).
Qed.



Lemma sort_Forall {A : Type} (cmp : A -> A -> Q) (P : A -> Prop)
      (l : list A) :
  Forall P l -> Forall P (JsArray.sort cmp l).
Proof.
  rewrite !Forall_forall. intros H x Hx. apply H.
  exact (proj1 (sort_In cmp l x) Hx).
Qed.













(** ** Peak shaving *)

(** The head of the array sorted by descending demand has the greatest
    demand. *)
Lemma sort_byDemandDesc_head (l r : list SolarDataPoint)
      (x : SolarDataPoint) :
  DoubleDemands l ->
  JsArray.sort Double.byDemandDesc l = x :: r ->
  In x l /\ forall p, In p l -> energyDemand p <= energyDemand x.
Proof.
  revert x r. unfold JsArray.sort, DoubleDemands.
  induction l as [|a l IH]; intros x r B; cbn [fold_right].
  - discriminate.
  - fold (JsArray.sort Double.byDemandDesc l) in *.
    inversion B as [|? ? Ba Bl]; subst.
    destruct (JsArray.sort Double.byDemandDesc l) as [|y r'] eqn:S;
      cbn [JsArray.insert].
    + apply sort_nil_inv in S. subst l. intro E. injection E as <- <-.
      split; [now left|]. intros p [<- | []]. lra.
    + destruct (IH y r' Bl eq_refl) as [Iy My].
      assert (By : Binary64 (energyDemand y))
        by exact (proj1 (Forall_forall _ _) Bl y Iy).
      destruct (sub64_sign (energyDemand a) (energyDemand y) Ba By)
        as (_ & Neg & _).
      unfold Double.byDemandDesc at 1.
      destruct (Qltb (sub64 (energyDemand a) (energyDemand y)) 0) eqn:T;
        intro E; injection E as <- <-.
      * apply Qltb_true in T. apply Neg in T. split; [now right|].
        intros p [<- | Hp]; [lra | now apply My].
      * apply Qltb_false in T. split; [now left|].
        assert (U : energyDemand y <= energyDemand a).
        { destruct (Qlt_le_dec (energyDemand a) (energyDemand y)) as [C|C];
            [|exact C]. apply Neg in C. lra. }
        intros p [<- | Hp]; [lra|]. specialize (My p Hp). lra.
Qed.

Lemma maxOf_cons (x : Q) (xs : list Q) :
  exists m, JsArray.maxOf (x :: xs) = Some m /\ m == QmaxList x xs.
Proof.
  eexists. split; [reflexivity|].
  pose proof (fold_left_Qmax (fun q : Q => q) xs x) as H.
  rewrite map_id in H. exact H.
Qed.

Lemma shave_length (peak rate level : Q) (pts : list SolarDataPoint) :
  List.length (Double.shave peak rate level pts) = List.length pts.
Proof.
  revert level. induction pts as [|p pts IH]; intro level;
    cbn [Double.shave].
  - reflexivity.
  - destruct (Double.discharge peak rate level p); cbn [List.length];
      now rewrite IH.
Qed.

(** A day with records has a peak before and a peak after shaving. *)
Lemma shaveDay_nonempty (cap rate : Q) (pts : list SolarDataPoint) :
  pts <> [] -> exists d, Double.shaveDay cap rate pts = Some d.
Proof.
  intro N. unfold Double.shaveDay.
  destruct (JsArray.sort Double.byDemandDesc (JsArray.sort byHour pts))
    as [|x r] eqn:S.
  - apply sort_nil_inv, sort_nil_inv in S. contradiction.
  - set (m := Double.shave _ _ _ _).
    assert (L : List.length m = List.length pts)
      by (subst m; now rewrite shave_length, sort_length).
    destruct m as [|q m']; [destruct pts; [contradiction | discriminate]|].
    cbn [map]. destruct (maxOf_cons (orZero (gridImport q))
                           (map (fun p => orZero (gridImport p)) m'))
      as (v & -> & _).
    eauto.
Qed.

(** The three totals of the loop over the days are its three running sums,
    each taken in the order of the days. *)
Lemma peakDay_fold (cap rate : Q) (days : list (list SolarDataPoint)) :
  (forall pts, In pts days -> pts <> []) ->
  forall acc,
  fold_left (Double.peakDay cap rate) days (Some acc)
  = Some (PeakAcc.mk
            (fold_left add64 (map (dayPeakDemand cap rate) days)
                       (PeakAcc.totalPeakDemand acc))
            (fold_left add64 (map (dayPeakAfter cap rate) days)
                       (PeakAcc.totalPeakDemandAfterShaving acc))
            (fold_left add64
                       (map (fun pts => sub64 (dayPeakDemand cap rate pts)
                                              (dayPeakAfter cap rate pts))
                            days)
                       (PeakAcc.totalPeakReduction acc))).
Proof.
  induction days as [|pts days IH]; intros N acc; cbn [fold_left map].
  - now destruct acc.
  - destruct (shaveDay_nonempty cap rate pts) as [d Hd];
      [apply N; now left|].
    unfold Double.peakDay at 2. rewrite Hd.
    rewrite IH by (intros; apply N; now right).
    cbn [PeakAcc.totalPeakDemand PeakAcc.totalPeakDemandAfterShaving
         PeakAcc.totalPeakReduction].
    unfold dayPeakDemand, dayPeakAfter. rewrite Hd. reflexivity.
Qed.

Lemma shaveDay_peaks (cap rate : Q) (pts : list SolarDataPoint)
      (d : DayPeak.t) :
  DoubleDemands pts ->
  Double.shaveDay cap rate pts = Some d ->
  let modified :=
    Double.shave (DayPeak.peakDemand d) rate cap (JsArray.sort byHour pts) in
  ((exists p, In p pts /\ DayPeak.peakDemand d = energyDemand p) /\
   (forall p, In p pts -> energyDemand p <= DayPeak.peakDemand d)) /\
  ((exists q, In q modified /\
              DayPeak.peakDemandAfterShaving d == orZero (gridImport q)) /\
   (forall q, In q modified ->
              orZero (gridImport q) <= DayPeak.peakDemandAfterShaving d)).
Proof.
  intro B. unfold Double.shaveDay.
  destruct (JsArray.sort Double.byDemandDesc (JsArray.sort byHour pts))
    as [|x r] eqn:S; [discriminate|].
  assert (B' : DoubleDemands (JsArray.sort byHour pts))
    by (apply sort_Forall; exact B).
  destruct (sort_byDemandDesc_head _ _ _ B' S) as [Ix Mx].
  set (m := Double.shave (energyDemand x) rate cap (JsArray.sort byHour pts)).
  destruct m as [|q m'] eqn:Em; [discriminate|]. cbn [map].
  destruct (maxOf_cons (orZero (gridImport q))
                       (map (fun p => orZero (gridImport p)) m'))
    as (v & -> & Hv).
  intro E. injection E as <-.
  cbn [DayPeak.peakDemand DayPeak.peakDemandAfterShaving]. cbv zeta.
  fold m. rewrite Em. split; [split|split].
  - exists x. split; [|reflexivity]. exact (proj1 (sort_In byHour pts x) Ix).
  - intros p Hp. apply Mx. exact (proj2 (sort_In byHour pts p) Hp).
  - destruct (QmaxList_attained (orZero (gridImport q))
                (map (fun p => orZero (gridImport p)) m'))
      as [A | (y & Hy & A)].
    + exists q. split; [now left | lra].
    + apply in_map_iff in Hy. destruct Hy as (q' & <- & Hq').
      exists q'. split; [now right | lra].
  - intros q' [<- | Hq'].
    + pose proof (QmaxList_ge_base (orZero (gridImport q))
                    (map (fun p => orZero (gridImport p)) m')). lra.
    + assert (orZero (gridImport q')
              <= QmaxList (orZero (gridImport q))
                          (map (fun p => orZero (gridImport p)) m')).
      { apply QmaxList_ge. apply in_map_iff. now exists q'. }
      lra.
Qed.

(** One record of the shaving walk. *)
Lemma shave_step (peak rate level : Q) (p : SolarDataPoint)
      (rest : list SolarDataPoint) :
  let need :=
    Qmin3 (sub64 (energyDemand p)
                 (sub64 (solarProduction p) (orZero (excessExport p))))
          rate level in
  (mul64 peak Double.c07 < energyDemand p -> 0 < level -> 0 < need ->
   Double.shave peak rate level (p :: rest)
   = withGridImport p (Qmax 0 (sub64 (orZero (gridImport p)) need))
     :: Double.shave peak rate (sub64 level need) rest) /\
  (energyDemand p <= mul64 peak Double.c07 \/ level <= 0 \/ need <= 0 ->
   Double.shave peak rate level (p :: rest)
   = p :: Double.shave peak rate level rest).
Proof.
  cbv zeta. cbn [Double.shave]. unfold Double.discharge. split.
  - intros H1 H2 H3. apply Qgtb_true in H1. apply Qgtb_true in H2.
    apply Qgtb_true in H3. now rewrite H1, H2, H3.
  - intros [H | [H | H]]; apply Qgtb_false in H.
    + now rewrite H.
    + rewrite H, andb_false_r. reflexivity.
    + rewrite H. now destruct (_ && _).
Qed.

(** The counterexample to C7 as stated: with a negative total of the daily
    peaks the denominator is not 0, and the percentage returned is 0, not
    the quotient. *)
Lemma calculatePeakShaving_negative_peak_counterexample :
  exists r,
    Double.calculatePeakShaving negativeDemand defaultStorageCapacity
                                defaultMaxDischargeRate = Some r /\
    ~ PeakShaving.totalPeakDemand r == 0 /\
    PeakShaving.peakReductionPercentage r == 0 /\
    mul64 (div64 (PeakShaving.totalPeakReduction r)
                 (PeakShaving.totalPeakDemand r)) 100
    == 100 /\
    ~ PeakShaving.peakReductionPercentage r
      == mul64 (div64 (PeakShaving.totalPeakReduction r)
                      (PeakShaving.totalPeakDemand r)) 100.
Proof.
  eexists. split; [vm_compute; reflexivity|].
  vm_compute. repeat split; discriminate.
Qed.

(** C7 (amended). On records with plain dates whose demands are doubles,
    [calculatePeakShaving] returns a result.  For every day the peak before
    shaving is the greatest [energyDemand] of the day; storage starts at
    [storageCapacity]; walking the day in hour order, a record with
    [energyDemand] above the double [peakDemand * 0.7] met by a positive
    storage level discharges [min(energyDemand - (solarProduction -
    excessExport), maxDischargeRate, storageLevel)] when that is positive,
    lowering the record's [gridImport] by it, not below 0, and the storage
    by it; the peak after shaving is the greatest [gridImport] after the
    walk.  The two peaks and their difference are each summed over the
    days in the order of the days, and [peakReductionPercentage] is
    [totalPeakReduction / totalPeakDemand * 100] when [totalPeakDemand] is
    positive and 0 otherwise.  Every operation is the binary64 one. *)
Theorem calculatePeakShaving_simulation
        (data : list SolarDataPoint) (storageCapacity maxDischargeRate : Q) :
  PlainDates data -> DoubleDemands data ->
  exists r,
    Double.calculatePeakShaving data storageCapacity maxDischargeRate
    = Some r /\
    (forall d,
       In d (dayOrder data) ->
       exists dp,
         Double.shaveDay storageCapacity maxDischargeRate (onDate d data)
         = Some dp /\
         let modified :=
           Double.shave (DayPeak.peakDemand dp) maxDischargeRate
                        storageCapacity (dayOf d data) in
         ((exists p, In p (onDate d data) /\
                     DayPeak.peakDemand dp = energyDemand p) /\
          (forall p, In p (onDate d data) ->
                     energyDemand p <= DayPeak.peakDemand dp)) /\
         ((exists q, In q modified /\
                     DayPeak.peakDemandAfterShaving dp
                     == orZero (gridImport q)) /\
          (forall q, In q modified ->
                     orZero (gridImport q)
                     <= DayPeak.peakDemandAfterShaving dp))) /\
    (forall peak level p rest,
       let need :=
         Qmin3 (sub64 (energyDemand p)
                      (sub64 (solarProduction p) (orZero (excessExport p))))
               maxDischargeRate level in
       (mul64 peak Double.c07 < energyDemand p -> 0 < level -> 0 < need ->
        Double.shave peak maxDischargeRate level (p :: rest)
        = withGridImport p (Qmax 0 (sub64 (orZero (gridImport p)) need))
          :: Double.shave peak maxDischargeRate (sub64 level need) rest) /\
       (energyDemand p <= mul64 peak Double.c07 \/ level <= 0 \/ need <= 0 ->
        Double.shave peak maxDischargeRate level (p :: rest)
        = p :: Double.shave peak maxDischargeRate level rest)) /\
    PeakShaving.totalPeakDemand r
    = sum64 (map (fun d => dayPeakDemand storageCapacity maxDischargeRate
                                         (onDate d data)) (dayOrder data)) /\
    PeakShaving.totalPeakDemandAfterShaving r
    = sum64 (map (fun d => dayPeakAfter storageCapacity maxDischargeRate
                                        (onDate d data)) (dayOrder data)) /\
    PeakShaving.totalPeakReduction r
    = sum64 (map (fun d =>
                    sub64 (dayPeakDemand storageCapacity maxDischargeRate
                                         (onDate d data))
                          (dayPeakAfter storageCapacity maxDischargeRate
                                        (onDate d data)))
                 (dayOrder data)) /\
    (0 < PeakShaving.totalPeakDemand r ->
     PeakShaving.peakReductionPercentage r
     = mul64 (div64 (PeakShaving.totalPeakReduction r)
                    (PeakShaving.totalPeakDemand r)) 100) /\
    (PeakShaving.totalPeakDemand r <= 0 ->
     PeakShaving.peakReductionPercentage r = 0).
Proof.
  intros P B.
  pose proof (groupByDate_table data P) as G.
  destruct (groups_are_days data _ G) as [V K].
  assert (N : forall pts,
             In pts (map (fun d => onDate d data) (dayOrder data)) ->
             pts <> []).
  { intros pts H. apply in_map_iff in H. destruct H as (d & <- & Hd).
    apply (day_inv data d Hd). }
  unfold Double.calculatePeakShaving. rewrite G, V.
  rewrite (peakDay_fold storageCapacity maxDischargeRate _ N).
  eexists. split; [reflexivity|].
  cbn [PeakShaving.totalPeakDemand PeakShaving.totalPeakDemandAfterShaving
       PeakShaving.totalPeakReduction PeakShaving.peakReductionPercentage
       PeakAcc.totalPeakDemand PeakAcc.totalPeakDemandAfterShaving
       PeakAcc.totalPeakReduction].
  split.
  { intros d Hd.
    destruct (shaveDay_nonempty storageCapacity maxDischargeRate
                (onDate d data)) as [dp Hdp];
      [apply (day_inv data d Hd)|].
    exists dp. split; [exact Hdp|].
    apply (shaveDay_peaks storageCapacity maxDischargeRate (onDate d data));
      [|exact Hdp].
    apply Forall_forall. intros p Hp.
    apply (proj1 (Forall_forall _ _) B). now apply (day_inv data d Hd). }
  split; [intros; apply shave_step|].
  unfold sum64. rewrite !map_map.
  split; [reflexivity|]. split; [reflexivity|]. split; [reflexivity|].
  split.
  - intro H. apply Qgtb_true in H. now rewrite H.
  - intro H. apply Qgtb_false in H. now rewrite H.
Qed.

Lemma testData_DoubleDemands : DoubleDemands testData.
Proof. repeat constructor; vm_compute; reflexivity. Qed.

Lemma calculatePeakShaving_simulation_witness :
  PlainDates testData /\ DoubleDemands testData /\
  exists r,
    Double.calculatePeakShaving testData defaultStorageCapacity
                                defaultMaxDischargeRate = Some r /\
    PeakShaving.totalPeakDemand r
    = sum64 (map (fun d => dayPeakDemand defaultStorageCapacity
                                         defaultMaxDischargeRate
                                         (onDate d testData))
                 (dayOrder testData)).
Proof.
  split; [exact testData_PlainDates|].
  split; [exact testData_DoubleDemands|].
  destruct (calculatePeakShaving_simulation
              testData defaultStorageCapacity defaultMaxDischargeRate
              testData_PlainDates testData_DoubleDemands)
    as (r & E & _ & _ & T & _).
  exists r. split; [exact E | exact T].
Defined.

(** On the records of the repository's tests, with the default battery:
    the peaks 4 and 2.5 of the two days, nothing left to import. *)
Example calculatePeakShaving_testData :
  exists r,
    Double.calculatePeakShaving testData defaultStorageCapacity
                                defaultMaxDischargeRate = Some r /\
    PeakShaving.totalPeakDemand r == 65 # 10 /\
    PeakShaving.totalPeakDemandAfterShaving r == 2 /\
    PeakShaving.daysAnalyzed r = 2%Z.
Proof.
  eexists. split; [vm_compute; reflexivity|].
  vm_compute. repeat split.
Qed.

(** A demand of 63 at a peak of 90 is shaved, the double [90 * 0.7] being
    below 63: with the default battery the day's import falls from 63 to
    61 and the reduction is 29. *)
Example calculatePeakShaving_thresholdDay :
  mul64 90 Double.c07 < 63 /\
  exists r,
    Double.calculatePeakShaving thresholdDay defaultStorageCapacity
                                defaultMaxDischargeRate = Some r /\
    PeakShaving.totalPeakDemand r == 90 /\
    PeakShaving.totalPeakDemandAfterShaving r == 61 /\
    PeakShaving.totalPeakReduction r == 29.
Proof.
  split; [vm_compute; reflexivity|].
  eexists. split; [vm_compute; reflexivity|].
  vm_compute. repeat split.
Qed.

(** A date that names a member of [Object.prototype] makes the grouping
    throw. *)
Example calculatePeakShaving_constructor :
  Double.calculatePeakShaving [samplePoint "constructor" 10 5 2]
                              defaultStorageCapacity defaultMaxDischargeRate
  = None.
Proof. reflexivity. Qed.

(** ** The daily aggregation and the summary in binary64 *)

Lemma dayStep64_keyed :
  Double.dayStep = keyedStep date dayCreate dayAdd64.
Proof. reflexivity. Qed.

Lemma aggregateByDay64_entries (getTime : string -> option Z)
      (data : list SolarDataPoint) :
  Double.aggregateByDay getTime data
  = JsArray.sort (Double.byDate getTime) (dayEntries64 data).
Proof.
  unfold Double.aggregateByDay, dayEntries64. rewrite dayStep64_keyed.
  rewrite (keyed_table date dayCreate dayAdd64
                       (dayCreate (samplePoint "" 0 0 0)) data).
  rewrite table_values, map_map. reflexivity.
Qed.

(** An entry keeps its date and holds, for each quantity, the running
    binary64 sum of its records. *)
Lemma dayAdd64_fold (pts : list SolarDataPoint) :
  forall e,
    let r := fold_left dayAdd64 pts e in
    Daily.date r = Daily.date e /\
    forall q, ofDaily q r
              = fold_left (fun s p => add64 s (ofPoint q p)) pts
                          (ofDaily q e).
Proof.
  induction pts as [|p pts IH]; intro e; cbv zeta; cbn [fold_left].
  - split; reflexivity.
  - destruct (IH (dayAdd64 e p)) as (A & C). cbv zeta in A, C.
    split; [exact A|]. intro q. rewrite (C q). now destruct q.
Qed.

Lemma dayEntry64_spec (data : list SolarDataPoint) (d : string) :
  In d (dates data) ->
  let e := Double.setNetEnergy
             (entryOf date dayCreate dayAdd64
                      (dayCreate (samplePoint "" 0 0 0)) data d) in
  Daily.date e = d /\
  forall q, ofDaily q e = sum64 (map (ofPoint q) (onDate d data)).
Proof.
  intros H e. subst e. unfold entryOf.
  pose proof (withKey_present date d data H) as P.
  change (withKey date d data) with (onDate d data) in *.
  destruct (onDate d data) as [|first rest] eqn:E; [contradiction|].
  assert (F : date first = d).
  { apply (onDate_In d data first). rewrite E. now left. }
  destruct (dayAdd64_fold (first :: rest) (dayCreate first)) as (A & C).
  cbv zeta in A, C. split.
  - cbn [Double.setNetEnergy Daily.date]. rewrite A. exact F.
  - intro q. rewrite sum64_map.
    transitivity (ofDaily q (fold_left dayAdd64 (first :: rest)
                                       (dayCreate first)));
      [now destruct q|].
    rewrite (C q). now destruct q.
Qed.

Lemma dayEntries64_dates (data : list SolarDataPoint) :
  map Daily.date (dayEntries64 data) = dates data.
Proof.
  unfold dayEntries64. rewrite map_map.
  transitivity (map (fun d : string => d) (dates data)); [|apply map_id].
  apply map_ext_in. intros d H. apply (dayEntry64_spec data d H).
Qed.

(** The four totals of the summary are running binary64 sums over the
    collection. *)
Lemma summaryStep64_fold (q : Quantity) (data : list SolarDataPoint) :
  forall acc,
    ofSummaryAcc q (fold_left Double.summaryStep data acc)
    = fold_left (fun s p => add64 s (ofPoint q p)) data (ofSummaryAcc q acc).
Proof.
  induction data as [|p data IH]; intro acc; cbn [fold_left].
  - reflexivity.
  - rewrite IH. now destruct q.
Qed.

Lemma dates_sum (q : Quantity) (data : list SolarDataPoint) :
  sumOf (fun d => sumOf (ofPoint q) (onDate d data)) (dates data)
  == sumOf (ofPoint q) data.
Proof.
  rewrite <- (sumOf_perm _ _ _ (dayOrder_perm data)). apply groups_sum.
Qed.

(** When no addition rounds, a quantity summed over the entries of the
    days is the quantity summed over the records. *)
Lemma aggregateByDay64_sum (k : Z) (getTime : string -> option Z)
      (q : Quantity) (data : list SolarDataPoint) :
  DyadicRecords k data ->
  sum64 (map (ofDaily q) (Double.aggregateByDay getTime data))
  == sumOf (ofPoint q) data.
Proof.
  intros (K & G & B).
  assert (E : forall d, In d (dates data) ->
                ofDaily q (Double.setNetEnergy
                             (entryOf date dayCreate dayAdd64
                                      (dayCreate (samplePoint "" 0 0 0))
                                      data d))
                == sumOf (ofPoint q) (onDate d data)).
  { intros d Hd. rewrite (proj2 (dayEntry64_spec data d Hd) q), sum64_map.
    rewrite (fold_add64_exact k (ofPoint q) (onDate d data) K).
    - ring.
    - intros p Hp. apply G. now apply onDate_In in Hp.
    - apply OnGrid_0.
    - lra.
    - apply Qle_trans with (sumOf (ofPoint q) data); [|apply B].
      rewrite Qplus_0_l. apply sumOf_filter_le.
      intros p Hp. now apply G. }
  assert (S : Qsum (map (ofDaily q) (Double.aggregateByDay getTime data))
              == sumOf (ofPoint q) data).
  { fold (sumOf (ofDaily q) (Double.aggregateByDay getTime data)).
    rewrite aggregateByDay64_entries.
    rewrite (sumOf_perm _ _ _ (sort_perm _ _)).
    unfold dayEntries64. rewrite sumOf_map.
    rewrite (sumOf_ext _ _ _ E). apply dates_sum. }
  rewrite (sum64_exact k _ K); [exact S | | rewrite S; apply B].
  apply Forall_forall. intros x Hx. apply in_map_iff in Hx.
  destruct Hx as (e & <- & He).
  rewrite aggregateByDay64_entries in He.
  apply (proj1 (sort_In _ _ _)) in He. unfold dayEntries64 in He.
  apply in_map_iff in He. destruct He as (d & <- & Hd).
  split.
  - apply (OnGrid_compat k _ _ (Qeq_sym _ _ (E d Hd))).
    apply OnGrid_sumOf. intros p Hp. apply G. now apply onDate_In in Hp.
  - rewrite (E d Hd). apply sumOf_nonneg.
    intros p Hp. apply G. now apply onDate_In in Hp.
Qed.

Lemma calculateSummary64_sum (k : Z) (q : Quantity)
      (data : list SolarDataPoint) :
  DyadicRecords k data ->
  ofSummaryAcc q (fold_left Double.summaryStep data
                            (SummaryAcc.mk 0 0 0 0 0 0))
  == sumOf (ofPoint q) data.
Proof.
  intros (K & G & B). rewrite summaryStep64_fold.
  assert (Z0 : ofSummaryAcc q (SummaryAcc.mk 0 0 0 0 0 0) = 0)
    by now destruct q.
  rewrite Z0. rewrite (fold_add64_exact k (ofPoint q) data K).
  - ring.
  - intros p Hp. now apply G.
  - apply OnGrid_0.
  - lra.
  - rewrite Qplus_0_l. apply B.
Qed.

(** The counterexample to C4 as stated: with 0.1 kWh produced on one day
    and 0.2 and 0.3 kWh on the next, the entries of the two days hold 0.1
    and 0.5 and add up to the double 0.6, while the summary adds 0.1, 0.2
    and 0.3 in turn and returns the next double above it. *)
Lemma aggregateByDay_rounding_counterexample :
  map Daily.solarProduction (Double.aggregateByDay isoTime splitDays)
  = [literal (1 # 10); add64 (literal (2 # 10)) (literal (3 # 10))] /\
  sum64 (map Daily.solarProduction (Double.aggregateByDay isoTime splitDays))
  == literal (6 # 10) /\
  literal (6 # 10)
  < Summary.totalSolarProduction (Double.calculateSummary splitDays) /\
  ~ sum64 (map Daily.solarProduction
               (Double.aggregateByDay isoTime splitDays))
    == Summary.totalSolarProduction (Double.calculateSummary splitDays).
Proof.
  split; [vm_compute; reflexivity|].
  split; [vm_compute; reflexivity|].
  split; [vm_compute; reflexivity|].
  vm_compute. discriminate.
Qed.

(** C4 (amended). In exact arithmetic, summing each of [solarProduction],
    [energyDemand], [gridImport] and [excessExport] over the entries
    [aggregateByDay] returns gives the total [calculateSummary] returns,
    for every collection.  In binary64 the two are sums taken in different
    groupings, and they agree when no addition rounds, as on records whose
    four quantities are non-negative multiples of a power of two with
    totals within 53 bits. *)
Theorem aggregateByDay_totals_match_summary (data : list SolarDataPoint) :
  (forall getTime : string -> Z,
      sumOf Daily.solarProduction (aggregateByDay getTime data)
      == Summary.totalSolarProduction (calculateSummary data) /\
      sumOf Daily.energyDemand (aggregateByDay getTime data)
      == Summary.totalEnergyDemand (calculateSummary data) /\
      sumOf Daily.gridImport (aggregateByDay getTime data)
      == Summary.totalGridImport (calculateSummary data) /\
      sumOf Daily.excessExport (aggregateByDay getTime data)
      == Summary.totalExcessExport (calculateSummary data)) /\
  (forall (getTime : string -> option Z) (k : Z),
      DyadicRecords k data ->
      sum64 (map Daily.solarProduction (Double.aggregateByDay getTime data))
      == Summary.totalSolarProduction (Double.calculateSummary data) /\
      sum64 (map Daily.energyDemand (Double.aggregateByDay getTime data))
      == Summary.totalEnergyDemand (Double.calculateSummary data) /\
      sum64 (map Daily.gridImport (Double.aggregateByDay getTime data))
      == Summary.totalGridImport (Double.calculateSummary data) /\
      sum64 (map Daily.excessExport (Double.aggregateByDay getTime data))
      == Summary.totalExcessExport (Double.calculateSummary data)).
Proof.
  split.
  - intro getTime. apply (aggregateByDay_totals_exact getTime data).
  - intros getTime k D. unfold Double.calculateSummary.
    cbn [Summary.totalSolarProduction Summary.totalEnergyDemand
         Summary.totalGridImport Summary.totalExcessExport].
    assert (H : forall q,
               sum64 (map (ofDaily q) (Double.aggregateByDay getTime data))
               == ofSummaryAcc q (fold_left Double.summaryStep data
                                            (SummaryAcc.mk 0 0 0 0 0 0))).
    { intro q. rewrite (aggregateByDay64_sum k getTime q data D).
      symmetry. apply (calculateSummary64_sum k q data D). }
    repeat split.
    + exact (H Production).
    + exact (H Demand).
    + exact (H Import).
    + exact (H Export).
Qed.

(** The records of the repository's tests are multiples of a half. *)
Lemma testData_DyadicRecords : DyadicRecords 1 testData.
Proof.
  split; [lia|]. split.
  - intros q p Hp.
    assert (F : Forall (fun p => forall q,
                          (exists n : Z,
                              ofPoint q p == inject_Z n * 2 ^ (- (1))) /\
                          0 <= ofPoint q p) testData).
    { unfold testData, rawData. cbn [map].
      repeat (apply Forall_cons;
              [ intro q'; destruct q';
                (split;
                 [ match goal with
                   | |- exists n : Z, ?x == _ =>
                       exists (Qfloor (x * 2)); vm_compute; reflexivity
                   end
                 | vm_compute; discriminate ]) |]).
      apply Forall_nil. }
    exact (proj1 (Forall_forall _ _) F p Hp q).
  - intro q. destruct q; vm_compute; discriminate.
Qed.

Lemma aggregateByDay_totals_match_summary_witness :
  DyadicRecords 1 testData /\
  sum64 (map Daily.solarProduction (Double.aggregateByDay isoTime testData))
  == Summary.totalSolarProduction (Double.calculateSummary testData) /\
  sumOf Daily.solarProduction
        (aggregateByDay (fun _ => 0%Z) testData)
  == Summary.totalSolarProduction (calculateSummary testData).
Proof.
  split; [exact testData_DyadicRecords|].
  destruct (aggregateByDay_totals_match_summary testData) as [E D].
  split.
  - exact (proj1 (D isoTime 1%Z testData_DyadicRecords)).
  - exact (proj1 (E (fun _ => 0%Z))).
Defined.

(** ** Cost savings in binary64 *)

(** What [Double.calculateDerivedMetrics] returns is derived in
    binary64. *)
Lemma calculateDerivedMetrics64_Derived64 (p : SolarDataPoint) :
  Derived64 (Double.calculateDerivedMetrics p).
Proof.
  unfold Derived64, Double.calculateDerivedMetrics.
  cbn [withDerived gridImport excessExport solarProduction energyDemand
       orZero].
  assert (O : sub64 (energyDemand p) (solarProduction p)
              == - sub64 (solarProduction p) (energyDemand p)).
  { unfold sub64. rewrite <- round64_opp. apply round64_compat. ring. }
  rewrite O. set (n := sub64 (solarProduction p) (energyDemand p)).
  unfold Qgtb.
  destruct (Qltb n 0) eqn:E1; [apply Qltb_true in E1 | apply Qltb_false in E1];
    (destruct (Qltb 0 n) eqn:E2;
     [apply Qltb_true in E2 | apply Qltb_false in E2]);
    try rewrite (Qabs_of_neg n E1);
    split; qmax 0 (- n); qmax 0 n; lra.
Qed.

(** The five totals are running binary64 sums of the five figures of a
    record. *)
Lemma costStep64_fold (ri re : Q) (l : list SolarDataPoint) :
  forall acc,
    let r := fold_left (Double.costStep ri re) l acc in
    CostAcc.totalGridImportCost r
    = fold_left (fun s p => add64 s (mul64 (orZero (gridImport p)) ri)) l
                (CostAcc.totalGridImportCost acc) /\
    CostAcc.totalGridExportCredit r
    = fold_left (fun s p => add64 s (mul64 (orZero (excessExport p)) re)) l
                (CostAcc.totalGridExportCredit acc) /\
    CostAcc.totalSolarSavings r
    = fold_left (fun s p =>
                   add64 s (mul64 (sub64 (solarProduction p)
                                         (orZero (excessExport p))) ri)) l
                (CostAcc.totalSolarSavings acc) /\
    CostAcc.totalCostWithoutSolar r
    = fold_left (fun s p => add64 s (mul64 (energyDemand p) ri)) l
                (CostAcc.totalCostWithoutSolar acc) /\
    CostAcc.totalCostWithSolar r
    = fold_left (fun s p =>
                   add64 s (sub64 (mul64 (orZero (gridImport p)) ri)
                                  (mul64 (orZero (excessExport p)) re))) l
                (CostAcc.totalCostWithSolar acc).
Proof.
  induction l as [|p l IH]; intro acc; cbv zeta; cbn [fold_left].
  - repeat split.
  - destruct (IH (Double.costStep ri re acc p)) as (A & B & C & D & E).
    cbv zeta in A, B, C, D, E. rewrite A, B, C, D, E. repeat split.
Qed.

(** On records where nothing rounds, deriving in binary64 is deriving. *)
Lemma Derived64_Derived (k : Z) (data : list SolarDataPoint)
      (p : SolarDataPoint) :
  DyadicRecords k data -> In p data -> Derived64 p -> Derived p.
Proof.
  intros (K & G & B) Hp [Hg He].
  destruct (G Production p Hp) as [Gs Ps].
  destruct (G Demand p Hp) as [Gd Pd].
  cbn [ofPoint] in Gs, Ps, Gd, Pd.
  assert (Ls : solarProduction p <= gridBound k).
  { apply Qle_trans with (sumOf (ofPoint Production) data); [|apply B].
    apply (sumOf_elem_le (ofPoint Production) data p); [|exact Hp].
    intros y Hy. now apply G. }
  assert (Ld : energyDemand p <= gridBound k).
  { apply Qle_trans with (sumOf (ofPoint Demand) data); [|apply B].
    apply (sumOf_elem_le (ofPoint Demand) data p); [|exact Hp].
    intros y Hy. now apply G. }
  assert (E1 : sub64 (energyDemand p) (solarProduction p)
               == energyDemand p - solarProduction p).
  { apply (sub64_exact k); try assumption.
    apply Qabs_Qle_condition. split; lra. }
  assert (E2 : sub64 (solarProduction p) (energyDemand p)
               == solarProduction p - energyDemand p).
  { apply (sub64_exact k); try assumption.
    apply Qabs_Qle_condition. split; lra. }
  split.
  - rewrite Hg, E1. reflexivity.
  - rewrite He, E2. reflexivity.
Qed.

(** On derived records where nothing rounds, the five totals are the
    exact ones. *)
Lemma cost64_totals (k j : Z) (data : list SolarDataPoint) (ri re : Q) :
  DyadicCosts k j data ri re -> Forall Derived data ->
  let r := fold_left (Double.costStep ri re) data (CostAcc.mk 0 0 0 0 0) in
  CostAcc.totalGridExportCredit r
  == sumOf (fun p => orZero (excessExport p)) data * re /\
  CostAcc.totalSolarSavings r == sumOf selfConsumed data * ri /\
  CostAcc.totalCostWithoutSolar r == sumOf energyDemand data * ri /\
  CostAcc.totalCostWithSolar r
  == sumOf (fun p => orZero (gridImport p)) data * ri
     - sumOf (fun p => orZero (excessExport p)) data * re.
Proof.
  intros (R & J & KJ & (Gi & Pi) & (Ge & Pe) & B) D. cbv zeta.
  pose proof R as (K & G & Bk).
  assert (K' : (0 <= k + j <= 1074)%Z) by lia.
  assert (M : Forall Measured data).
  { apply Forall_forall. intros p Hp. split.
    - apply (G Production p Hp).
    - apply (G Demand p Hp). }
  rewrite Forall_forall in D, M.
  set (S := sumOf solarProduction data) in *.
  set (E := sumOf energyDemand data) in *.
  assert (S0 : 0 <= S)
    by (apply sumOf_nonneg; intros p Hp; apply (M p Hp)).
  assert (E0 : 0 <= E)
    by (apply sumOf_nonneg; intros p Hp; apply (M p Hp)).
  assert (P1 : 0 <= S * ri) by (apply Qmult_le_0_compat; assumption).
  assert (P2 : 0 <= S * re) by (apply Qmult_le_0_compat; assumption).
  assert (P3 : 0 <= E * ri) by (apply Qmult_le_0_compat; assumption).
  assert (P4 : 0 <= E * re) by (apply Qmult_le_0_compat; assumption).
  (* the figures of one record *)
  assert (Rec : forall p, In p data ->
            (0 <= selfConsumed p /\ 0 <= orZero (gridImport p) /\
             0 <= orZero (excessExport p)) /\
            (orZero (gridImport p) * ri <= E * ri /\
             orZero (excessExport p) * re <= S * re /\
             selfConsumed p * ri <= S * ri /\
             energyDemand p * ri <= E * ri) /\
            (OnGrid k (selfConsumed p) /\
             sub64 (solarProduction p) (orZero (excessExport p))
             == selfConsumed p)).
  { intros p Hp.
    destruct (Derived_Measured_bounds p (D p Hp) (M p Hp))
      as (C0 & G0 & X0 & GE & CE & CS).
    destruct (M p Hp) as [Ms Md].
    assert (Ls : solarProduction p <= S)
      by (apply (sumOf_elem_le solarProduction data p);
          [intros y Hy; apply (M y Hy) | exact Hp]).
    assert (Ld : energyDemand p <= E)
      by (apply (sumOf_elem_le energyDemand data p);
          [intros y Hy; apply (M y Hy) | exact Hp]).
    assert (XS : orZero (excessExport p) <= solarProduction p)
      by (unfold selfConsumed in C0; lra).
    split; [repeat split; assumption|]. split.
    - repeat split; apply Qmult_le_compat_r; try assumption; lra.
    - assert (Gc : OnGrid k (selfConsumed p)).
      { unfold selfConsumed. apply OnGrid_sub.
        + apply (G Production p Hp).
        + apply (G Export p Hp). }
      split; [exact Gc|]. unfold selfConsumed.
      apply (sub64_exact k); try assumption.
      + apply (G Production p Hp).
      + apply (G Export p Hp).
      + fold (selfConsumed p). rewrite Qabs_pos by exact C0.
        apply Qle_trans with (sumOf (ofPoint Production) data);
          [|apply Bk].
        change (sumOf (ofPoint Production) data) with S. lra. }
  assert (Mul : forall (x r : Q), OnGrid k x -> OnGrid j r ->
                  0 <= x * r -> x * r <= (S + E) * (ri + re) ->
                  mul64 x r == x * r).
  { intros x r Gx Gr P L. apply (mul64_exact k j); try assumption.
    rewrite Qabs_pos by exact P. lra. }
  assert (T : forall p, In p data ->
            mul64 (orZero (gridImport p)) ri == orZero (gridImport p) * ri /\
            mul64 (orZero (excessExport p)) re
            == orZero (excessExport p) * re /\
            mul64 (sub64 (solarProduction p) (orZero (excessExport p))) ri
            == selfConsumed p * ri /\
            mul64 (energyDemand p) ri == energyDemand p * ri).
  { intros p Hp.
    destruct (Rec p Hp) as ((C0 & G0 & X0) & (L1 & L2 & L3 & L4) & Gc & Ec).
    destruct (M p Hp) as [Ms Md].
    repeat split.
    - apply Mul; [apply (G Import p Hp) | exact Gi | | lra].
      now apply Qmult_le_0_compat.
    - apply Mul; [apply (G Export p Hp) | exact Ge | | lra].
      now apply Qmult_le_0_compat.
    - rewrite Ec. apply Mul; [exact Gc | exact Gi | | lra].
      now apply Qmult_le_0_compat.
    - apply Mul; [apply (G Demand p Hp) | exact Gi | | lra].
      now apply Qmult_le_0_compat. }
  assert (T5 : forall p, In p data ->
            sub64 (mul64 (orZero (gridImport p)) ri)
                  (mul64 (orZero (excessExport p)) re)
            == orZero (gridImport p) * ri - orZero (excessExport p) * re).
  { intros p Hp. destruct (T p Hp) as (A & B' & _).
    destruct (Rec p Hp) as ((C0 & G0 & X0) & (L1 & L2 & _) & _).
    rewrite A, B'. apply (sub64_exact (k + j)); try assumption.
    - apply OnGrid_mul; [apply (G Import p Hp) | exact Gi].
    - apply OnGrid_mul; [apply (G Export p Hp) | exact Ge].
    - assert (0 <= orZero (gridImport p) * ri)
        by now apply Qmult_le_0_compat.
      assert (0 <= orZero (excessExport p) * re)
        by now apply Qmult_le_0_compat.
      apply Qabs_Qle_condition. split; lra. }
  destruct (costStep64_fold ri re data (CostAcc.mk 0 0 0 0 0))
    as (_ & FB & FC & FD & FE).
  cbv zeta in FB, FC, FD, FE.
  cbn [CostAcc.totalGridExportCredit CostAcc.totalSolarSavings
       CostAcc.totalCostWithoutSolar CostAcc.totalCostWithSolar]
    in FB, FC, FD, FE.
  rewrite FB, FC, FD, FE. clear FB FC FD FE.
  assert (SX : sumOf (fun p => orZero (excessExport p)) data <= S).
  { apply sumOf_le. intros p Hp.
    destruct (Rec p Hp) as ((C0 & _) & _). unfold selfConsumed in C0. lra. }
  assert (SG : sumOf (fun p => orZero (gridImport p)) data <= E).
  { apply sumOf_le. intros p Hp.
    apply (Derived_Measured_bounds p (D p Hp) (M p Hp)). }
  assert (SC : sumOf selfConsumed data <= S).
  { apply sumOf_le. intros p Hp.
    apply (Derived_Measured_bounds p (D p Hp) (M p Hp)). }
  assert (SX0 : 0 <= sumOf (fun p => orZero (excessExport p)) data)
    by (apply sumOf_nonneg; intros p Hp; apply (Rec p Hp)).
  assert (SG0 : 0 <= sumOf (fun p => orZero (gridImport p)) data)
    by (apply sumOf_nonneg; intros p Hp; apply (Rec p Hp)).
  assert (SC0 : 0 <= sumOf selfConsumed data)
    by (apply sumOf_nonneg; intros p Hp; apply (Rec p Hp)).
  assert (QX : sumOf (fun p => orZero (excessExport p)) data * re <= S * re)
    by (apply Qmult_le_compat_r; assumption).
  assert (QG : sumOf (fun p => orZero (gridImport p)) data * ri <= E * ri)
    by (apply Qmult_le_compat_r; assumption).
  assert (QC : sumOf selfConsumed data * ri <= S * ri)
    by (apply Qmult_le_compat_r; assumption).
  assert (QX0 : 0 <= sumOf (fun p => orZero (excessExport p)) data * re)
    by (apply Qmult_le_0_compat; assumption).
  assert (QG0 : 0 <= sumOf (fun p => orZero (gridImport p)) data * ri)
    by (apply Qmult_le_0_compat; assumption).
  split; [|split; [|split]].
  - rewrite (fold_add64_ext _ (fun p => orZero (excessExport p) * re)
                            data (fun p Hp => proj1 (proj2 (T p Hp)))
                            0 0 (Qeq_refl 0)).
    rewrite (fold_add64_exact (k + j) _ data K').
    + rewrite sumOf_scale. ring.
    + intros p Hp. split.
      * apply OnGrid_mul; [apply (G Export p Hp) | exact Ge].
      * apply Qmult_le_0_compat; [apply (Rec p Hp) | exact Pe].
    + apply OnGrid_0.
    + lra.
    + rewrite sumOf_scale. lra.
  - rewrite (fold_add64_ext _ (fun p => selfConsumed p * ri)
                            data
                            (fun p Hp => proj1 (proj2 (proj2 (T p Hp))))
                            0 0 (Qeq_refl 0)).
    rewrite (fold_add64_exact (k + j) _ data K').
    + rewrite sumOf_scale. ring.
    + intros p Hp. split.
      * apply OnGrid_mul; [apply (Rec p Hp) | exact Gi].
      * apply Qmult_le_0_compat; [apply (Rec p Hp) | exact Pi].
    + apply OnGrid_0.
    + lra.
    + rewrite sumOf_scale. lra.
  - rewrite (fold_add64_ext _ (fun p => energyDemand p * ri)
                            data
                            (fun p Hp => proj2 (proj2 (proj2 (T p Hp))))
                            0 0 (Qeq_refl 0)).
    rewrite (fold_add64_exact (k + j) _ data K').
    + rewrite (sumOf_scale energyDemand ri data). fold E. ring.
    + intros p Hp. split.
      * apply OnGrid_mul; [apply (G Demand p Hp) | exact Gi].
      * apply Qmult_le_0_compat; [apply (M p Hp) | exact Pi].
    + apply OnGrid_0.
    + lra.
    + rewrite (sumOf_scale energyDemand ri data). fold E. lra.
  - rewrite (fold_add64_ext
               _ (fun p => orZero (gridImport p) * ri
                           - orZero (excessExport p) * re)
               data T5 0 0 (Qeq_refl 0)).
    assert (SumE : sumOf (fun p => orZero (gridImport p) * ri
                                   - orZero (excessExport p) * re) data
                   == sumOf (fun p => orZero (gridImport p)) data * ri
                      - sumOf (fun p => orZero (excessExport p)) data * re).
    { clear. induction data as [|p data IH].
      - rewrite !sumOf_nil. ring.
      - rewrite !sumOf_cons, IH. ring. }
    rewrite (fold_add64_exact_signed (k + j) _ data K').
    + rewrite SumE. ring.
    + intros p Hp. apply OnGrid_sub.
      * apply OnGrid_mul; [apply (G Import p Hp) | exact Gi].
      * apply OnGrid_mul; [apply (G Export p Hp) | exact Ge].
    + apply OnGrid_0.
    + apply Qle_trans
        with (0 + sumOf (fun p => orZero (gridImport p) * ri
                                  + orZero (excessExport p) * re) data).
      * apply Qplus_le_compat; [vm_compute; discriminate|].
        apply sumOf_le. intros p Hp.
        destruct (Rec p Hp) as ((_ & G0 & X0) & _).
        assert (0 <= orZero (gridImport p) * ri)
          by now apply Qmult_le_0_compat.
        assert (0 <= orZero (excessExport p) * re)
          by now apply Qmult_le_0_compat.
        apply Qabs_Qle_condition. split; lra.
      * assert (SumP : sumOf (fun p => orZero (gridImport p) * ri
                                       + orZero (excessExport p) * re) data
                       == sumOf (fun p => orZero (gridImport p)) data * ri
                          + sumOf (fun p => orZero (excessExport p)) data
                            * re).
        { clear. induction data as [|p data IH].
          - rewrite !sumOf_nil. ring.
          - rewrite !sumOf_cons, IH. ring. }
        rewrite SumP. lra.
Qed.

(** The counterexample to C10 as stated: one derived record producing 0.1
    kWh against a demand of 0.3 kWh, at the default rates 0.15 and 0.08.
    The import [0.3 - 0.1] and its cost both round, and [totalSavings]
    comes out one step above [totalSolarSavings + totalGridExportCredit],
    which is the double 0.015. *)
Lemma calculateCostSavings_rounding_counterexample :
  Forall Derived64 costRecord /\
  0 <= literal (15 # 100) /\ 0 <= literal (8 # 100) /\
  add64 (CostSavings.totalSolarSavings
           (Double.calculateCostSavings costRecord (literal (15 # 100))
                                        (literal (8 # 100))))
        (CostSavings.totalGridExportCredit
           (Double.calculateCostSavings costRecord (literal (15 # 100))
                                        (literal (8 # 100))))
  == literal (15 # 1000) /\
  literal (15 # 1000)
  < CostSavings.totalSavings
      (Double.calculateCostSavings costRecord (literal (15 # 100))
                                   (literal (8 # 100))) /\
  ~ CostSavings.totalSavings
      (Double.calculateCostSavings costRecord (literal (15 # 100))
                                   (literal (8 # 100)))
    == CostSavings.totalSolarSavings
         (Double.calculateCostSavings costRecord (literal (15 # 100))
                                      (literal (8 # 100)))
       + CostSavings.totalGridExportCredit
           (Double.calculateCostSavings costRecord (literal (15 # 100))
                                        (literal (8 # 100))).
Proof.
  split; [repeat constructor; vm_compute; reflexivity|].
  split; [vm_compute; discriminate|].
  split; [vm_compute; discriminate|].
  split; [vm_compute; reflexivity|].
  split; [vm_compute; reflexivity|].
  vm_compute. discriminate.
Qed.

(** C10 (amended). In exact arithmetic [calculateCostSavings] satisfies
    [totalSavings = totalSolarSavings + totalGridExportCredit] on every
    collection of derived records, whatever the rates, [totalSavings]
    being [totalCostWithoutSolar - totalCostWithSolar].  In binary64
    [totalSavings] is that difference rounded, and the identity holds
    when no operation rounds, as on derived records whose quantities are
    non-negative multiples of a power of two, at non-negative rates that
    are multiples of a power of two, with costs within 53 bits. *)
Theorem calculateCostSavings_savings_split
        (data : list SolarDataPoint) (gridImportRate gridExportRate : Q) :
  (Forall Derived data ->
   CostSavings.totalSavings
     (calculateCostSavings data gridImportRate gridExportRate)
   == CostSavings.totalSolarSavings
        (calculateCostSavings data gridImportRate gridExportRate)
      + CostSavings.totalGridExportCredit
          (calculateCostSavings data gridImportRate gridExportRate)) /\
  CostSavings.totalSavings
    (Double.calculateCostSavings data gridImportRate gridExportRate)
  = sub64 (CostSavings.totalCostWithoutSolar
             (Double.calculateCostSavings data gridImportRate
                                          gridExportRate))
          (CostSavings.totalCostWithSolar
             (Double.calculateCostSavings data gridImportRate
                                          gridExportRate)) /\
  (forall k j,
      DyadicCosts k j data gridImportRate gridExportRate ->
      Forall Derived64 data ->
      CostSavings.totalSavings
        (Double.calculateCostSavings data gridImportRate gridExportRate)
      == CostSavings.totalSolarSavings
           (Double.calculateCostSavings data gridImportRate gridExportRate)
         + CostSavings.totalGridExportCredit
             (Double.calculateCostSavings data gridImportRate
                                          gridExportRate) /\
      add64 (CostSavings.totalSolarSavings
               (Double.calculateCostSavings data gridImportRate
                                            gridExportRate))
            (CostSavings.totalGridExportCredit
               (Double.calculateCostSavings data gridImportRate
                                            gridExportRate))
      == CostSavings.totalSavings
           (Double.calculateCostSavings data gridImportRate
                                        gridExportRate)).
Proof.
  split; [|split].
  - intro D.
    apply (calculateCostSavings_split_exact data gridImportRate
                                            gridExportRate D).
  - reflexivity.
  - intros k j C D64.
    assert (D : Forall Derived data).
    { apply Forall_forall. intros p Hp.
      apply (Derived64_Derived k data p (proj1 C) Hp).
      exact (proj1 (Forall_forall _ _) D64 p Hp). }
    destruct (cost64_totals k j data gridImportRate gridExportRate C D)
      as (B & S & W & V).
    cbv zeta in B, S, W, V.
    unfold Double.calculateCostSavings.
    cbn [CostSavings.totalSavings CostSavings.totalSolarSavings
         CostSavings.totalGridExportCredit].
    set (acc := fold_left (Double.costStep gridImportRate gridExportRate)
                          data (CostAcc.mk 0 0 0 0 0)) in *.
    destruct C as (R & J & KJ & (Gi & Pi) & (Ge & Pe) & Bd).
    pose proof R as (K & G & Bk).
    assert (K' : (0 <= k + j <= 1074)%Z) by lia.
    assert (M : Forall Measured data).
    { apply Forall_forall. intros p Hp. split.
      - apply (G Production p Hp).
      - apply (G Demand p Hp). }
    destruct (sumOf_Derived_Measured data D M) as (C0 & G0 & X0 & E0 & S0).
    pose proof (sumOf_Derived data D) as Bal.
    pose proof (sumOf_selfConsumed data) as Self.
    set (sc := sumOf selfConsumed data) in *.
    set (sg := sumOf (fun p => orZero (gridImport p)) data) in *.
    set (sx := sumOf (fun p => orZero (excessExport p)) data) in *.
    set (se := sumOf energyDemand data) in *.
    set (ss := sumOf solarProduction data) in *.
    assert (Q1 : 0 <= sc * gridImportRate)
      by now apply Qmult_le_0_compat.
    assert (Q2 : 0 <= sx * gridExportRate)
      by now apply Qmult_le_0_compat.
    assert (Q3 : sc * gridImportRate <= ss * gridImportRate)
      by (apply Qmult_le_compat_r; [lra | assumption]).
    assert (Q4 : sx * gridExportRate <= ss * gridExportRate)
      by (apply Qmult_le_compat_r; [lra | assumption]).
    assert (Q5 : 0 <= se * gridImportRate)
      by now apply Qmult_le_0_compat.
    assert (Q6 : 0 <= se * gridExportRate)
      by now apply Qmult_le_0_compat.
    assert (Gc : OnGrid (k + j) (sc * gridImportRate)).
    { apply OnGrid_mul; [|exact Gi]. unfold sc. apply OnGrid_sumOf.
      intros p Hp. unfold selfConsumed. apply OnGrid_sub.
      - apply (G Production p Hp).
      - apply (G Export p Hp). }
    assert (Gx : OnGrid (k + j) (sx * gridExportRate)).
    { apply OnGrid_mul; [|exact Ge]. unfold sx. apply OnGrid_sumOf.
      intros p Hp. apply (G Export p Hp). }
    assert (Gg : OnGrid (k + j) (sg * gridImportRate)).
    { apply OnGrid_mul; [|exact Gi]. unfold sg. apply OnGrid_sumOf.
      intros p Hp. apply (G Import p Hp). }
    assert (Gd : OnGrid (k + j) (se * gridImportRate)).
    { apply OnGrid_mul; [|exact Gi]. unfold se. apply OnGrid_sumOf.
      intros p Hp. apply (G Demand p Hp). }
    assert (I : se * gridImportRate
                - (sg * gridImportRate - sx * gridExportRate)
                == sc * gridImportRate + sx * gridExportRate).
    { assert (E : se == sc + sg) by lra. rewrite E. ring. }
    assert (T : sub64 (CostAcc.totalCostWithoutSolar acc)
                      (CostAcc.totalCostWithSolar acc)
                == sc * gridImportRate + sx * gridExportRate).
    { rewrite W, V, <- I. apply (sub64_exact (k + j)); try assumption.
      - apply OnGrid_sub; assumption.
      - rewrite I, Qabs_pos by lra. lra. }
    split.
    + rewrite T, S, B. reflexivity.
    + rewrite T, S, B. apply (add64_exact (k + j)); try assumption.
      rewrite Qabs_pos by lra. lra.
Qed.

(** The records of the repository's tests at the rates 0.25 and 0.125. *)
Lemma testData_DyadicCosts : DyadicCosts 1 3 testData (1 # 4) (1 # 8).
Proof.
  split; [exact testData_DyadicRecords|].
  split; [lia|]. split; [lia|].
  split; [split; [exists 2%Z; vm_compute; reflexivity
                 | vm_compute; discriminate]|].
  split; [split; [exists 1%Z; vm_compute; reflexivity
                 | vm_compute; discriminate]|].
  vm_compute. discriminate.
Qed.

Lemma testData_Derived64 : Forall Derived64 testData.
Proof. repeat constructor; vm_compute; reflexivity. Qed.

Lemma calculateCostSavings_savings_split_witness :
  DyadicCosts 1 3 testData (1 # 4) (1 # 8) /\
  Forall Derived64 testData /\
  CostSavings.totalSavings
    (Double.calculateCostSavings testData (1 # 4) (1 # 8))
  == CostSavings.totalSolarSavings
       (Double.calculateCostSavings testData (1 # 4) (1 # 8))
     + CostSavings.totalGridExportCredit
         (Double.calculateCostSavings testData (1 # 4) (1 # 8)).
Proof.
  split; [exact testData_DyadicCosts|].
  split; [exact testData_Derived64|].
  destruct (calculateCostSavings_savings_split testData (1 # 4) (1 # 8))
    as (_ & _ & H).
  exact (proj1 (H 1%Z 3%Z testData_DyadicCosts testData_Derived64)).
Defined.

(** ** The order of the daily entries *)

Section SortedOn.
Context {A : Type}.
Variable cmp : A -> A -> Q.
Variable le : A -> A -> Prop.
Variable D : A -> Prop.
Hypothesis le_trans : forall x y z, le x y -> le y z -> le x z.
Hypothesis cmp_lt :
  forall x y, D x -> D y -> Qltb (cmp y x) 0 = true -> le y x.
Hypothesis cmp_ge :
  forall x y, D x -> D y -> Qltb (cmp y x) 0 = false -> le x y.

Lemma insert_sorted_on (x : A) (l : list A) :
  D x -> Forall D l -> StronglySorted le l ->
  StronglySorted le (JsArray.insert cmp x l).
Proof.
  intros Dx Dl S. induction S as [|y l S IH F]; cbn [JsArray.insert].
  - repeat constructor.
  - inversion Dl as [|? ? Dy Dl']; subst.
    destruct (Qltb (cmp y x) 0) eqn:E.
    + constructor; [now apply IH|]. apply Forall_forall. intros z Hz.
      apply (Permutation_in _ (insert_perm cmp x l)) in Hz.
      destruct Hz as [<- | Hz].
      * now apply cmp_lt.
      * now apply (proj1 (Forall_forall _ _) F).
    + constructor; [now constructor|]. constructor; [now apply cmp_ge|].
      apply Forall_forall. intros z Hz.
      apply (le_trans x y z); [now apply cmp_ge|].
      now apply (proj1 (Forall_forall _ _) F).
Qed.

Lemma sort_sorted_on (l : list A) :
  Forall D l -> StronglySorted le (JsArray.sort cmp l).
Proof.
  unfold JsArray.sort. induction 1 as [|x l Dx Dl IH]; cbn [fold_right].
  - constructor.
  - apply insert_sorted_on; [exact Dx | | exact IH].
    apply Forall_forall. intros z Hz.
    apply (Permutation_in _ (sort_perm cmp l)) in Hz.
    now apply (proj1 (Forall_forall _ _) Dl).
Qed.

End SortedOn.

(** X15. When the date parser gives every date of the collection a time,
    the entries [aggregateByDay] returns are in ascending order of the
    times of their dates. *)
Theorem aggregateByDay_sorted
        (getTime : string -> option Z) (data : list SolarDataPoint) :
  Forall (fun p => getTime (date p) <> None) data ->
  StronglySorted (timeLe getTime) (Double.aggregateByDay getTime data).
Proof.
  intro P. rewrite aggregateByDay64_entries.
  apply (sort_sorted_on (Double.byDate getTime) (timeLe getTime)
                        (fun e => getTime (Daily.date e) <> None)).
  - intros x y z. unfold timeLe.
    destruct (getTime (Daily.date x)), (getTime (Daily.date y)),
      (getTime (Daily.date z)); try tauto. lia.
  - intros x y Dx Dy H. apply Qltb_true in H.
    unfold Double.byDate in H. unfold timeLe.
    destruct (getTime (Daily.date x)) as [s|]; [|contradiction].
    destruct (getTime (Daily.date y)) as [t|]; [|contradiction].
    change 0 with (inject_Z 0) in H. rewrite <- Zlt_Qlt in H. lia.
  - intros x y Dx Dy H. apply Qltb_false in H.
    unfold Double.byDate in H. unfold timeLe.
    destruct (getTime (Daily.date x)) as [s|]; [|contradiction].
    destruct (getTime (Daily.date y)) as [t|]; [|contradiction].
    change 0 with (inject_Z 0) in H. rewrite <- Zle_Qle in H. lia.
  - apply Forall_forall. intros e He.
    assert (Hd : In (Daily.date e) (dates data)).
    { rewrite <- dayEntries64_dates. now apply in_map. }
    apply dates_In in Hd. destruct Hd as (p & Hp & <-).
    exact (proj1 (Forall_forall _ _) P p Hp).
Qed.

Lemma testData_parse :
  Forall (fun p => isoTime (date p) <> None) testData.
Proof. repeat constructor; discriminate. Qed.

Lemma aggregateByDay_sorted_witness :
  Forall (fun p => isoTime (date p) <> None) testData /\
  StronglySorted (timeLe isoTime) (Double.aggregateByDay isoTime testData).
Proof.
  split; [exact testData_parse|].
  apply (aggregateByDay_sorted isoTime testData). exact testData_parse.
Defined.

(** A date that is no date compares as equal to every other, and the
    entries around it stay as they were: here the second of January before
    the first. *)
Example aggregateByDay_unparsedDay :
  map Daily.date (Double.aggregateByDay isoTime unparsedDay)
  = ["2025-01-02"; "x"; "2025-01-01"]%string.
Proof. vm_compute. reflexivity. Qed.

(** ** More on peak shaving *)

Lemma discharge_Some (peak rate level : Q) (p : SolarDataPoint) (need : Q) :
  Double.discharge peak rate level p = Some need ->
  0 < need /\ need <= rate /\ need <= level /\
  mul64 peak Double.c07 < energyDemand p.
Proof.
  unfold Double.discharge.
  destruct (Qgtb (energyDemand p) (mul64 peak Double.c07)) eqn:E1;
    [|discriminate].
  destruct (Qgtb level 0) eqn:E2; [|discriminate]. cbn [andb].
  set (m := Qmin3 _ rate level).
  destruct (Qgtb m 0) eqn:E3; [|discriminate].
  intro H. injection H as <-.
  apply Qgtb_true in E1. apply Qgtb_true in E3.
  assert (B : m <= rate /\ m <= level).
  { subst m. unfold Qmin3.
    set (a := sub64 (energyDemand p) _).
    qmin a rate; qmin (Qmin a rate) level; split; lra. }
  destruct B. repeat split; assumption.
Qed.

(** Every record of the shaved day comes from a record of the day with the
    same demand, and a non-negative grid import stays non-negative and
    below every double it was below. *)
Lemma shave_In (peak rate : Q) (pts : list SolarDataPoint) :
  forall level q,
    In q (Double.shave peak rate level pts) ->
    exists p, In p pts /\ energyDemand q = energyDemand p /\
              (0 <= orZero (gridImport p) ->
               0 <= orZero (gridImport q) /\
               forall b, Binary64 b -> orZero (gridImport p) <= b ->
                         orZero (gridImport q) <= b).
Proof.
  induction pts as [|p pts IH]; intros level q; cbn [Double.shave].
  - intros [].
  - destruct (Double.discharge peak rate level p) as [need|] eqn:E.
    + apply discharge_Some in E. destruct E as (N & _).
      intros [<- | H].
      * exists p. split; [now left|]. split; [reflexivity|].
        intro G. cbn [withGridImport gridImport orZero]. split.
        -- apply Q.le_max_l.
        -- intros b Bb L. apply Q.max_lub; [lra|].
           unfold Binary64 in Bb. rewrite <- Bb. apply round64_le. lra.
      * destruct (IH _ _ H) as (p' & I & R). exists p'.
        split; [now right | exact R].
    + intros [<- | H].
      * exists p. split; [now left|]. split; [reflexivity|].
        intro G. split; [exact G | intros; assumption].
      * destruct (IH _ _ H) as (p' & I & R). exists p'.
        split; [now right | exact R].
Qed.

(** The grid import of a record derived in binary64 from non-negative
    measurements lies between 0 and the demand. *)
Lemma Derived64_import (p : SolarDataPoint) :
  Derived64 p -> Measured p -> Binary64 (energyDemand p) ->
  0 <= orZero (gridImport p) /\ orZero (gridImport p) <= energyDemand p.
Proof.
  intros [Hg _] [Ms Md] B. rewrite Hg. split.
  - apply Q.le_max_l.
  - apply Q.max_lub; [exact Md|]. now apply sub64_le_l.
Qed.

(** On such records the peak after shaving lies between 0 and the peak
    before, which is a double. *)
Lemma shaveDay_bounds (cap rate : Q) (pts : list SolarDataPoint)
      (d : DayPeak.t) :
  Forall Derived64 pts -> Forall Measured pts -> DoubleDemands pts ->
  Double.shaveDay cap rate pts = Some d ->
  0 <= DayPeak.peakDemandAfterShaving d /\
  DayPeak.peakDemandAfterShaving d <= DayPeak.peakDemand d /\
  Binary64 (DayPeak.peakDemand d).
Proof.
  intros Dv M B S. unfold DoubleDemands in B.
  pose proof (proj1 (Forall_forall _ _) Dv) as Dv'.
  pose proof (proj1 (Forall_forall _ _) M) as M'.
  pose proof (proj1 (Forall_forall _ _) B) as B'.
  destruct (shaveDay_peaks cap rate pts d B S)
    as (((x & Ix & Ex) & Pmax) & ((q & Iq & Eq) & _)).
  assert (Bp : Binary64 (DayPeak.peakDemand d))
    by (rewrite Ex; now apply B').
  destruct (shave_In _ _ _ _ _ Iq) as (p & Ip & _ & R).
  apply (proj1 (sort_In byHour pts p)) in Ip.
  destruct (Derived64_import p (Dv' p Ip) (M' p Ip) (B' p Ip)) as [G0 G1].
  destruct (R G0) as [Q0 Qb].
  specialize (Pmax p Ip).
  split; [lra|]. split; [|exact Bp].
  rewrite Eq. apply Qb; [exact Bp | lra].
Qed.

Lemma fold_add64_map {A : Type} (f : A -> Q) (l : list A) (a : Q) :
  fold_left add64 (map f l) a = fold_left (fun s x => add64 s (f x)) l a.
Proof.
  revert a. induction l as [|x l IH]; intro a; cbn [map fold_left];
    [reflexivity | apply IH].
Qed.

(** X11. On records with plain dates, derived in binary64 from
    non-negative measurements that are doubles, whatever the battery, peak
    shaving returns a result in which the total peak after shaving lies
    between 0 and the total peak before, the total reduction lies between
    0 and the total peak before, and the reduction percentage lies
    between 0 and 100. *)
Theorem calculatePeakShaving_bounds
        (data : list SolarDataPoint) (storageCapacity maxDischargeRate : Q) :
  PlainDates data -> Forall Derived64 data -> Forall Measured data ->
  DoubleDemands data ->
  exists r,
    Double.calculatePeakShaving data storageCapacity maxDischargeRate
    = Some r /\
    0 <= PeakShaving.totalPeakDemandAfterShaving r /\
    PeakShaving.totalPeakDemandAfterShaving r
    <= PeakShaving.totalPeakDemand r /\
    0 <= PeakShaving.totalPeakReduction r /\
    PeakShaving.totalPeakReduction r <= PeakShaving.totalPeakDemand r /\
    0 <= PeakShaving.peakReductionPercentage r /\
    PeakShaving.peakReductionPercentage r <= 100.
Proof.
  intros P Dv M B.
  pose proof (groupByDate_table data P) as G.
  destruct (groups_are_days data _ G) as [V K].
  set (days := map (fun d => onDate d data) (dayOrder data)) in *.
  assert (Day : forall pts, In pts days ->
            pts <> [] /\
            0 <= dayPeakAfter storageCapacity maxDischargeRate pts /\
            dayPeakAfter storageCapacity maxDischargeRate pts
            <= dayPeakDemand storageCapacity maxDischargeRate pts /\
            Binary64 (dayPeakDemand storageCapacity maxDischargeRate pts)).
  { intros pts H. unfold days in H. apply in_map_iff in H.
    destruct H as (d & <- & Hd).
    destruct (day_inv data d Hd) as [N I]. split; [exact N|].
    destruct (shaveDay_nonempty storageCapacity maxDischargeRate _ N)
      as [dp Hdp].
    unfold dayPeakAfter, dayPeakDemand. rewrite Hdp.
    apply (shaveDay_bounds storageCapacity maxDischargeRate
                           (onDate d data) dp); [| | |exact Hdp];
      apply Forall_forall; intros p Hp; apply I in Hp.
    - exact (proj1 (Forall_forall _ _) Dv p Hp).
    - exact (proj1 (Forall_forall _ _) M p Hp).
    - exact (proj1 (Forall_forall _ _) B p Hp). }
  unfold Double.calculatePeakShaving. rewrite G, V.
  rewrite (peakDay_fold storageCapacity maxDischargeRate days
                        (fun pts H => proj1 (Day pts H))).
  eexists. split; [reflexivity|].
  cbn [PeakShaving.totalPeakDemand PeakShaving.totalPeakDemandAfterShaving
       PeakShaving.totalPeakReduction PeakShaving.peakReductionPercentage
       PeakAcc.totalPeakDemand PeakAcc.totalPeakDemandAfterShaving
       PeakAcc.totalPeakReduction].
  rewrite !fold_add64_map.
  set (peak := fold_left
                 (fun s pts =>
                    add64 s (dayPeakDemand storageCapacity maxDischargeRate
                                           pts)) days 0).
  set (after := fold_left
                  (fun s pts =>
                     add64 s (dayPeakAfter storageCapacity maxDischargeRate
                                           pts)) days 0).
  set (red := fold_left
                (fun s pts =>
                   add64 s (sub64 (dayPeakDemand storageCapacity
                                                 maxDischargeRate pts)
                                  (dayPeakAfter storageCapacity
                                                maxDischargeRate pts)))
                days 0).
  assert (A0 : 0 <= after).
  { apply fold_add64_nonneg; [lra|]. intros pts H. apply (Day pts H). }
  assert (A1 : after <= peak).
  { apply fold_add64_le; [lra|]. intros pts H. apply (Day pts H). }
  assert (R0 : 0 <= red).
  { apply fold_add64_nonneg; [lra|]. intros pts H.
    apply sub64_nonneg. apply (Day pts H). }
  assert (R1 : red <= peak).
  { apply fold_add64_le; [lra|]. intros pts H.
    apply sub64_le_l; apply (Day pts H). }
  split; [exact A0|]. split; [exact A1|]. split; [exact R0|].
  split; [exact R1|].
  destruct (Qgtb peak 0) eqn:E.
  - apply Qgtb_true in E. apply percentage64_range; assumption.
  - split; lra.
Qed.

Lemma calculatePeakShaving_bounds_witness :
  PlainDates testData /\ Forall Derived64 testData /\
  Forall Measured testData /\ DoubleDemands testData /\
  exists r,
    Double.calculatePeakShaving testData defaultStorageCapacity
                                defaultMaxDischargeRate = Some r /\
    0 <= PeakShaving.totalPeakDemandAfterShaving r /\
    PeakShaving.totalPeakDemandAfterShaving r
    <= PeakShaving.totalPeakDemand r /\
    0 <= PeakShaving.totalPeakReduction r /\
    PeakShaving.totalPeakReduction r <= PeakShaving.totalPeakDemand r /\
    0 <= PeakShaving.peakReductionPercentage r /\
    PeakShaving.peakReductionPercentage r <= 100.
Proof.
  split; [exact testData_PlainDates|].
  split; [exact testData_Derived64|].
  split; [exact testData_Measured|].
  split; [exact testData_DoubleDemands|].
  apply (calculatePeakShaving_bounds
           testData defaultStorageCapacity defaultMaxDischargeRate
           testData_PlainDates testData_Derived64 testData_Measured
           testData_DoubleDemands).
Defined.

(** The total reduction is the sum of the reductions of the days, not the
    difference of the two totals: with demands of 3.3 and 6.1 kWh on two
    days and no production, the first is 4 and the second the double below
    it. *)
Example calculatePeakShaving_reduction_by_day :
  exists r,
    Double.calculatePeakShaving
      [ doublePoint "2025-01-01" 10 0 (33 # 10);
        doublePoint "2025-01-02" 10 0 (61 # 10) ]
      defaultStorageCapacity defaultMaxDischargeRate = Some r /\
    PeakShaving.totalPeakReduction r == 4 /\
    sub64 (PeakShaving.totalPeakDemand r)
          (PeakShaving.totalPeakDemandAfterShaving r) < 4.
Proof.
  eexists. split; [vm_compute; reflexivity|].
  vm_compute. repeat split.
Qed.

Lemma withGridImport_sameMeasured (p : SolarDataPoint) (g : Q) :
  sameMeasured (withGridImport p g) p.
Proof. unfold sameMeasured. repeat split; reflexivity. Qed.

Lemma sameMeasured_refl (p : SolarDataPoint) : sameMeasured p p.
Proof. unfold sameMeasured. repeat split; reflexivity. Qed.

(** X12. The shaving walk returns one record per record of the day, with
    the measured fields and the export unchanged.  A record whose demand
    is at most the double [peakDemand * 0.7] is returned as it is; a grid
    import that is a non-negative double is not raised and stays
    non-negative; and from an empty store the walk returns the day as it
    is. *)
Theorem shave_discipline (peak rate level : Q) (pts : list SolarDataPoint) :
  List.length (Double.shave peak rate level pts) = List.length pts /\
  Forall2 (fun p q =>
             sameMeasured q p /\ excessExport q = excessExport p /\
             (energyDemand p <= mul64 peak Double.c07 -> q = p) /\
             (Binary64 (orZero (gridImport p)) ->
              0 <= orZero (gridImport p) ->
              0 <= orZero (gridImport q) /\
              orZero (gridImport q) <= orZero (gridImport p)))
          pts (Double.shave peak rate level pts) /\
  (level <= 0 -> Double.shave peak rate level pts = pts).
Proof.
  split; [apply shave_length|]. split.
  - revert level. induction pts as [|p pts IH]; intro level;
      cbn [Double.shave].
    + constructor.
    + destruct (Double.discharge peak rate level p) as [need|] eqn:E.
      * apply discharge_Some in E. destruct E as (N & Nr & Nl & Hp).
        constructor; [|apply IH].
        split; [apply withGridImport_sameMeasured|].
        split; [reflexivity|]. split; [intro; lra|].
        intros Bg G. cbn [withGridImport gridImport orZero]. split.
        -- apply Q.le_max_l.
        -- apply Q.max_lub; [exact G|]. apply sub64_le_l; [exact Bg | lra].
      * constructor; [|apply IH].
        split; [apply sameMeasured_refl|]. split; [reflexivity|].
        split; [reflexivity|]. intros _ G. split; [exact G | lra].
  - intro L. induction pts as [|p pts IH]; cbn [Double.shave].
    + reflexivity.
    + unfold Double.discharge.
      assert (E : Qgtb level 0 = false) by now apply Qgtb_false.
      rewrite E, andb_false_r. now rewrite IH.
Qed.
